(** * Kaleidoscope: mirror-cavity tiling and block remapping

    A shallow embedding of [src/utils/kaleidoscope.py] (class [Kaleidoscope]
    with [__init__], [KaleidoExpan], [ParaMirrorCavity] and
    [KaleidoTransform]) together with the properties of its reflection
    geometry.

    Modelling conventions.
    - Python integers are [Z]; tensor sizes and positions inside a tensor
      are [nat].  [repNums] and [padding] are 4-tuples of integers,
      [centerBlk] a tuple of integers of any length.
    - A tensor is its shape together with its indexing function.  Reads
      outside the shape never happen in the model: every Python or torch
      expression that can raise is translated to a computation that
      raises.
    - A tensor that the caller hands to [ParaMirrorCavity], or as [pxIdx]
      to [KaleidoTransform], comes with its dtype and its strides
      ([TensorArg]): line 100 compares the dtype with that of the buffer
      it writes to, line 161 needs strides that [view] can flatten, line
      162 an index of dtype [int64].  [matIn] is read by [m[k, :]] and
      [torch.take], [blkIdx] by [blkIdx[i, j]], which work alike for
      every layout; [blkIdx] has a signed integer dtype.
    - [KaleidoExpan] is modelled from [im.squeeze()] on: its argument is
      the tensor that lines 44-47 obtain from the input.
    - Pixel intensities are elements of an abstract scalar type (class
      [Intensity]); floating-point rounding and the conversion of values
      between dtypes are not modelled.  The only arithmetic facts used
      are [r ** 0 = 1] and [x * 1 = x], which hold for IEEE floats.
    - Every function runs in the monad [M]: it may raise a Python
      exception, and it records each [torch.zeros] allocation in a log. *)

From Stdlib Require Import ZArith QArith Lia.
From stdpp Require Import base list gmap.

Close Scope Q_scope.

(** ** Scalars *)

Class Intensity (V : Type) := {
  izero : V;
  ione : V;
  imul : V -> V -> V;
  (** [ipow r e] is Python's [r ** e]. *)
  ipow : V -> Z -> V;
  ipow_0 : forall r, ipow r 0%Z = ione;
  imul_1_r : forall x, imul x ione = x
}.

(** Exact rational intensities, used for the concrete runs. *)
#[export, refine] Instance Q_Intensity : Intensity Q := {
  izero := 0%Q;
  ione := 1%Q;
  imul := Qmult;
  ipow := Qpower
}.
Proof.
  - intros r. reflexivity.
  - intros [n d]. unfold Qmult. simpl.
    rewrite Z.mul_1_r, Pos.mul_1_r. reflexivity.
Defined.

(** ** Exceptions, allocation log and the monad *)

Inductive exn : Type :=
| ValueError      (* tuple unpacking of a shape of the wrong length *)
| IndexError      (* an index outside a tensor dimension *)
| RuntimeError.   (* torch: negative size, impossible view, dtype or shape mismatch *)

(** One event per [torch.zeros] call, with the requested shape. *)
Inductive event : Type :=
| Alloc (shape : list nat).

Definition M (A : Type) : Type := list event -> (exn + A) * list event.

Definition ret {A} (a : A) : M A := fun log => (inr a, log).

Definition raise {A} (e : exn) : M A := fun log => (inl e, log).

Definition bind {A B} (m : M A) (k : A -> M B) : M B :=
  fun log =>
    match m log with
    | (inr a, log') => k a log'
    | (inl e, log') => (inl e, log')
    end.

Definition tell (e : event) : M unit := fun log => (inr tt, log ++ [e]).

Notation "x <- m ;; k" := (bind m (fun x => k))
  (at level 100, m at next level, right associativity).

(** A Python [for] loop whose body updates one variable. *)
Fixpoint foldM {S B} (body : S -> B -> M S) (l : list B) (s : S) : M S :=
  match l with
  | [] => ret s
  | b :: l' => s' <- body s b ;; foldM body l' s'
  end.

(** ** Python built-ins *)

(** [len(range(start, stop, step))] as CPython computes it. *)
Definition range_len (start stop step : Z) : nat :=
  if (0 <? step)%Z then
    if (start <? stop)%Z then Z.to_nat ((stop - start - 1) / step + 1) else 0
  else if (step <? 0)%Z then
    if (stop <? start)%Z then Z.to_nat ((start - stop - 1) / (- step) + 1) else 0
  else 0.

(** [range(start, stop, step)]; the source only uses the steps 1, 2, -1, -2. *)
Definition py_range (start stop step : Z) : list Z :=
  map (fun k => (start + Z.of_nat k * step)%Z) (seq 0 (range_len start stop step)).

(** [torch.arange(start, end, step)] on integers holds the numbers of
    [range(start, end, step)], but torch raises when the bounds contradict
    the sign of the step ("upper bound and larger bound inconsistent with
    step sign"). *)
Definition torch_arange (start stop step : Z) : M (list Z) :=
  if ((0 <? step) && (start <=? stop) || (step <? 0) && (stop <=? start))%Z
  then ret (py_range start stop step)
  else raise RuntimeError.

(** An integer used as an index into a dimension of size [n]: negative
    values count from the end, anything else outside [0, n) raises. *)
Definition norm_index (n : nat) (k : Z) : option nat :=
  if ((0 <=? k) && (k <? Z.of_nat n))%Z then Some (Z.to_nat k)
  else if ((- Z.of_nat n <=? k) && (k <? 0))%Z then Some (Z.to_nat (k + Z.of_nat n))
  else None.

Definition index_dim (n : nat) (k : Z) : M nat :=
  match norm_index n k with
  | Some i => ret i
  | None => raise IndexError
  end.

(** A slice bound [b] of [t[b:...]] over a dimension of size [n]
    ([slice.indices] with step 1). *)
Definition slice_bound (n : nat) (b : Z) : nat :=
  if (b <? 0)%Z then Z.to_nat (Z.max (b + Z.of_nat n) 0)
  else Z.to_nat (Z.min b (Z.of_nat n)).

(** ** Tensors *)

Record Tensor1 (A : Type) := mkT1 { len1 : nat; at1 : nat -> A }.
Record Tensor2 (A : Type) := mkT2 { rows : nat; cols : nat; at2 : nat -> nat -> A }.
Record Tensor3 (A : Type) :=
  mkT3 { dim0 : nat; dim1 : nat; dim2 : nat; at3 : nat -> nat -> nat -> A }.
(** A tensor of any rank, stored row-major. *)
Record TensorN (A : Type) := mkTN { shape : list nat; flat : nat -> A }.

Arguments mkT1 {A}. Arguments len1 {A}. Arguments at1 {A}.
Arguments mkT2 {A}. Arguments rows {A}. Arguments cols {A}. Arguments at2 {A}.
Arguments mkT3 {A}. Arguments dim0 {A}. Arguments dim1 {A}.
Arguments dim2 {A}. Arguments at3 {A}.
Arguments mkTN {A}. Arguments shape {A}. Arguments flat {A}.

(** The dtypes of torch. *)
Inductive dtype : Type :=
| boolean | uint8 | int8 | int16 | int32 | int64
| float16 | bfloat16 | float32 | float64 | complex64 | complex128.

#[export] Instance dtype_eq_dec : EqDecision dtype.
Proof. solve_decision. Defined.

(** A 2-D tensor as a caller hands it in: its dtype, its strides (counted
    in elements) and its entries. *)
Record TensorArg (A : Type) := mkArg {
  arg_dtype : dtype;
  stride0 : nat;
  stride1 : nat;
  arg_tensor :> Tensor2 A
}.

Arguments mkArg {A}. Arguments arg_dtype {A}. Arguments stride0 {A}.
Arguments stride1 {A}. Arguments arg_tensor {A}.

(** A tensor of dtype [dt] in row-major layout, as [torch.zeros],
    [torch.arange] and [view] make them, and its transpose [t.t()], which
    shares the storage and swaps the strides. *)
Definition contiguous {A} (dt : dtype) (t : Tensor2 A) : TensorArg A :=
  mkArg dt (cols t) 1 t.

Definition transposed {A} (dt : dtype) (t : Tensor2 A) : TensorArg A :=
  mkArg dt 1 (cols t) (mkT2 (cols t) (rows t) (fun y x => at2 t x y)).

(** Literal tensors, for the concrete runs. *)
Definition of_rows {A} (d : A) (h w : nat) (l : list (list A)) : Tensor2 A :=
  mkT2 h w (fun y x => nth x (nth y l []) d).

Definition to_rows {A} (t : Tensor2 A) : list (list A) :=
  map (fun y => map (fun x => at2 t y x) (seq 0 (cols t))) (seq 0 (rows t)).

Definition shape2 {A} (t : Tensor2 A) : nat * nat := (rows t, cols t).

Section Torch.
Context {A : Type}.

(** [t.squeeze()]: every dimension of size 1 is dropped. *)
Definition squeeze (t : TensorN A) : TensorN A :=
  mkTN (filter (fun d => d ≠ 1) (shape t)) (flat t).

(** [(h, w) = t.shape] followed by 2-D indexing. *)
Definition unpack2 (t : TensorN A) : M (Tensor2 A) :=
  match shape t with
  | [h; w] => ret (mkT2 h w (fun y x => flat t (y * w + x)))
  | _ => raise ValueError
  end.

(** [torch.flip(t, [0])] and [torch.flip(t, [1])]. *)
Definition flip0 (t : Tensor2 A) : Tensor2 A :=
  mkT2 (rows t) (cols t) (fun y x => at2 t (rows t - 1 - y) x).

Definition flip1 (t : Tensor2 A) : Tensor2 A :=
  mkT2 (rows t) (cols t) (fun y x => at2 t y (cols t - 1 - x)).

(** [t.t()]. *)
Definition transpose (t : Tensor2 A) : Tensor2 A :=
  mkT2 (cols t) (rows t) (fun y x => at2 t x y).

(** [t.unsqueeze(1)]. *)
Definition unsqueeze1 (t : Tensor2 A) : Tensor3 A :=
  mkT3 (rows t) 1 (cols t) (fun y _ x => at2 t y x).

(** [torch.repeat_interleave(t, n, dim=1)]. *)
Definition repeat_interleave1 (t : Tensor3 A) (n : nat) : Tensor3 A :=
  mkT3 (dim0 t) (dim1 t * n) (dim2 t) (fun y k x => at3 t y (k / n) x).

(** [t[:, idx, :] = src] for a list of integers [idx]; [src] has the
    shape [(dim0 t, len(idx), dim2 t)] at both call sites.  An index that
    is a list makes this an [index_put_], which raises unless [t] and
    [src] have the same dtype ("Index put requires the source and
    destination dtypes match"), also when the list is empty.  The
    assignments are performed in list order. *)
Definition index_put1 (t : Tensor3 A) (t_dtype : dtype) (idx : list Z)
    (src : Tensor3 A) (src_dtype : dtype) : M (Tensor3 A) :=
  if bool_decide (t_dtype = src_dtype) then
    match mapM (norm_index (dim1 t)) idx with
    | None => raise IndexError
    | Some ks =>
        ret (mkT3 (dim0 t) (dim1 t) (dim2 t)
               (fold_left
                  (fun f nk y k x =>
                     if k =? snd nk then at3 src y (fst nk) x else f y k x)
                  (imap pair ks) (at3 t)))
    end
  else raise RuntimeError.

(** [t[:, i, :] = src] for an in-range position [i]; [src] has shape
    [(dim0 t, dim2 t)] at the call site. *)
Definition set_slice1 (t : Tensor3 A) (i : nat) (src : Tensor2 A) : Tensor3 A :=
  mkT3 (dim0 t) (dim1 t) (dim2 t)
    (fun y k x => if k =? i then at2 src y x else at3 t y k x).

(** [m[k, :]]. *)
Definition getrow (m : Tensor2 A) (k : Z) : M (Tensor1 A) :=
  r <- index_dim (rows m) k ;; ret (mkT1 (cols m) (fun x => at2 m r x)).

(** Row-major position [L] of a 3-D and of a 2-D tensor. *)
Definition flat3 (t : Tensor3 A) (L : nat) : A :=
  at3 t (L / (dim1 t * dim2 t)) ((L / dim2 t) mod dim1 t) (L mod dim2 t).

Definition flat2 (t : Tensor2 A) (L : nat) : A :=
  at2 t (L / cols t) (L mod cols t).

(** The size torch infers for the [-1] of [t.view(known, -1)] on a tensor
    of [numel] elements.  [None] is the RuntimeError: either [known] does
    not divide [numel], or [known] is 0, in which case torch refuses
    ("cannot reshape tensor of 0 elements into shape [0, -1] because the
    unspecified dimension size -1 can be any value and is ambiguous"). *)
Definition infer_size (numel known : nat) : option nat :=
  if (numel =? known) || ((0 <? known) && (numel mod known =? 0)) then
    if known =? 0 then None else Some (numel / known)
  else None.

(** [t.view(known, -1)] on a contiguous 3-D tensor. *)
Definition view3_2 (t : Tensor3 A) (known : Z) : M (Tensor2 A) :=
  if (known <? 0)%Z then raise RuntimeError
  else
    match infer_size (dim0 t * dim1 t * dim2 t) (Z.to_nat known) with
    | None => raise RuntimeError
    | Some c =>
        ret (mkT2 (Z.to_nat known) c (fun y x => flat3 t (y * c + x)))
    end.

(** The entries of a 2-D tensor in row-major order. *)
Definition flat_view (t : Tensor2 A) : Tensor1 A :=
  mkT1 (rows t * cols t) (flat2 t).

(** Whether [t.view(-1,)] can express the entries of [t] with one stride:
    a tensor without elements always can; otherwise the two dimensions
    must merge, which they do when one of them has size 1 or the row
    stride is the row length times the column stride.  (A row-major
    tensor can, the transpose of one with two rows and two columns
    cannot.) *)
Definition flattens (t : TensorArg A) : bool :=
  (rows t * cols t =? 0) || (rows t =? 1) || (cols t =? 1)
  || (stride0 t =? cols t * stride1 t).

(** [idx.view(-1,)]: torch raises ("view size is not compatible with input
    tensor's size and stride") when the strides do not allow it. *)
Definition view_flat (t : TensorArg A) : M (Tensor1 A) :=
  if flattens t then ret (flat_view t) else raise RuntimeError.

(** [l.view((h, w))] on a 1-D tensor of [h * w] elements. *)
Definition view1_2 (t : Tensor1 A) (h w : nat) : Tensor2 A :=
  mkT2 h w (fun y x => at1 t (y * w + x)).

(** [torch.take(src, idx)] with a 1-D index tensor of dtype [idx_dtype]:
    torch first demands an index of dtype [int64] ("take(): Expected a
    long tensor for index"), then checks the entries. *)
Definition take (src : Tensor1 A) (idx_dtype : dtype) (idx : Tensor1 Z)
  : M (Tensor1 A) :=
  if bool_decide (idx_dtype = int64) then
    if forallb (fun L => bool_decide (is_Some (norm_index (len1 src) (at1 idx L))))
         (seq 0 (len1 idx))
    then ret (mkT1 (len1 idx)
                (fun L => at1 src (default 0 (norm_index (len1 src) (at1 idx L)))))
    else raise IndexError
  else raise RuntimeError.

(** Broadcasting a source dimension of size [s] to a target of size [r]. *)
Definition broadcastable (s r : nat) : bool := (s =? r) || (s =? 1).

Definition bcast_pos (s k : nat) : nat := if s =? 1 then 0 else k.

(** [t[r0:r1, c0:c1] = src]. *)
Definition slice_assign2 (t : Tensor2 A) (r0 r1 c0 c1 : Z) (src : Tensor2 A)
  : M (Tensor2 A) :=
  let ya := slice_bound (rows t) r0 in
  let yb := slice_bound (rows t) r1 in
  let xa := slice_bound (cols t) c0 in
  let xb := slice_bound (cols t) c1 in
  if broadcastable (rows src) (yb - ya) && broadcastable (cols src) (xb - xa) then
    ret (mkT2 (rows t) (cols t)
           (fun y x =>
              if (ya <=? y) && (y <? yb) && (xa <=? x) && (x <? xb)
              then at2 src (bcast_pos (rows src) (y - ya)) (bcast_pos (cols src) (x - xa))
              else at2 t y x))
  else raise RuntimeError.

(** [t[r0:r1, j, c0:c1] = src]. *)
Definition slice_assign3 (t : Tensor3 A) (r0 r1 : Z) (j : Z) (c0 c1 : Z)
    (src : Tensor2 A) : M (Tensor3 A) :=
  let ya := slice_bound (dim0 t) r0 in
  let yb := slice_bound (dim0 t) r1 in
  let xa := slice_bound (dim2 t) c0 in
  let xb := slice_bound (dim2 t) c1 in
  jj <- index_dim (dim1 t) j ;;
  if broadcastable (rows src) (yb - ya) && broadcastable (cols src) (xb - xa) then
    ret (mkT3 (dim0 t) (dim1 t) (dim2 t)
           (fun y k x =>
              if (k =? jj) && (ya <=? y) && (y <? yb) && (xa <=? x) && (x <? xb)
              then at2 src (bcast_pos (rows src) (y - ya)) (bcast_pos (cols src) (x - xa))
              else at3 t y k x))
  else raise RuntimeError.
End Torch.

(** [l[i]] on a Python list or 1-D tensor held as a list. *)
Definition list_getitem {A} (l : list A) (i : Z) : M A :=
  k <- index_dim (length l) i ;;
  match l !! k with
  | Some v => ret v
  | None => raise IndexError
  end.

(** Python 4-tuples and their items. *)
Definition tuple4 : Type := Z * Z * Z * Z.
Definition item0 (t : tuple4) : Z := let '(a, _, _, _) := t in a.
Definition item1 (t : tuple4) : Z := let '(_, b, _, _) := t in b.
Definition item2 (t : tuple4) : Z := let '(_, _, c, _) := t in c.
Definition item3 (t : tuple4) : Z := let '(_, _, _, d) := t in d.

(** ** The class [Kaleidoscope] *)

Section Kaleidoscope.
Context {V : Type} `{Intensity V}.

Record Kaleidoscope : Type := mkKaleidoscope {
  repNums : tuple4;       (* up, down, left, right *)
  padding : tuple4;       (* up, down, left, right *)
  reflectivity : V
}.

(** [__init__]: the three arguments are stored as they come. *)
Definition init (repNums padding : tuple4) (reflectivity : V) : M Kaleidoscope :=
  ret (mkKaleidoscope repNums padding reflectivity).

(** [torch.zeros(h, w)] and [torch.zeros(a, b, c)]. *)
Definition torch_zeros2 (h w : Z) : M (Tensor2 V) :=
  if ((h <? 0) || (w <? 0))%Z then raise RuntimeError
  else
    _ <- tell (Alloc [Z.to_nat h; Z.to_nat w]) ;;
    ret (mkT2 (Z.to_nat h) (Z.to_nat w) (fun _ _ => izero)).

Definition torch_zeros3 (a b c : Z) : M (Tensor3 V) :=
  if ((a <? 0) || (b <? 0) || (c <? 0))%Z then raise RuntimeError
  else
    _ <- tell (Alloc [Z.to_nat a; Z.to_nat b; Z.to_nat c]) ;;
    ret (mkT3 (Z.to_nat a) (Z.to_nat b) (Z.to_nat c) (fun _ _ _ => izero)).

(** [t * f] for a scalar [f]. *)
Definition scale2 (t : Tensor2 V) (f : V) : Tensor2 V :=
  mkT2 (rows t) (cols t) (fun y x => imul (at2 t y x) f).

(** [t[:, i, :] = t[:, i, :] * f]. *)
Definition scale_slice1 (t : Tensor3 V) (i : nat) (f : V) : Tensor3 V :=
  mkT3 (dim0 t) (dim1 t) (dim2 t)
    (fun y k x => if k =? i then imul (at3 t y k x) f else at3 t y k x).

(** *** ParaMirrorCavity *)

(** Line 87: the positions that receive the flipped image. *)
Definition flipIdx (num_reps : Z * Z) : list Z :=
  py_range (fst num_reps - 1) (-1) (-2)
  ++ py_range (fst num_reps + 1) (fst num_reps + snd num_reps + 1) 2.

(** Line 90: the other positions; a Python set has no specified order,
    neither has [elements]. *)
Definition keepIdx (num_reps : Z * Z) : list Z :=
  elements
    ((list_to_set (py_range 0 (fst num_reps + snd num_reps + 1) 1) : gset Z)
     ∖ list_to_set (flipIdx num_reps)).

(** Lines 93-94: [torch.cat] of two [torch.arange], then
    [reflectivity ** _]. *)
Definition attenIdx (num_reps : Z * Z) : M (list Z) :=
  towards <- torch_arange (fst num_reps) 0 (-1) ;;
  away <- torch_arange 0 (snd num_reps + 1) 1 ;;
  ret (towards ++ away).

Definition attenFactor (self : Kaleidoscope) (num_reps : Z * Z) : M (list V) :=
  attenIdx <- attenIdx num_reps ;;
  ret (map (ipow (reflectivity self)) attenIdx).

(** Lines 97-103: the flipped and the un-flipped image are written to
    their positions of [imageRow], the [float32] buffer of line 84;
    [torch.flip], [unsqueeze] and [repeat_interleave] keep the dtype of
    [im]. *)
Definition placeTiles (im : TensorArg V) (num_reps : Z * Z) (imageRow : Tensor3 V)
  : M (Tensor3 V) :=
  let flipIdx := flipIdx num_reps in
  let keepIdx := keepIdx num_reps in
  let imHoriFlip := flip1 im in
  imageRow <- index_put1 imageRow float32 flipIdx
                (repeat_interleave1 (unsqueeze1 imHoriFlip) (length flipIdx))
                (arg_dtype im) ;;
  index_put1 imageRow float32 keepIdx
    (repeat_interleave1 (unsqueeze1 im) (length keepIdx)) (arg_dtype im).

(** Lines 106-107: the attenuation loop. *)
Definition attenuate (attenFactor : list V) (num_reps : Z * Z) (imageRow : Tensor3 V)
  : M (Tensor3 V) :=
  foldM
    (fun imageRow i =>
       k <- index_dim (dim1 imageRow) i ;;
       f <- list_getitem attenFactor i ;;
       ret (scale_slice1 imageRow k f))
    (py_range 0 (fst num_reps + snd num_reps + 1) 1)
    imageRow.

Definition ParaMirrorCavity (self : Kaleidoscope) (padded_image : TensorArg V)
    (num_reps : Z * Z) : M (Tensor2 V) :=
  let im := padded_image in
  let h := rows im in
  let w := cols im in
  (* line 84 *)
  imageRow <- torch_zeros3 (Z.of_nat h) (fst num_reps + snd num_reps + 1) (Z.of_nat w) ;;
  attenFactor <- attenFactor self num_reps ;;
  imageRow <- placeTiles im num_reps imageRow ;;
  imageRow <- attenuate attenFactor num_reps imageRow ;;
  (* line 110: imageRow.view(h, -1) *)
  view3_2 imageRow (Z.of_nat h).

(** *** KaleidoExpan

    [original_image] is the tensor that lines 44-47 obtain (the input
    itself for a [torch.Tensor], [ToTensor()] of it otherwise).  The
    canvas of line 56 is a [float32] tensor whatever the dtype of the
    image, whose values the slice assignment of line 57 converts; the
    tensors that [ParaMirrorCavity] returns are [float32] as well. *)
Definition KaleidoExpan (self : Kaleidoscope) (original_image : TensorN V)
  : M (Tensor2 V) :=
  im <- unpack2 (squeeze original_image) ;;
  let pad := padding self in
  let repN := repNums self in
  let h := (Z.of_nat (rows im) + item0 pad + item1 pad)%Z in
  let w := (Z.of_nat (cols im) + item2 pad + item3 pad)%Z in
  im_padded <- torch_zeros2 h w ;;
  im_padded <- slice_assign2 im_padded
                 (item0 pad) (h - item1 pad) (item2 pad) (w - item3 pad) im ;;
  let im := contiguous float32 im_padded in
  rowMirror <- ParaMirrorCavity self im (item2 repN, item3 repN) ;;
  fullMirror <- ParaMirrorCavity self (transposed float32 rowMirror)
                  (item0 repN, item1 repN) ;;
  ret (transpose fullMirror).

(** *** KaleidoTransform *)

(** Lines 165-172: what [centerBlk] does to the block at grid position
    [(i, j)]. *)
Definition reflectBlock (self : Kaleidoscope) (centerBlk : list Z) (i j : Z)
    (blk2D : Tensor2 V) : Tensor2 V :=
  match centerBlk with
  | [] => blk2D
  | [c0; c1] =>
      let blk2D := if ((i - c0) mod 2 =? 1)%Z then flip0 blk2D else blk2D in
      let blk2D := if ((j - c1) mod 2 =? 1)%Z then flip1 blk2D else blk2D in
      scale2 blk2D (ipow (reflectivity self) (Z.abs (i - c0) + Z.abs (j - c1)))
  | _ => blk2D
  end.

(** Lines 161-163: the unit block folded from row [k] of [matIn]. *)
Definition gatherBlock (matIn : Tensor2 V) (pxIdx : TensorArg Z) (k : Z)
  : M (Tensor2 V) :=
  linIdx <- view_flat pxIdx ;;
  row <- getrow matIn k ;;
  linBlk <- take row (arg_dtype pxIdx) linIdx ;;
  ret (view1_2 linBlk (rows pxIdx) (cols pxIdx)).

(** Line 145: the height and width of a padded cell. *)
Definition blk_h_pad (self : Kaleidoscope) (pxIdx : Tensor2 Z) : Z :=
  (Z.of_nat (rows pxIdx) + (item0 (padding self) + item1 (padding self)))%Z.

Definition blk_w_pad (self : Kaleidoscope) (pxIdx : Tensor2 Z) : Z :=
  (Z.of_nat (cols pxIdx) + (item2 (padding self) + item3 (padding self)))%Z.

(** Lines 158-175: the body of the loop over [j]. *)
Definition placeBlock (self : Kaleidoscope) (matIn : Tensor2 V)
    (pxIdx : TensorArg Z) (blkIdx : Tensor2 Z) (centerBlk : list Z) (i : Z)
    (transBlkRow : Tensor3 V) (j : Z) : M (Tensor3 V) :=
  let pad := padding self in
  let blk_h := Z.of_nat (rows pxIdx) in
  let blk_w := Z.of_nat (cols pxIdx) in
  blk2D <- gatherBlock matIn pxIdx (at2 blkIdx (Z.to_nat i) (Z.to_nat j)) ;;
  let blk2D := reflectBlock self centerBlk i j blk2D in
  slice_assign3 transBlkRow
    (item0 pad) (item0 pad + blk_h) j
    (item2 pad) (item2 pad + blk_w) blk2D.

(** Lines 154-178: the body of the loop over [i]. *)
Definition buildBlkRow (self : Kaleidoscope) (matIn : Tensor2 V)
    (pxIdx : TensorArg Z) (blkIdx : Tensor2 Z) (centerBlk : list Z)
    (transImage : Tensor3 V) (i : Z) : M (Tensor3 V) :=
  let blk_h_pad := blk_h_pad self pxIdx in
  let blk_w_pad := blk_w_pad self pxIdx in
  let blk_colCount := Z.of_nat (cols blkIdx) in
  transBlkRow <- torch_zeros3 blk_h_pad blk_colCount blk_w_pad ;;
  transBlkRow <-
    foldM (placeBlock self matIn pxIdx blkIdx centerBlk i)
      (py_range 0 blk_colCount 1) transBlkRow ;;
  rowImage <- view3_2 transBlkRow blk_h_pad ;;
  ii <- index_dim (dim1 transImage) i ;;
  ret (set_slice1 transImage ii (transpose rowImage)).

Definition KaleidoTransform (self : Kaleidoscope) (matIn : Tensor2 V)
    (pxIdx : TensorArg Z) (blkIdx : Tensor2 Z) (centerBlk : list Z)
  : M (Tensor2 V) :=
  let blk_h_pad := blk_h_pad self pxIdx in
  let blk_w_pad := blk_w_pad self pxIdx in
  let blk_rowCount := Z.of_nat (rows blkIdx) in
  let blk_colCount := Z.of_nat (cols blkIdx) in
  (* line 151 *)
  transImage <- torch_zeros3 (blk_colCount * blk_w_pad) blk_rowCount blk_h_pad ;;
  transImage <-
    foldM (buildBlkRow self matIn pxIdx blkIdx centerBlk)
      (py_range 0 blk_rowCount 1) transImage ;;
  (* lines 181-182 *)
  transImage <- view3_2 transImage (blk_colCount * blk_w_pad) ;;
  ret (transpose transImage).

(** The block that [gatherBlock] yields for grid position [(i, j)] when
    the indices are in range. *)
Definition unitBlock (matIn : Tensor2 V) (pxIdx blkIdx : Tensor2 Z) (i j : nat)
  : Tensor2 V :=
  mkT2 (rows pxIdx) (cols pxIdx)
    (fun y x => at2 matIn (Z.to_nat (at2 blkIdx i j)) (Z.to_nat (at2 pxIdx y x))).

(** What line 175 leaves at position [(y, x)] of the cell of block
    [(i, j)]: the reflected block inside the window that starts at
    [(pad[0], pad[2])], zero around it. *)
Definition paddedCell (self : Kaleidoscope) (matIn : Tensor2 V)
    (pxIdx blkIdx : Tensor2 Z) (centerBlk : list Z) (i j y x : nat) : V :=
  let p0 := Z.to_nat (item0 (padding self)) in
  let p2 := Z.to_nat (item2 (padding self)) in
  if (p0 <=? y) && (y <? p0 + rows pxIdx) && (p2 <=? x) && (x <? p2 + cols pxIdx)
  then at2 (reflectBlock self centerBlk (Z.of_nat i) (Z.of_nat j)
              (unitBlock matIn pxIdx blkIdx i j)) (y - p0) (x - p2)
  else izero.
End Kaleidoscope.

Arguments Kaleidoscope V : clear implicits.

(** The 2-D tensor that line 50 finds in an input whose squeezed shape is
    [(h, w)]. *)
Definition image2 {A} (t : TensorN A) (h w : nat) : Tensor2 A :=
  mkT2 h w (fun y x => flat t (y * w + x)).

(** Lines 55-58 for a padding that is not negative: the image at the offset
    [(pad[0], pad[2])] of a canvas of zeros. *)
Definition paddedImage {V} `{Intensity V} (self : Kaleidoscope V) (im : Tensor2 V)
  : Tensor2 V :=
  let pad := padding self in
  let p0 := Z.to_nat (item0 pad) in
  let p2 := Z.to_nat (item2 pad) in
  mkT2 (Z.to_nat (Z.of_nat (rows im) + item0 pad + item1 pad))
       (Z.to_nat (Z.of_nat (cols im) + item2 pad + item3 pad))
       (fun y x =>
          if (p0 <=? y) && (y <? p0 + rows im) && (p2 <=? x) && (x <? p2 + cols im)
          then at2 im (y - p0) (x - p2)
          else izero).

(** *** The script at the end of the file (lines 188-195) *)

(** [torch.arange(0, n).view(h, -1)] for [h] dividing [n]. *)
Definition arange_view (n h : nat) : Tensor2 Z :=
  mkT2 h (n / h) (fun y x => Z.of_nat (y * (n / h) + x)).

(** [x.view(1, -1)] on a tensor of [n] elements, and [t.repeat(k, 1)]. *)
Definition view_row {A} (x : TensorN A) (n : nat) : Tensor2 A :=
  mkT2 1 n (fun _ c => flat x c).

Definition repeat_rows {A} (t : Tensor2 A) (k : nat) : Tensor2 A :=
  mkT2 (k * rows t) (cols t) (fun r c => at2 t (r mod rows t) c).

(** [kale = Kaleidoscope((1,2,1,1), (2,2,2,2))], with the default
    reflectivity 1.0, and the call of [KaleidoTransform] on the image
    tensor [x] of 784 elements. *)
Definition main_kale {V} `{Intensity V} : Kaleidoscope V :=
  mkKaleidoscope (1, 2, 1, 1)%Z (2, 2, 2, 2)%Z ione.

Definition main_xForm {V} `{Intensity V} (x : TensorN V) : M (Tensor2 V) :=
  KaleidoTransform main_kale (repeat_rows (view_row x 784) 6)
    (contiguous int64 (arange_view 784 28)) (arange_view 6 2) [0; 1]%Z.

(** Preconditions: every entry of an index map lies in [0, n), and the
    four entries of a configuration tuple are not negative. *)
Definition in_range (idx : Tensor2 Z) (n : nat) : Prop :=
  forall y x, y < rows idx -> x < cols idx -> (0 <= at2 idx y x < Z.of_nat n)%Z.

Definition in_rangeb (idx : Tensor2 Z) (n : nat) : bool :=
  forallb
    (fun y =>
       forallb (fun x => (0 <=? at2 idx y x)%Z && (at2 idx y x <? Z.of_nat n)%Z)
         (seq 0 (cols idx)))
    (seq 0 (rows idx)).

Definition nonneg4 (t : tuple4) : Prop :=
  (0 <= item0 t)%Z /\ (0 <= item1 t)%Z /\ (0 <= item2 t)%Z /\ (0 <= item3 t)%Z.

(** A pixel map that lines 161-162 accept: [view] can flatten it and
    [torch.take] finds the dtype [int64]. *)
Definition flat_long (pxIdx : TensorArg Z) : Prop :=
  flattens pxIdx = true /\ arg_dtype pxIdx = int64.

(** Two tensors of one shape with the same entries. *)
Definition agree2 {A} (a b : Tensor2 A) : Prop :=
  rows a = rows b /\ cols a = cols b /\
  forall y x, y < rows a -> x < cols a -> at2 a y x = at2 b y x.

(** The value a run returns, and the log it leaves. *)
Definition run {A} (m : M A) : (exn + A) * list event := m [].

Definition Qimg (h w : nat) (l : list (list Q)) : Tensor2 Q := of_rows 0%Q h w l.
Definition Zimg (h w : nat) (l : list (list Z)) : Tensor2 Z := of_rows 0%Z h w l.

Definition rows_of_run (r : (exn + Tensor2 Q) * list event) : exn + list (list Q) :=
  match fst r with
  | inl e => inl e
  | inr t => inr (to_rows t)
  end.

(** ** Concrete inputs *)

(** A one-row image, an image without rows (both [float32], row-major),
    the one-row image as a [float64] tensor, a zero row of five images, and
    a cavity with two copies on each side and reflectivity 1/2. *)
Definition img_1x2 : TensorArg Q := contiguous float32 (Qimg 1 2 [[1; 3]]%Q).
Definition img_0x2 : TensorArg Q := contiguous float32 (Qimg 0 2 []).
Definition img_f64 : TensorArg Q := contiguous float64 (Qimg 1 2 [[1; 3]]%Q).
Definition row_of_5 : Tensor3 Q := mkT3 1 5 2 (fun _ _ _ => 0%Q).
Definition cavity_half : Kaleidoscope Q :=
  mkKaleidoscope (0, 0, 2, 2)%Z (0, 0, 0, 0)%Z (1 # 2)%Q.

(** The configuration of the script at the end of the source file, and a
    single-channel 28 x 28 tensor as [ToTensor()] makes of an MNIST image. *)
Definition kale_main : Kaleidoscope Q :=
  mkKaleidoscope (1, 2, 1, 1)%Z (2, 2, 2, 2)%Z 1%Q.
Definition mnist_like : TensorN Q :=
  mkTN [1; 28; 28] (fun L => inject_Z (Z.of_nat L)).

(** Tensors of shape (1, 2), (0, 2) and (3,), and a configuration without
    padding or copies. *)
Definition tensor_1x2 : TensorN Q := mkTN [1; 2] (fun L => inject_Z (Z.of_nat L)).
Definition tensor_0x2 : TensorN Q := mkTN [0; 2] (fun L => inject_Z (Z.of_nat L)).
Definition tensor_3 : TensorN Q := mkTN [3] (fun L => inject_Z (Z.of_nat L)).
Definition kale_plain : Kaleidoscope Q :=
  mkKaleidoscope (0, 0, 0, 0)%Z (0, 0, 0, 0)%Z 1%Q.

(** The pixel map of the docstring of [KaleidoTransform] on a 2 x 3
    matrix, as a row-major [int64] tensor; the same entries as the
    transpose of a row-major tensor, and as a row-major [int32] tensor; a
    grid of blocks, one that names a row [matIn] does not have, one
    without columns and one that names row 1 everywhere; a configuration
    with one row and one column of padding. *)
Definition matIn_2x3 : Tensor2 Q := Qimg 2 3 [[1; 2; 3]; [4; 5; 6]]%Q.
Definition pxIdx_2x2 : TensorArg Z := contiguous int64 (Zimg 2 2 [[0; 1]; [1; 2]]%Z).
Definition pxIdx_t : TensorArg Z := transposed int64 (Zimg 2 2 [[0; 1]; [1; 2]]%Z).
Definition pxIdx_int : TensorArg Z := contiguous int32 (Zimg 2 2 [[0; 1]; [1; 2]]%Z).
Definition blkIdx_2x2 : Tensor2 Z := Zimg 2 2 [[0; 1]; [1; 0]]%Z.
Definition blkIdx_bad : Tensor2 Z := Zimg 2 2 [[0; 1]; [2; 0]]%Z.
Definition blkIdx_1x0 : Tensor2 Z := Zimg 1 0 [[]].
Definition blkIdx_ones : Tensor2 Z := Zimg 2 2 [[1; 1]; [1; 1]]%Z.
Definition kale_pad : Kaleidoscope Q :=
  mkKaleidoscope (0, 0, 0, 0)%Z (1, 0, 0, 1)%Z (1 # 2)%Q.

(** A configuration with a reflectivity outside (0, 1] and a negative
    repetition count, a 2 x 2 image, and a pixel map without pixels. *)
Definition kale_bright : Kaleidoscope Q :=
  mkKaleidoscope (0, 0, 2, -1)%Z (0, 0, 0, 0)%Z 2%Q.
Definition tensor_2x2 : TensorN Q := mkTN [2; 2] (fun L => inject_Z (Z.of_nat L)).
Definition pxIdx_0x0 : TensorArg Z := contiguous int64 (Zimg 0 0 []).

(** A pixel map and two grids with entries out of range or negative. *)
Definition pxIdx_bad : TensorArg Z := contiguous int64 (Zimg 2 2 [[0; 1]; [1; 3]]%Z).
Definition pxIdx_neg : TensorArg Z := contiguous int64 (Zimg 2 2 [[0; -1]; [1; -3]]%Z).
Definition blkIdx_low : Tensor2 Z := Zimg 2 2 [[0; 1]; [-3; 0]]%Z.
Definition blkIdx_neg : Tensor2 Z := Zimg 2 2 [[0; -1]; [-1; 0]]%Z.

(** ** Specifications of monadic computations *)

(** [spec m Q]: from any log, [m] ends in a result satisfying [Q] and only
    appends to the log. *)
Definition spec {A} (m : M A) (Q : exn + A -> Prop) : Prop :=
  forall log, exists r ext, m log = (r, log ++ ext) /\ Q r.

(** [m] returns a value satisfying [P] (it does not raise). *)
Definition returns {A} (m : M A) (P : A -> Prop) : Prop :=
  spec m (fun r => exists v, r = inr v /\ P v).

(** [m] raises [e]. *)
Definition raises {A} (m : M A) (e : exn) : Prop :=
  spec m (fun r => r = inl e).

(** [m] raises [e] or returns a value satisfying [P]. *)
Definition returns_or_raises {A} (m : M A) (e : exn) (P : A -> Prop) : Prop :=
  spec m (fun r => r = inl e \/ exists v, r = inr v /\ P v).

(** ** The monad *)

Lemma spec_ret {A} (a : A) (Q : exn + A -> Prop) : Q (inr a) -> spec (ret a) Q.
Proof. intros HQ log. exists (inr a), []. rewrite app_nil_r. split; [reflexivity | exact HQ]. Qed.

Lemma spec_raise {A} (e : exn) (Q : exn + A -> Prop) : Q (inl e) -> spec (raise e) Q.
Proof. intros HQ log. exists (inl e), []. rewrite app_nil_r. split; [reflexivity | exact HQ]. Qed.

Lemma spec_weaken {A} (m : M A) (Q1 Q2 : exn + A -> Prop) :
  spec m Q1 -> (forall r, Q1 r -> Q2 r) -> spec m Q2.
Proof.
  intros Hm Himp log. destruct (Hm log) as (r & ext & Hrun & HQ).
  exists r, ext. split; [exact Hrun | apply Himp, HQ].
Qed.

Lemma spec_bind {A B} (m : M A) (k : A -> M B) (Q1 : exn + A -> Prop)
    (Q2 : exn + B -> Prop) :
  spec m Q1 ->
  (forall e, Q1 (inl e) -> Q2 (inl e)) ->
  (forall v, Q1 (inr v) -> spec (k v) Q2) ->
  spec (bind m k) Q2.
Proof.
  intros Hm Herr Hk log. destruct (Hm log) as (r & ext & Hrun & HQ).
  unfold bind. rewrite Hrun. destruct r as [e | v].
  - exists (inl e), ext. split; [reflexivity | apply Herr, HQ].
  - destruct (Hk v HQ (log ++ ext)) as (r' & ext' & Hrun' & HQ').
    exists r', (ext ++ ext'). rewrite Hrun', app_assoc. split; [reflexivity | exact HQ'].
Qed.

Lemma spec_tell (e : event) (Q : exn + unit -> Prop) : Q (inr tt) -> spec (tell e) Q.
Proof. intros HQ log. exists (inr tt), [e]. split; [reflexivity | exact HQ]. Qed.

Lemma returns_tell (e : event) : returns (tell e) (fun _ => True).
Proof. apply spec_tell. exists tt. split; [reflexivity | exact I]. Qed.

Lemma returns_ret {A} (a : A) (P : A -> Prop) : P a -> returns (ret a) P.
Proof. intros HP. apply spec_ret. exists a. split; [reflexivity | exact HP]. Qed.

Lemma returns_bind {A B} (m : M A) (k : A -> M B) (P : A -> Prop) (Q : B -> Prop) :
  returns m P -> (forall v, P v -> returns (k v) Q) -> returns (bind m k) Q.
Proof.
  intros Hm Hk. eapply spec_bind; [exact Hm | |].
  - intros e (v & Hv & _). discriminate.
  - intros v (v' & Hv & HP). injection Hv as <-. apply Hk, HP.
Qed.

Lemma returns_weaken {A} (m : M A) (P Q : A -> Prop) :
  returns m P -> (forall v, P v -> Q v) -> returns m Q.
Proof.
  intros Hm Himp. eapply spec_weaken; [exact Hm |].
  intros r (v & -> & HP). exists v. split; [reflexivity | apply Himp, HP].
Qed.

Lemma raises_raise {A} (e : exn) : raises (@raise A e) e.
Proof. apply spec_raise. reflexivity. Qed.

Lemma raises_bind_l {A B} (m : M A) (k : A -> M B) (e : exn) :
  raises m e -> raises (bind m k) e.
Proof.
  intros Hm. eapply spec_bind; [exact Hm | |].
  - intros e' He. simpl in He. congruence.
  - intros v Hv. discriminate.
Qed.

Lemma raises_bind_r {A B} (m : M A) (k : A -> M B) (P : A -> Prop) (e : exn) :
  returns_or_raises m e P -> (forall v, P v -> raises (k v) e) -> raises (bind m k) e.
Proof.
  intros Hm Hk. eapply spec_bind; [exact Hm | |].
  - intros e' [He | (v & Hv & _)]; [congruence | discriminate].
  - intros v [Hv | (v' & Hv & HP)]; [discriminate |].
    injection Hv as <-. apply Hk, HP.
Qed.

Lemma returns_or_raises_bind {A B} (m : M A) (k : A -> M B) (e : exn)
    (P : A -> Prop) (Q : B -> Prop) :
  returns_or_raises m e P ->
  (forall v, P v -> returns_or_raises (k v) e Q) ->
  returns_or_raises (bind m k) e Q.
Proof.
  intros Hm Hk. eapply spec_bind; [exact Hm | |].
  - intros e' [He | (v & Hv & _)]; [left; congruence | discriminate].
  - intros v [Hv | (v' & Hv & HP)]; [discriminate |].
    injection Hv as <-. apply Hk, HP.
Qed.

Lemma returns_returns_or_raises {A} (m : M A) (e : exn) (P : A -> Prop) :
  returns m P -> returns_or_raises m e P.
Proof. intros Hm. eapply spec_weaken; [exact Hm |]. intros r Hr. right. exact Hr. Qed.

Lemma raises_returns_or_raises {A} (m : M A) (e : exn) (P : A -> Prop) :
  raises m e -> returns_or_raises m e P.
Proof. intros Hm. eapply spec_weaken; [exact Hm |]. intros r Hr. left. exact Hr. Qed.

(** Loops: if one iteration raises [e] whatever the state, and the others
    raise [e] or keep the invariant, the loop raises [e]. *)
Lemma foldM_raises {S B} (body : S -> B -> M S) (Inv : S -> Prop) (e : exn) (b0 : B) :
  forall (l : list B) (s : S),
    b0 ∈ l ->
    Inv s ->
    (forall s' b, b ∈ l -> Inv s' -> returns_or_raises (body s' b) e Inv) ->
    (forall s', Inv s' -> raises (body s' b0) e) ->
    raises (foldM body l s) e.
Proof.
  induction l as [| b l IH]; intros s Hin HInv Hstep Hbad.
  - inversion Hin.
  - simpl. apply elem_of_cons in Hin. destruct Hin as [<- | Hin].
    + apply raises_bind_l, Hbad, HInv.
    + eapply raises_bind_r.
      * apply Hstep; [left | exact HInv].
      * intros s' HInv'. apply IH; [exact Hin | exact HInv' | | exact Hbad].
        intros s'' b' Hin' HInv''. apply Hstep; [right; exact Hin' | exact HInv''].
Qed.

Lemma foldM_returns_or_raises {S B} (body : S -> B -> M S) (Inv : S -> Prop) (e : exn) :
  forall (l : list B) (s : S),
    Inv s ->
    (forall s' b, b ∈ l -> Inv s' -> returns_or_raises (body s' b) e Inv) ->
    returns_or_raises (foldM body l s) e Inv.
Proof.
  induction l as [| b l IH]; intros s HInv Hstep; simpl.
  - apply returns_returns_or_raises, returns_ret, HInv.
  - eapply returns_or_raises_bind.
    + apply Hstep; [left | exact HInv].
    + intros s' HInv'. apply IH; [exact HInv' |].
      intros s'' b' Hin HInv''. apply Hstep; [right; exact Hin | exact HInv''].
Qed.

(** ** Ranges and indices *)

Lemma range_len_up (n : nat) : range_len 0 (Z.of_nat n) 1 = n.
Proof.
  unfold range_len. simpl. destruct (0 <? Z.of_nat n)%Z eqn:E.
  - rewrite Z.div_1_r. lia.
  - apply Z.ltb_ge in E. lia.
Qed.

Lemma py_range_up (n : nat) : py_range 0 (Z.of_nat n) 1 = map Z.of_nat (seq 0 n).
Proof.
  unfold py_range. rewrite range_len_up. apply map_ext. intros k. lia.
Qed.

Lemma range_len_down (n : nat) : range_len (Z.of_nat n) 0 (-1) = n.
Proof.
  unfold range_len. simpl. destruct (0 <? Z.of_nat n)%Z eqn:E.
  - rewrite Z.div_1_r. lia.
  - apply Z.ltb_ge in E. lia.
Qed.

Lemma py_range_down (n : nat) :
  py_range (Z.of_nat n) 0 (-1) = map (fun k => (Z.of_nat n - Z.of_nat k)%Z) (seq 0 n).
Proof.
  unfold py_range. rewrite range_len_down. apply map_ext. intros k. lia.
Qed.

Lemma In_py_range_pos (s e st x : Z) :
  (0 < st)%Z ->
  In x (py_range s e st) <-> (s <= x < e)%Z /\ ((x - s) mod st = 0)%Z.
Proof.
  intros Hst. unfold py_range, range_len.
  destruct (0 <? st)%Z eqn:E; [| apply Z.ltb_ge in E; lia].
  rewrite in_map_iff. destruct (s <? e)%Z eqn:E2.
  - apply Z.ltb_lt in E2.
    assert (Hq : (0 <= (e - s - 1) / st)%Z) by (apply Z.div_pos; lia).
    split.
    + intros (k & <- & Hin). apply in_seq in Hin.
      assert (Hk : (Z.of_nat k <= (e - s - 1) / st)%Z) by lia.
      assert (Hm : (st * ((e - s - 1) / st) <= e - s - 1)%Z)
        by (apply Z.mul_div_le; lia).
      split; [nia |].
      replace (s + Z.of_nat k * st - s)%Z with (Z.of_nat k * st)%Z by lia.
      apply Z.mod_mul. lia.
    + intros [[H1 H2] H3].
      assert (Hx : (x - s = st * ((x - s) / st))%Z)
        by (apply Z.div_exact; [lia | exact H3]).
      assert (Hle : ((x - s) / st <= (e - s - 1) / st)%Z)
        by (apply Z.div_le_mono; lia).
      assert (H0 : (0 <= (x - s) / st)%Z) by (apply Z.div_pos; lia).
      exists (Z.to_nat ((x - s) / st)). split; [nia |].
      apply in_seq. lia.
  - apply Z.ltb_ge in E2. simpl. split; [intros (k & _ & []) | lia].
Qed.

Lemma In_py_range_neg (s e st x : Z) :
  (st < 0)%Z ->
  In x (py_range s e st) <-> (e < x <= s)%Z /\ ((s - x) mod (- st) = 0)%Z.
Proof.
  intros Hst. unfold py_range, range_len.
  destruct (0 <? st)%Z eqn:E; [apply Z.ltb_lt in E; lia |].
  destruct (st <? 0)%Z eqn:E'; [| apply Z.ltb_ge in E'; lia].
  rewrite in_map_iff. destruct (e <? s)%Z eqn:E2.
  - apply Z.ltb_lt in E2.
    assert (Hq : (0 <= (s - e - 1) / (- st))%Z) by (apply Z.div_pos; lia).
    split.
    + intros (k & <- & Hin). apply in_seq in Hin.
      assert (Hk : (Z.of_nat k <= (s - e - 1) / (- st))%Z) by lia.
      assert (Hm : ((- st) * ((s - e - 1) / (- st)) <= s - e - 1)%Z)
        by (apply Z.mul_div_le; lia).
      split; [nia |].
      replace (s - (s + Z.of_nat k * st))%Z with (Z.of_nat k * (- st))%Z by lia.
      apply Z.mod_mul. lia.
    + intros [[H1 H2] H3].
      assert (Hx : (s - x = (- st) * ((s - x) / (- st)))%Z)
        by (apply Z.div_exact; [lia | exact H3]).
      assert (Hle : ((s - x) / (- st) <= (s - e - 1) / (- st))%Z)
        by (apply Z.div_le_mono; lia).
      assert (H0 : (0 <= (s - x) / (- st))%Z) by (apply Z.div_pos; lia).
      exists (Z.to_nat ((s - x) / (- st))). split; [nia |].
      apply in_seq. lia.
  - apply Z.ltb_ge in E2. simpl. split; [intros (k & _ & []) | lia].
Qed.

Lemma norm_index_in_range (n : nat) (k : Z) :
  (0 <= k < Z.of_nat n)%Z -> norm_index n k = Some (Z.to_nat k).
Proof.
  intros Hk. unfold norm_index.
  destruct (0 <=? k)%Z eqn:E1; [| apply Z.leb_gt in E1; lia].
  destruct (k <? Z.of_nat n)%Z eqn:E2; [| apply Z.ltb_ge in E2; lia].
  reflexivity.
Qed.

Lemma norm_index_out_of_range (n : nat) (k : Z) :
  (Z.of_nat n <= k \/ k < - Z.of_nat n)%Z -> norm_index n k = None.
Proof.
  intros Hk. unfold norm_index.
  destruct (0 <=? k)%Z eqn:E1, (k <? Z.of_nat n)%Z eqn:E2,
    (- Z.of_nat n <=? k)%Z eqn:E3, (k <? 0)%Z eqn:E4; simpl; try reflexivity;
    repeat match goal with
      | E : (_ <=? _)%Z = true |- _ => apply Z.leb_le in E
      | E : (_ <=? _)%Z = false |- _ => apply Z.leb_gt in E
      | E : (_ <? _)%Z = true |- _ => apply Z.ltb_lt in E
      | E : (_ <? _)%Z = false |- _ => apply Z.ltb_ge in E
      end; lia.
Qed.

Lemma index_dim_returns (n : nat) (k : Z) :
  (0 <= k < Z.of_nat n)%Z -> returns (index_dim n k) (fun i => i = Z.to_nat k).
Proof.
  intros Hk. unfold index_dim. rewrite norm_index_in_range by exact Hk.
  apply returns_ret. reflexivity.
Qed.

Lemma index_dim_raises (n : nat) (k : Z) :
  (Z.of_nat n <= k \/ k < - Z.of_nat n)%Z -> raises (index_dim n k) IndexError.
Proof.
  intros Hk. unfold index_dim. rewrite norm_index_out_of_range by exact Hk.
  apply raises_raise.
Qed.

Lemma index_dim_returns_or_raises (n : nat) (k : Z) :
  returns_or_raises (index_dim n k) IndexError (fun _ => True).
Proof.
  unfold index_dim. destruct (norm_index n k).
  - apply returns_returns_or_raises, returns_ret. exact I.
  - apply raises_returns_or_raises, raises_raise.
Qed.

(** [for i in range(0, n)]. *)
Lemma for_range_returns {S} (body : S -> Z -> M S) (Inv : nat -> S -> Prop) :
  forall (n a : nat) (s : S),
    Inv a s ->
    (forall i s', a <= i < a + n -> Inv i s' ->
       returns (body s' (Z.of_nat i)) (Inv (Datatypes.S i))) ->
    returns (foldM body (map Z.of_nat (seq a n)) s) (Inv (a + n)).
Proof.
  induction n as [| n IH]; intros a s HInv Hstep; simpl.
  - rewrite Nat.add_0_r. apply returns_ret, HInv.
  - eapply returns_bind.
    + apply Hstep; [lia | exact HInv].
    + intros s' HInv'. replace (a + Datatypes.S n) with (Datatypes.S a + n) by lia.
      apply IH; [exact HInv' |]. intros i s'' Hi. apply Hstep. lia.
Qed.

Lemma lookup_map_seq {A} (f : nat -> A) (n i : nat) :
  i < n -> map f (seq 0 n) !! i = Some (f i).
Proof.
  intros Hi. change (map f (seq 0 n)) with (f <$> seq 0 n).
  rewrite list_lookup_fmap, lookup_seq_lt by exact Hi. reflexivity.
Qed.

Lemma Z_odd_mod2 (z : Z) : Z.odd z = true <-> (z mod 2 = 1)%Z.
Proof. rewrite Zmod_odd. destruct (Z.odd z); split; intros; (reflexivity || discriminate). Qed.

(** ** Tensor operations *)

Lemma flat3_decode {A} (t : Tensor3 A) (y p x : nat) :
  p < dim1 t -> x < dim2 t ->
  flat3 t (y * (dim1 t * dim2 t) + (p * dim2 t + x)) = at3 t y p x.
Proof.
  intros Hp Hx. unfold flat3.
  set (d1 := dim1 t) in *. set (d2 := dim2 t) in *.
  set (L := y * (d1 * d2) + (p * d2 + x)).
  assert (H0 : L / (d1 * d2) = y).
  { symmetry. apply (Nat.div_unique _ _ _ (p * d2 + x)); [nia | unfold L; lia]. }
  assert (H1 : L / d2 = y * d1 + p).
  { symmetry. apply (Nat.div_unique _ _ _ x); [lia | unfold L; lia]. }
  assert (H2 : (y * d1 + p) mod d1 = p).
  { symmetry. apply (Nat.mod_unique _ _ y); lia. }
  assert (H3 : L mod d2 = x).
  { symmetry. apply (Nat.mod_unique _ _ (y * d1 + p)); [lia | unfold L; lia]. }
  rewrite H0, H1, H2, H3. reflexivity.
Qed.

Lemma infer_size_mul (known c : nat) :
  0 < known -> infer_size (known * c) known = Some c.
Proof.
  intros Hk. unfold infer_size.
  assert (Hmod : (known * c) mod known = 0).
  { rewrite Nat.mul_comm. apply Nat.Div0.mod_mul. }
  assert (Hdiv : (known * c) / known = c).
  { rewrite Nat.mul_comm. apply Nat.div_mul. lia. }
  rewrite Hmod, Hdiv.
  destruct (0 <? known) eqn:E; [| apply Nat.ltb_ge in E; lia].
  rewrite Nat.eqb_refl. simpl. rewrite orb_true_r.
  destruct (known =? 0) eqn:E0; [apply Nat.eqb_eq in E0; lia | reflexivity].
Qed.

Lemma infer_size_zero (numel : nat) : infer_size numel 0 = None.
Proof. unfold infer_size. simpl. rewrite orb_false_r. destruct (numel =? 0); reflexivity. Qed.

Lemma view3_2_returns {A} (t : Tensor3 A) (h : nat) :
  dim0 t = h -> 0 < h ->
  returns (view3_2 t (Z.of_nat h))
    (fun o => rows o = h /\ cols o = dim1 t * dim2 t /\
              forall y p x, p < dim1 t -> x < dim2 t ->
                at2 o y (p * dim2 t + x) = at3 t y p x).
Proof.
  intros Hd Hh. unfold view3_2.
  destruct (Z.of_nat h <? 0)%Z eqn:E; [apply Z.ltb_lt in E; lia |].
  rewrite Nat2Z.id, Hd, <- Nat.mul_assoc, infer_size_mul by exact Hh.
  apply returns_ret. simpl. split; [reflexivity | split; [reflexivity |]].
  intros y p x Hp Hx. apply flat3_decode; assumption.
Qed.

Lemma view3_2_raises {A} (t : Tensor3 A) :
  raises (view3_2 t 0) RuntimeError.
Proof.
  unfold view3_2. simpl. rewrite infer_size_zero. apply raises_raise.
Qed.

Lemma mapM_norm_index (n : nat) (idx : list Z) :
  (forall p, In p idx -> (0 <= p < Z.of_nat n)%Z) ->
  mapM (norm_index n) idx = Some (map Z.to_nat idx).
Proof.
  induction idx as [| p idx IH]; intros Hin; simpl; [reflexivity |].
  rewrite norm_index_in_range by (apply Hin; left; reflexivity).
  simpl. rewrite IH by (intros q Hq; apply Hin; right; exact Hq).
  reflexivity.
Qed.

Lemma fold_left_tiles {A} (g : nat -> nat -> A) (y k x : nat) :
  forall (l : list (nat * nat)) (f0 : nat -> nat -> nat -> A),
    fold_left (fun f nk y k x => if k =? snd nk then g y x else f y k x) l f0 y k x
    = if existsb (fun nk => k =? snd nk) l then g y x else f0 y k x.
Proof.
  induction l as [| nk l IH]; intros f0; simpl; [reflexivity |].
  rewrite IH. destruct (k =? snd nk); simpl.
  - destruct (existsb _ l); reflexivity.
  - reflexivity.
Qed.

Lemma existsb_imap_pair (k : nat) (ks : list nat) :
  existsb (fun nk : nat * nat => k =? snd nk) (imap pair ks) = true <-> In k ks.
Proof.
  rewrite existsb_exists. split.
  - intros ([n k'] & Hin & Hk). apply list_elem_of_In, elem_of_lookup_imap in Hin.
    destruct Hin as (i & x & Heq & Hlk). injection Heq as Hn Hk'.
    simpl in Hk. apply Nat.eqb_eq in Hk. subst n k' x.
    apply list_elem_of_In. eapply list_elem_of_lookup_2. exact Hlk.
  - intros Hin. apply list_elem_of_In, list_elem_of_lookup in Hin.
    destruct Hin as (i & Hlk). exists (i, k). split.
    + apply list_elem_of_In. apply (elem_of_lookup_imap_2 pair ks k i Hlk).
    + simpl. apply Nat.eqb_refl.
Qed.

(** Writing one image at every position of [idx]. *)
Lemma index_put1_tiles {A} (t : Tensor3 A) (dt : dtype) (idx : list Z)
    (img : Tensor2 A) (n : nat) :
  (forall p, In p idx -> (0 <= p < Z.of_nat (dim1 t))%Z) ->
  returns (index_put1 t dt idx (repeat_interleave1 (unsqueeze1 img) n) dt)
    (fun t' => dim0 t' = dim0 t /\ dim1 t' = dim1 t /\ dim2 t' = dim2 t /\
               forall y k x,
                 (In (Z.of_nat k) idx -> at3 t' y k x = at2 img y x) /\
                 (~ In (Z.of_nat k) idx -> at3 t' y k x = at3 t y k x)).
Proof.
  intros Hin. unfold index_put1.
  rewrite bool_decide_eq_true_2 by reflexivity.
  rewrite mapM_norm_index by exact Hin.
  apply returns_ret. simpl. repeat (split; [reflexivity |]).
  intros y k x.
  rewrite (fold_left_tiles (at2 img) y k x).
  destruct (existsb _ _) eqn:E.
  - apply existsb_imap_pair in E. split; [reflexivity |].
    intros Hn. exfalso. apply Hn. apply in_map_iff in E.
    destruct E as (p & Hp & Hpin). specialize (Hin p Hpin).
    replace (Z.of_nat k) with p by lia. exact Hpin.
  - split; [| reflexivity]. intros Hk. exfalso.
    assert (Hex : existsb (fun nk : nat * nat => k =? snd nk)
                    (imap pair (map Z.to_nat idx)) = true).
    { apply existsb_imap_pair. apply in_map_iff. exists (Z.of_nat k).
      split; [lia | exact Hk]. }
    congruence.
Qed.

(** Line 100 on tensors of two dtypes. *)
Lemma index_put1_dtype {A} (t : Tensor3 A) (dt : dtype) (idx : list Z)
    (src : Tensor3 A) (dt' : dtype) :
  dt <> dt' -> raises (index_put1 t dt idx src dt') RuntimeError.
Proof.
  intros Hne. unfold index_put1. rewrite bool_decide_eq_false_2 by exact Hne.
  apply raises_raise.
Qed.

Lemma Z_odd_abs (z : Z) : Z.odd (Z.abs z) = Z.odd z.
Proof.
  destruct (Z.abs_eq_or_opp z) as [-> | ->]; [reflexivity | apply Z.odd_opp].
Qed.

(** ** ParaMirrorCavity *)

Section ParaMirrorCavityProofs.
Context {V : Type} `{Intensity V}.

Lemma torch_zeros3_returns (a b c : Z) :
  (0 <= a)%Z -> (0 <= b)%Z -> (0 <= c)%Z ->
  returns (torch_zeros3 a b c)
    (fun t => dim0 t = Z.to_nat a /\ dim1 t = Z.to_nat b /\ dim2 t = Z.to_nat c /\
              forall y k x, at3 t y k x = izero).
Proof.
  intros Ha Hb Hc. unfold torch_zeros3.
  destruct (a <? 0)%Z eqn:Ea; [apply Z.ltb_lt in Ea; lia |].
  destruct (b <? 0)%Z eqn:Eb; [apply Z.ltb_lt in Eb; lia |].
  destruct (c <? 0)%Z eqn:Ec; [apply Z.ltb_lt in Ec; lia |].
  simpl. eapply returns_bind.
  - apply returns_tell.
  - intros _ _. apply returns_ret. simpl. repeat split; reflexivity.
Qed.

Lemma torch_zeros2_returns (h w : Z) :
  (0 <= h)%Z -> (0 <= w)%Z ->
  returns (torch_zeros2 h w)
    (fun t => rows t = Z.to_nat h /\ cols t = Z.to_nat w /\
              forall y x, at2 t y x = izero).
Proof.
  intros Hh Hw. unfold torch_zeros2.
  destruct (h <? 0)%Z eqn:Eh; [apply Z.ltb_lt in Eh; lia |].
  destruct (w <? 0)%Z eqn:Ew; [apply Z.ltb_lt in Ew; lia |].
  simpl. eapply returns_bind.
  - apply returns_tell.
  - intros _ _. apply returns_ret. simpl. repeat split; reflexivity.
Qed.

(** The flipped positions are those at odd distance from [before]. *)
Lemma In_flipIdx (a b p : Z) :
  (0 <= a)%Z -> (0 <= b)%Z ->
  In p (flipIdx (a, b)) <-> (0 <= p < a + b + 1)%Z /\ Z.odd (p - a) = true.
Proof.
  intros Ha Hb. unfold flipIdx. simpl.
  rewrite in_app_iff, In_py_range_neg, In_py_range_pos by lia.
  rewrite Z_odd_mod2. change (- -2)%Z with 2%Z.
  split.
  - intros [[H1 H2] | [H1 H2]]; (split; [lia |]);
      revert H2; Z.div_mod_to_equations; lia.
  - intros [H1 H2]. destruct (Z_lt_le_dec p a) as [Hlt | Hge].
    + left. split; [lia |]. revert H2. Z.div_mod_to_equations. lia.
    + right. assert (p <> a).
      { intros ->. rewrite Z.sub_diag in H2. discriminate. }
      split; [lia |]. revert H2. Z.div_mod_to_equations. lia.
Qed.

Lemma In_keepIdx (a b p : Z) :
  (0 <= a)%Z -> (0 <= b)%Z ->
  In p (keepIdx (a, b)) <-> (0 <= p < a + b + 1)%Z /\ Z.odd (p - a) = false.
Proof.
  intros Ha Hb. unfold keepIdx.
  rewrite <- list_elem_of_In, elem_of_elements, elem_of_difference,
    !elem_of_list_to_set, !list_elem_of_In.
  rewrite In_flipIdx by assumption. simpl.
  rewrite In_py_range_pos by lia.
  rewrite Z.mod_1_r. destruct (Z.odd (p - a)); split.
  - intros [[H1 _] Hn]. exfalso. apply Hn. split; [lia | reflexivity].
  - intros [_ Hd]. discriminate.
  - intros [[H1 _] _]. split; [lia | reflexivity].
  - intros [H1 _]. split; [split; [lia | reflexivity] |]. intros [_ Hd]. discriminate.
Qed.

Lemma exponents_length (a b : Z) :
  (0 <= a)%Z -> (0 <= b)%Z ->
  length (py_range a 0 (-1) ++ py_range 0 (b + 1) 1) = Z.to_nat (a + b + 1).
Proof.
  intros Ha Hb. unfold py_range.
  rewrite length_app, !length_map, !length_seq.
  replace a with (Z.of_nat (Z.to_nat a)) at 1 by lia.
  replace (b + 1)%Z with (Z.of_nat (Z.to_nat (b + 1))) by lia.
  rewrite range_len_down, range_len_up. lia.
Qed.

Lemma exponents_lookup (a b : Z) (i : nat) :
  (0 <= a)%Z -> (0 <= b)%Z -> i < Z.to_nat (a + b + 1) ->
  (py_range a 0 (-1) ++ py_range 0 (b + 1) 1) !! i = Some (Z.abs (Z.of_nat i - a)).
Proof.
  intros Ha Hb Hi.
  replace (py_range a 0 (-1)) with (py_range (Z.of_nat (Z.to_nat a)) 0 (-1))
    by (f_equal; lia).
  replace (py_range 0 (b + 1) 1) with (py_range 0 (Z.of_nat (Z.to_nat (b + 1))) 1)
    by (f_equal; lia).
  rewrite py_range_down, py_range_up.
  destruct (lt_dec i (Z.to_nat a)) as [Hlt | Hge].
  - rewrite lookup_app_l by (rewrite length_map, length_seq; exact Hlt).
    rewrite lookup_map_seq by exact Hlt. f_equal. lia.
  - rewrite lookup_app_r by (rewrite length_map, length_seq; lia).
    rewrite length_map, length_seq, lookup_map_seq by lia. f_equal. lia.
Qed.

Lemma torch_arange_returns (start stop step : Z) :
  (0 < step /\ start <= stop \/ step < 0 /\ stop <= start)%Z ->
  returns (torch_arange start stop step) (fun l => l = py_range start stop step).
Proof.
  intros Hc. unfold torch_arange.
  destruct ((0 <? step) && (start <=? stop) || (step <? 0) && (stop <=? start))%Z eqn:E.
  - apply returns_ret. reflexivity.
  - exfalso. apply orb_false_elim in E. destruct E as [E1 E2].
    apply andb_false_iff in E1. apply andb_false_iff in E2.
    rewrite !Z.ltb_ge, !Z.leb_gt in *. lia.
Qed.

(** Line 93: position [i] is attenuated by the power [|i - before|]. *)
Lemma attenIdx_returns (a b : Z) :
  (0 <= a)%Z -> (0 <= b)%Z ->
  returns (attenIdx (a, b))
    (fun l => length l = Z.to_nat (a + b + 1) /\
              forall i, i < Z.to_nat (a + b + 1) ->
                l !! i = Some (Z.abs (Z.of_nat i - a))).
Proof.
  intros Ha Hb. unfold attenIdx. simpl.
  eapply returns_bind; [apply torch_arange_returns; lia |].
  intros towards ->.
  eapply returns_bind; [apply torch_arange_returns; lia |].
  intros away ->. apply returns_ret. split.
  - apply exponents_length; assumption.
  - intros i Hi. apply exponents_lookup; assumption.
Qed.

Lemma attenFactor_returns (self : Kaleidoscope V) (a b : Z) :
  (0 <= a)%Z -> (0 <= b)%Z ->
  returns (attenFactor self (a, b))
    (fun l => length l = Z.to_nat (a + b + 1) /\
              forall i, i < Z.to_nat (a + b + 1) ->
                l !! i = Some (ipow (reflectivity self) (Z.abs (Z.of_nat i - a)))).
Proof.
  intros Ha Hb. unfold attenFactor.
  eapply returns_bind; [apply attenIdx_returns; assumption |].
  intros l [Hlen Hl]. apply returns_ret. split.
  - rewrite length_map. exact Hlen.
  - intros i Hi.
    change (map (ipow (reflectivity self)) l) with (ipow (reflectivity self) <$> l).
    rewrite list_lookup_fmap, Hl by exact Hi. reflexivity.
Qed.

Lemma list_getitem_returns {A} (l : list A) (i : nat) (v : A) :
  l !! i = Some v -> returns (list_getitem l (Z.of_nat i)) (fun f => f = v).
Proof.
  intros Hl. unfold list_getitem.
  eapply returns_bind.
  - apply index_dim_returns. pose proof (lookup_lt_Some _ _ _ Hl). lia.
  - intros k ->. rewrite Nat2Z.id, Hl. apply returns_ret. reflexivity.
Qed.

(** Lines 97-103. *)
Lemma placeTiles_returns (im : TensorArg V) (a b : Z) (t0 : Tensor3 V) :
  arg_dtype im = float32 ->
  (0 <= a)%Z -> (0 <= b)%Z -> dim1 t0 = Z.to_nat (a + b + 1) ->
  returns (placeTiles im (a, b) t0)
    (fun t => dim0 t = dim0 t0 /\ dim1 t = dim1 t0 /\ dim2 t = dim2 t0 /\
              forall y p x, p < Z.to_nat (a + b + 1) ->
                at3 t y p x
                = if Z.odd (Z.of_nat p - a) then at2 im y (cols im - 1 - x)
                  else at2 im y x).
Proof.
  intros Hdt Ha Hb Hd1. unfold placeTiles. rewrite Hdt. simpl.
  eapply returns_bind.
  { apply index_put1_tiles. intros p Hp. apply In_flipIdx in Hp; lia. }
  intros t1 (Hd0' & Hd1' & Hd2' & Hat1).
  eapply returns_weaken.
  { apply index_put1_tiles. intros p Hp. apply In_keepIdx in Hp; lia. }
  intros t2 (Hd0'' & Hd1'' & Hd2'' & Hat2).
  rewrite Hd0'', Hd0', Hd1'', Hd1', Hd2'', Hd2'.
  repeat (split; [reflexivity |]).
  intros y p x Hp. destruct (Hat2 y p x) as [Hkeep Hnot].
  destruct (Z.odd (Z.of_nat p - a)) eqn:Eodd.
  - rewrite Hnot.
    + apply (Hat1 y p x). apply In_flipIdx; [assumption .. |]. split; [lia | exact Eodd].
    + intros Hin. apply In_keepIdx in Hin; [| assumption ..].
      destruct Hin as [_ Hin]. congruence.
  - apply Hkeep. apply In_keepIdx; [assumption .. |]. split; [lia | exact Eodd].
Qed.

(** Lines 106-107. *)
Lemma attenuate_returns (attenFactor : list V) (f : nat -> V) (a b : Z) (t : Tensor3 V) :
  (0 <= a)%Z -> (0 <= b)%Z -> dim1 t = Z.to_nat (a + b + 1) ->
  (forall i, i < Z.to_nat (a + b + 1) -> attenFactor !! i = Some (f i)) ->
  returns (attenuate attenFactor (a, b) t)
    (fun t' => dim0 t' = dim0 t /\ dim1 t' = dim1 t /\ dim2 t' = dim2 t /\
               forall y p x, p < Z.to_nat (a + b + 1) ->
                 at3 t' y p x = imul (at3 t y p x) (f p)).
Proof.
  intros Ha Hb Hd1 Hf. unfold attenuate. simpl.
  replace (a + b + 1)%Z with (Z.of_nat (Z.to_nat (a + b + 1))) at 1 by lia.
  rewrite py_range_up.
  set (T := Z.to_nat (a + b + 1)) in *.
  eapply returns_weaken.
  - apply (for_range_returns _
             (fun i t' => dim0 t' = dim0 t /\ dim1 t' = dim1 t /\ dim2 t' = dim2 t /\
                forall y p x,
                  at3 t' y p x
                  = if p <? i then imul (at3 t y p x) (f p) else at3 t y p x) T 0 t).
    + repeat (split; [reflexivity |]). intros y p x. reflexivity.
    + intros i t' Hi (H0 & H1 & H2 & Hat).
      eapply returns_bind; [apply index_dim_returns; lia |].
      intros k ->. rewrite Nat2Z.id.
      eapply returns_bind; [apply (list_getitem_returns _ _ (f i)), Hf; lia |].
      intros fi ->. apply returns_ret. simpl.
      repeat (split; [assumption |]).
      intros y p x. rewrite Hat.
      destruct (p =? i) eqn:Epi.
      * apply Nat.eqb_eq in Epi. subst p.
        rewrite (proj2 (Nat.ltb_ge i i)) by lia.
        rewrite (proj2 (Nat.ltb_lt i (S i))) by lia. reflexivity.
      * apply Nat.eqb_neq in Epi.
        destruct (p <? i) eqn:Elt.
        -- apply Nat.ltb_lt in Elt. rewrite (proj2 (Nat.ltb_lt p (S i))) by lia.
           reflexivity.
        -- apply Nat.ltb_ge in Elt. rewrite (proj2 (Nat.ltb_ge p (S i))) by lia.
           reflexivity.
  - simpl. intros t' (H0 & H1 & H2 & Hat).
    repeat (split; [assumption |]).
    intros y p x Hp. rewrite Hat, (proj2 (Nat.ltb_lt p T)) by exact Hp. reflexivity.
Qed.

(** Lines 84-107: the row of images before it is reshaped. *)
Lemma ParaMirrorCavity_tiles (self : Kaleidoscope V) (im : TensorArg V) (a b : Z)
    (k : Tensor3 V -> M (Tensor2 V)) (P : Tensor2 V -> Prop) :
  arg_dtype im = float32 ->
  (0 <= a)%Z -> (0 <= b)%Z ->
  (forall t,
     dim0 t = rows im -> dim1 t = Z.to_nat (a + b + 1) -> dim2 t = cols im ->
     (forall y p x, p < Z.to_nat (a + b + 1) ->
        at3 t y p x
        = imul (if Z.odd (Z.of_nat p - a) then at2 im y (cols im - 1 - x)
                else at2 im y x)
            (ipow (reflectivity self) (Z.abs (Z.of_nat p - a)))) ->
     returns (k t) P) ->
  returns
    (imageRow <- torch_zeros3 (Z.of_nat (rows im)) (a + b + 1) (Z.of_nat (cols im)) ;;
     attenFactor <- attenFactor self (a, b) ;;
     imageRow <- placeTiles im (a, b) imageRow ;;
     imageRow <- attenuate attenFactor (a, b) imageRow ;;
     k imageRow) P.
Proof.
  intros Hdt Ha Hb Hk.
  eapply returns_bind; [apply torch_zeros3_returns; lia |].
  intros t0 (Hz0 & Hz1 & Hz2 & _). rewrite Nat2Z.id in Hz0, Hz2.
  eapply returns_bind; [apply attenFactor_returns; assumption |].
  intros factors [_ Hf].
  eapply returns_bind; [apply placeTiles_returns; assumption |].
  intros t (Hd0 & Hd1 & Hd2 & Hat).
  eapply returns_bind.
  { apply (attenuate_returns factors
             (fun i => ipow (reflectivity self) (Z.abs (Z.of_nat i - a))));
      try assumption. congruence. }
  intros t' (Hd0' & Hd1' & Hd2' & Hat').
  apply Hk; try congruence.
  intros y p x Hp. rewrite Hat', Hat by exact Hp. reflexivity.
Qed.

(** The whole function on an image with at least one row. *)
Lemma ParaMirrorCavity_returns (self : Kaleidoscope V) (im : TensorArg V) (a b : Z) :
  arg_dtype im = float32 ->
  (0 <= a)%Z -> (0 <= b)%Z -> 0 < rows im ->
  returns (ParaMirrorCavity self im (a, b))
    (fun out => rows out = rows im /\
                cols out = Z.to_nat (a + b + 1) * cols im /\
                forall y p x, p < Z.to_nat (a + b + 1) -> x < cols im ->
                  at2 out y (p * cols im + x)
                  = imul (if Z.odd (Z.of_nat p - a) then at2 im y (cols im - 1 - x)
                          else at2 im y x)
                      (ipow (reflectivity self) (Z.abs (Z.of_nat p - a)))).
Proof.
  intros Hdt Ha Hb Hh. unfold ParaMirrorCavity. simpl.
  apply ParaMirrorCavity_tiles; [assumption .. |].
  intros t Hd0 Hd1 Hd2 Hat.
  eapply returns_weaken.
  - apply view3_2_returns; [exact Hd0 | exact Hh].
  - simpl. intros out (Hr & Hc & Hout).
    rewrite Hd1, Hd2 in Hc, Hout.
    split; [exact Hr | split; [exact Hc |]].
    intros y p x Hp Hx. rewrite Hout, Hat by assumption. reflexivity.
Qed.

(** An image of another dtype than [float32]: line 100 raises. *)
Lemma placeTiles_dtype (im : TensorArg V) (num_reps : Z * Z) (t0 : Tensor3 V) :
  arg_dtype im <> float32 -> raises (placeTiles im num_reps t0) RuntimeError.
Proof.
  intros Hne. unfold placeTiles. apply raises_bind_l, index_put1_dtype. congruence.
Qed.

Lemma ParaMirrorCavity_dtype (self : Kaleidoscope V) (im : TensorArg V) (a b : Z) :
  (0 <= a)%Z -> (0 <= b)%Z -> arg_dtype im <> float32 ->
  raises (ParaMirrorCavity self im (a, b)) RuntimeError.
Proof.
  intros Ha Hb Hne. unfold ParaMirrorCavity. simpl.
  eapply raises_bind_r.
  { apply returns_returns_or_raises, torch_zeros3_returns; lia. }
  intros t0 _.
  eapply raises_bind_r.
  { apply returns_returns_or_raises, attenFactor_returns; assumption. }
  intros factors _.
  apply raises_bind_l, placeTiles_dtype, Hne.
Qed.

(** An image without rows: line 110 raises, unless line 100 did. *)
Lemma ParaMirrorCavity_no_rows (self : Kaleidoscope V) (im : TensorArg V) (a b : Z) :
  (0 <= a)%Z -> (0 <= b)%Z -> rows im = 0 ->
  raises (ParaMirrorCavity self im (a, b)) RuntimeError.
Proof.
  intros Ha Hb Hh.
  destruct (decide (arg_dtype im = float32)) as [Hdt | Hdt];
    [| apply ParaMirrorCavity_dtype; assumption].
  unfold ParaMirrorCavity. simpl.
  eapply raises_bind_r.
  { apply returns_returns_or_raises, torch_zeros3_returns; lia. }
  intros t0 (Hz0 & Hz1 & Hz2 & _).
  eapply raises_bind_r.
  { apply returns_returns_or_raises, attenFactor_returns; assumption. }
  intros factors [_ Hf].
  eapply raises_bind_r.
  { apply returns_returns_or_raises, placeTiles_returns; assumption. }
  intros t (Hd0 & Hd1 & Hd2 & _).
  eapply raises_bind_r.
  { apply returns_returns_or_raises.
    apply (attenuate_returns factors
             (fun i => ipow (reflectivity self) (Z.abs (Z.of_nat i - a))));
      try assumption. congruence. }
  intros t' _. rewrite Hh. apply view3_2_raises.
Qed.
End ParaMirrorCavityProofs.

(** ** Slices *)

Lemma slice_bound_in_range (n : nat) (b : Z) :
  (0 <= b <= Z.of_nat n)%Z -> slice_bound n b = Z.to_nat b.
Proof.
  intros Hb. unfold slice_bound.
  destruct (b <? 0)%Z eqn:E; [apply Z.ltb_lt in E; lia |]. lia.
Qed.

Lemma bcast_pos_window (s d : nat) : d < s -> bcast_pos s d = d.
Proof. intros Hd. unfold bcast_pos. destruct (Nat.eqb_spec s 1); lia. Qed.

Lemma slice_assign2_returns {A} (t src : Tensor2 A) (r0 r1 c0 c1 : Z) :
  (0 <= r0)%Z -> (r1 = r0 + Z.of_nat (rows src))%Z -> (r1 <= Z.of_nat (rows t))%Z ->
  (0 <= c0)%Z -> (c1 = c0 + Z.of_nat (cols src))%Z -> (c1 <= Z.of_nat (cols t))%Z ->
  returns (slice_assign2 t r0 r1 c0 c1 src)
    (fun t' => rows t' = rows t /\ cols t' = cols t /\
       forall y x,
         at2 t' y x
         = if (Z.to_nat r0 <=? y) && (y <? Z.to_nat r0 + rows src)
              && (Z.to_nat c0 <=? x) && (x <? Z.to_nat c0 + cols src)
           then at2 src (y - Z.to_nat r0) (x - Z.to_nat c0)
           else at2 t y x).
Proof.
  intros Hr0 -> Hr1 Hc0 -> Hc1. unfold slice_assign2.
  rewrite !slice_bound_in_range by lia.
  replace (Z.to_nat (r0 + Z.of_nat (rows src))) with (Z.to_nat r0 + rows src) by lia.
  replace (Z.to_nat (c0 + Z.of_nat (cols src))) with (Z.to_nat c0 + cols src) by lia.
  replace (Z.to_nat r0 + rows src - Z.to_nat r0) with (rows src) by lia.
  replace (Z.to_nat c0 + cols src - Z.to_nat c0) with (cols src) by lia.
  unfold broadcastable. rewrite !Nat.eqb_refl. simpl.
  apply returns_ret. simpl. split; [reflexivity | split; [reflexivity |]].
  intros y x.
  destruct ((Z.to_nat r0 <=? y) && (y <? Z.to_nat r0 + rows src)
            && (Z.to_nat c0 <=? x) && (x <? Z.to_nat c0 + cols src)) eqn:E;
    [| reflexivity].
  apply andb_prop in E. destruct E as [E E4]. apply andb_prop in E. destruct E as [E E3].
  apply andb_prop in E. destruct E as [E1 E2].
  apply Nat.leb_le in E1, E3. apply Nat.ltb_lt in E2, E4.
  rewrite !bcast_pos_window by lia. reflexivity.
Qed.

Lemma slice_assign3_returns {A} (t : Tensor3 A) (src : Tensor2 A) (r0 r1 c0 c1 : Z)
    (j : nat) :
  (0 <= r0)%Z -> (r1 = r0 + Z.of_nat (rows src))%Z -> (r1 <= Z.of_nat (dim0 t))%Z ->
  (0 <= c0)%Z -> (c1 = c0 + Z.of_nat (cols src))%Z -> (c1 <= Z.of_nat (dim2 t))%Z ->
  j < dim1 t ->
  returns (slice_assign3 t r0 r1 (Z.of_nat j) c0 c1 src)
    (fun t' => dim0 t' = dim0 t /\ dim1 t' = dim1 t /\ dim2 t' = dim2 t /\
       forall y k x,
         at3 t' y k x
         = if (k =? j) && (Z.to_nat r0 <=? y) && (y <? Z.to_nat r0 + rows src)
              && (Z.to_nat c0 <=? x) && (x <? Z.to_nat c0 + cols src)
           then at2 src (y - Z.to_nat r0) (x - Z.to_nat c0)
           else at3 t y k x).
Proof.
  intros Hr0 -> Hr1 Hc0 -> Hc1 Hj. unfold slice_assign3.
  eapply returns_bind; [apply index_dim_returns; lia |].
  intros jj ->. rewrite Nat2Z.id.
  rewrite !slice_bound_in_range by lia.
  replace (Z.to_nat (r0 + Z.of_nat (rows src))) with (Z.to_nat r0 + rows src) by lia.
  replace (Z.to_nat (c0 + Z.of_nat (cols src))) with (Z.to_nat c0 + cols src) by lia.
  replace (Z.to_nat r0 + rows src - Z.to_nat r0) with (rows src) by lia.
  replace (Z.to_nat c0 + cols src - Z.to_nat c0) with (cols src) by lia.
  unfold broadcastable. rewrite !Nat.eqb_refl. simpl.
  apply returns_ret. simpl. repeat (split; [reflexivity |]).
  intros y k x.
  destruct ((k =? j) && (Z.to_nat r0 <=? y) && (y <? Z.to_nat r0 + rows src)
            && (Z.to_nat c0 <=? x) && (x <? Z.to_nat c0 + cols src)) eqn:E;
    [| reflexivity].
  apply andb_prop in E. destruct E as [E E4]. apply andb_prop in E. destruct E as [E E3].
  apply andb_prop in E. destruct E as [E E2]. apply andb_prop in E. destruct E as [E0 E1].
  apply Nat.leb_le in E1, E3. apply Nat.ltb_lt in E2, E4.
  rewrite !bcast_pos_window by lia. reflexivity.
Qed.

(** ** KaleidoExpan *)

Section KaleidoExpanProofs.
Context {V : Type} `{Intensity V}.

Lemma unpack2_returns (t : TensorN V) (h w : nat) :
  shape t = [h; w] ->
  returns (unpack2 t) (fun im => rows im = h /\ cols im = w).
Proof.
  intros Hs. unfold unpack2. rewrite Hs. apply returns_ret. simpl. split; reflexivity.
Qed.

Lemma unpack2_raises (t : TensorN V) :
  length (shape t) <> 2 -> raises (unpack2 t) ValueError.
Proof.
  intros Hs. unfold unpack2.
  destruct (shape t) as [| h [| w [| d l]]]; simpl in Hs;
    try apply raises_raise. congruence.
Qed.

(** The shape of the expansion of a non-empty padded image. *)
Lemma KaleidoExpan_shape (self : Kaleidoscope V) (t : TensorN V) (h w : nat) :
  shape (squeeze t) = [h; w] ->
  (0 <= item0 (padding self))%Z -> (0 <= item1 (padding self))%Z ->
  (0 <= item2 (padding self))%Z -> (0 <= item3 (padding self))%Z ->
  (0 <= item0 (repNums self))%Z -> (0 <= item1 (repNums self))%Z ->
  (0 <= item2 (repNums self))%Z -> (0 <= item3 (repNums self))%Z ->
  (0 < Z.of_nat h + item0 (padding self) + item1 (padding self))%Z ->
  (0 < Z.of_nat w + item2 (padding self) + item3 (padding self))%Z ->
  returns (KaleidoExpan self t)
    (fun out =>
       Z.of_nat (rows out)
       = ((Z.of_nat h + item0 (padding self) + item1 (padding self))
          * (item0 (repNums self) + item1 (repNums self) + 1))%Z /\
       Z.of_nat (cols out)
       = ((Z.of_nat w + item2 (padding self) + item3 (padding self))
          * (item2 (repNums self) + item3 (repNums self) + 1))%Z).
Proof.
  intros Hs Hp0 Hp1 Hp2 Hp3 Hr0 Hr1 Hr2 Hr3 Hh Hw. unfold KaleidoExpan.
  eapply returns_bind; [apply (unpack2_returns _ h w Hs) |].
  intros im [Hrows Hcols]. rewrite Hrows, Hcols.
  eapply returns_bind; [apply torch_zeros2_returns; lia |].
  intros z (Hzr & Hzc & _).
  eapply returns_bind.
  { apply slice_assign2_returns; rewrite ?Hrows, ?Hcols, ?Hzr, ?Hzc; lia. }
  intros padded (Hpr & Hpc & _).
  eapply returns_bind.
  { apply ParaMirrorCavity_returns; [reflexivity | assumption .. |]. simpl.
    rewrite Hpr, Hzr. lia. }
  intros rowMirror (Hmr & Hmc & _). simpl in Hmr, Hmc.
  eapply returns_bind.
  { apply ParaMirrorCavity_returns; [reflexivity | assumption .. |]. simpl.
    rewrite Hmc, Hpc, Hzc. nia. }
  intros fullMirror (Hfr & Hfc & _).
  apply returns_ret. simpl in *.
  rewrite Hfc, Hfr, Hmr, Hmc, Hpr, Hpc, Hzr, Hzc. split; nia.
Qed.
End KaleidoExpanProofs.

(** ** KaleidoTransform *)

Lemma flat2_decode {A} (t : Tensor2 A) (y x : nat) :
  x < cols t -> flat2 t (y * cols t + x) = at2 t y x.
Proof.
  intros Hx. unfold flat2.
  assert (H0 : (y * cols t + x) / cols t = y).
  { symmetry. apply (Nat.div_unique _ _ _ x); lia. }
  assert (H1 : (y * cols t + x) mod cols t = x).
  { symmetry. apply (Nat.mod_unique _ _ y); lia. }
  rewrite H0, H1. reflexivity.
Qed.

Lemma getrow_returns {A} (m : Tensor2 A) (k : Z) :
  (0 <= k < Z.of_nat (rows m))%Z ->
  returns (getrow m k)
    (fun row => len1 row = cols m /\ forall x, at1 row x = at2 m (Z.to_nat k) x).
Proof.
  intros Hk. unfold getrow.
  eapply returns_bind; [apply index_dim_returns; exact Hk |].
  intros r ->. apply returns_ret. simpl. split; reflexivity.
Qed.

Lemma getrow_raises {A} (m : Tensor2 A) (k : Z) :
  (Z.of_nat (rows m) <= k)%Z -> raises (getrow m k) IndexError.
Proof.
  intros Hk. unfold getrow. apply raises_bind_l, index_dim_raises. left. exact Hk.
Qed.

Lemma getrow_returns_or_raises {A} (m : Tensor2 A) (k : Z) :
  returns_or_raises (getrow m k) IndexError (fun _ => True).
Proof.
  unfold getrow. eapply returns_or_raises_bind; [apply index_dim_returns_or_raises |].
  intros r _. apply returns_returns_or_raises, returns_ret. exact I.
Qed.

Lemma view_flat_returns {A} (t : TensorArg A) :
  flattens t = true -> returns (view_flat t) (fun l => l = flat_view t).
Proof. intros Hf. unfold view_flat. rewrite Hf. apply returns_ret. reflexivity. Qed.

Lemma view_flat_raises {A} (t : TensorArg A) :
  flattens t = false -> raises (view_flat t) RuntimeError.
Proof. intros Hf. unfold view_flat. rewrite Hf. apply raises_raise. Qed.

(** A pixel map without pixels can always be flattened. *)
Lemma flattens_empty {A} (t : TensorArg A) :
  rows t = 0 \/ cols t = 0 -> flattens t = true.
Proof.
  intros Hz. unfold flattens.
  rewrite (proj2 (Nat.eqb_eq (rows t * cols t) 0)) by nia. reflexivity.
Qed.

Lemma flattens_contiguous {A} (dt : dtype) (t : Tensor2 A) :
  flattens (contiguous dt t) = true.
Proof.
  unfold flattens. simpl. rewrite Nat.mul_1_r, Nat.eqb_refl.
  rewrite !orb_true_r. reflexivity.
Qed.

Lemma take_dtype {A} (src : Tensor1 A) (dt : dtype) (idx : Tensor1 Z) :
  dt <> int64 -> raises (take src dt idx) RuntimeError.
Proof.
  intros Hne. unfold take. rewrite bool_decide_eq_false_2 by exact Hne.
  apply raises_raise.
Qed.

Lemma take_returns {A} (src : Tensor1 A) (idx : Tensor2 Z) :
  in_range idx (len1 src) ->
  returns (take src int64 (flat_view idx))
    (fun l => forall y x, y < rows idx -> x < cols idx ->
                at1 l (y * cols idx + x) = at1 src (Z.to_nat (at2 idx y x))).
Proof.
  intros Hin. unfold take. rewrite bool_decide_eq_true_2 by reflexivity.
  assert (Hall : forallb
            (fun L => bool_decide (is_Some (norm_index (len1 src) (at1 (flat_view idx) L))))
            (seq 0 (len1 (flat_view idx))) = true).
  { apply forallb_forall. intros L HL. apply in_seq in HL. simpl in HL.
    apply bool_decide_eq_true. simpl. unfold flat2.
    assert (Hc : 0 < cols idx) by nia.
    rewrite norm_index_in_range; [eexists; reflexivity |].
    apply Hin.
    - apply Nat.Div0.div_lt_upper_bound. lia.
    - apply Nat.mod_upper_bound. lia. }
  rewrite Hall. apply returns_ret. simpl.
  intros y x Hy Hx. rewrite flat2_decode by exact Hx.
  rewrite norm_index_in_range by (apply Hin; assumption). reflexivity.
Qed.

Lemma take_returns_or_raises {A} (src : Tensor1 A) (idx : Tensor1 Z) :
  returns_or_raises (take src int64 idx) IndexError (fun l => len1 l = len1 idx).
Proof.
  unfold take. rewrite bool_decide_eq_true_2 by reflexivity.
  destruct (forallb _ _).
  - apply returns_returns_or_raises, returns_ret. reflexivity.
  - apply raises_returns_or_raises, raises_raise.
Qed.

Lemma gatherBlock_returns {A} (matIn : Tensor2 A) (pxIdx : TensorArg Z) (k : Z) :
  flat_long pxIdx ->
  in_range pxIdx (cols matIn) -> (0 <= k < Z.of_nat (rows matIn))%Z ->
  returns (gatherBlock matIn pxIdx k)
    (fun blk => rows blk = rows pxIdx /\ cols blk = cols pxIdx /\
       forall y x, y < rows pxIdx -> x < cols pxIdx ->
         at2 blk y x = at2 matIn (Z.to_nat k) (Z.to_nat (at2 pxIdx y x))).
Proof.
  intros [Hflat Hlong] Hpx Hk. unfold gatherBlock. rewrite Hlong.
  eapply returns_bind; [apply view_flat_returns, Hflat |].
  intros linIdx ->.
  eapply returns_bind; [apply getrow_returns; exact Hk |].
  intros row [Hlen Hrow].
  eapply returns_bind; [apply take_returns; rewrite Hlen; exact Hpx |].
  intros l Hl. apply returns_ret. simpl.
  split; [reflexivity | split; [reflexivity |]].
  intros y x Hy Hx. rewrite Hl, Hrow by assumption. reflexivity.
Qed.

Lemma gatherBlock_returns_or_raises {A} (matIn : Tensor2 A) (pxIdx : TensorArg Z) (k : Z) :
  flat_long pxIdx ->
  returns_or_raises (gatherBlock matIn pxIdx k) IndexError
    (fun blk => rows blk = rows pxIdx /\ cols blk = cols pxIdx).
Proof.
  intros [Hflat Hlong]. unfold gatherBlock. rewrite Hlong.
  eapply returns_or_raises_bind;
    [apply returns_returns_or_raises, view_flat_returns, Hflat |].
  intros linIdx _.
  eapply returns_or_raises_bind; [apply getrow_returns_or_raises |].
  intros row _.
  eapply returns_or_raises_bind; [apply take_returns_or_raises |].
  intros l _. apply returns_returns_or_raises, returns_ret. simpl. split; reflexivity.
Qed.

Lemma gatherBlock_raises {A} (matIn : Tensor2 A) (pxIdx : TensorArg Z) (k : Z) :
  flattens pxIdx = true ->
  (Z.of_nat (rows matIn) <= k)%Z -> raises (gatherBlock matIn pxIdx k) IndexError.
Proof.
  intros Hflat Hk. unfold gatherBlock.
  eapply raises_bind_r;
    [apply returns_returns_or_raises, view_flat_returns, Hflat |].
  intros linIdx _. apply raises_bind_l, getrow_raises, Hk.
Qed.

(** Line 161 on a pixel map that cannot be flattened. *)
Lemma gatherBlock_strides {A} (matIn : Tensor2 A) (pxIdx : TensorArg Z) (k : Z) :
  flattens pxIdx = false -> raises (gatherBlock matIn pxIdx k) RuntimeError.
Proof.
  intros Hflat. unfold gatherBlock. apply raises_bind_l, view_flat_raises, Hflat.
Qed.

Lemma agree2_flip0 {A} (a b : Tensor2 A) : agree2 a b -> agree2 (flip0 a) (flip0 b).
Proof.
  intros (Hr & Hc & Hat). split; [exact Hr | split; [exact Hc |]].
  simpl. intros y x Hy Hx. rewrite <- Hr. apply Hat; lia.
Qed.

Lemma agree2_flip1 {A} (a b : Tensor2 A) : agree2 a b -> agree2 (flip1 a) (flip1 b).
Proof.
  intros (Hr & Hc & Hat). split; [exact Hr | split; [exact Hc |]].
  simpl. intros y x Hy Hx. rewrite <- Hc. apply Hat; lia.
Qed.

Section KaleidoTransformProofs.
Context {V : Type} `{Intensity V}.

Lemma agree2_scale2 (a b : Tensor2 V) (f : V) :
  agree2 a b -> agree2 (scale2 a f) (scale2 b f).
Proof.
  intros (Hr & Hc & Hat). split; [exact Hr | split; [exact Hc |]].
  simpl. intros y x Hy Hx. rewrite Hat by assumption. reflexivity.
Qed.

Lemma agree2_reflectBlock (self : Kaleidoscope V) (centerBlk : list Z) (i j : Z)
    (a b : Tensor2 V) :
  agree2 a b -> agree2 (reflectBlock self centerBlk i j a) (reflectBlock self centerBlk i j b).
Proof.
  intros Hab. unfold reflectBlock.
  destruct centerBlk as [| c0 [| c1 [| c2 l]]]; try exact Hab.
  apply agree2_scale2.
  destruct ((i - c0) mod 2 =? 1)%Z, ((j - c1) mod 2 =? 1)%Z;
    repeat first [apply agree2_flip1 | apply agree2_flip0]; exact Hab.
Qed.

Lemma reflectBlock_shape (self : Kaleidoscope V) (centerBlk : list Z) (i j : Z)
    (a : Tensor2 V) :
  rows (reflectBlock self centerBlk i j a) = rows a /\
  cols (reflectBlock self centerBlk i j a) = cols a.
Proof.
  unfold reflectBlock.
  destruct centerBlk as [| c0 [| c1 [| c2 l]]]; try (split; reflexivity).
  destruct ((i - c0) mod 2 =? 1)%Z, ((j - c1) mod 2 =? 1)%Z; split; reflexivity.
Qed.

Lemma gatherBlock_unitBlock (matIn : Tensor2 V) (pxIdx : TensorArg Z)
    (blkIdx : Tensor2 Z) (i j : nat) :
  flat_long pxIdx ->
  in_range pxIdx (cols matIn) -> in_range blkIdx (rows matIn) ->
  i < rows blkIdx -> j < cols blkIdx ->
  returns (gatherBlock matIn pxIdx (at2 blkIdx i j))
    (fun blk => agree2 blk (unitBlock matIn pxIdx blkIdx i j)).
Proof.
  intros Hmap Hpx Hblk Hi Hj. eapply returns_weaken.
  - apply gatherBlock_returns; [exact Hmap | exact Hpx | apply Hblk; assumption].
  - intros blk (Hr & Hc & Hat). split; [exact Hr | split; [exact Hc |]].
    intros y x Hy Hx. rewrite Hr in Hy. rewrite Hc in Hx. simpl. apply Hat; assumption.
Qed.

(** One iteration of the loop over [j] (lines 158-175). *)
Lemma placeBlock_returns (self : Kaleidoscope V) (matIn : Tensor2 V)
    (pxIdx : TensorArg Z) (blkIdx : Tensor2 Z) (centerBlk : list Z) (i j : nat)
    (t : Tensor3 V) :
  flat_long pxIdx ->
  nonneg4 (padding self) ->
  in_range pxIdx (cols matIn) -> in_range blkIdx (rows matIn) ->
  i < rows blkIdx -> j < cols blkIdx ->
  dim0 t = Z.to_nat (blk_h_pad self pxIdx) ->
  dim1 t = cols blkIdx ->
  dim2 t = Z.to_nat (blk_w_pad self pxIdx) ->
  returns (placeBlock self matIn pxIdx blkIdx centerBlk (Z.of_nat i) t (Z.of_nat j))
    (fun t' => dim0 t' = dim0 t /\ dim1 t' = dim1 t /\ dim2 t' = dim2 t /\
       forall y k x,
         at3 t' y k x
         = if (k =? j)
              && (Z.to_nat (item0 (padding self)) <=? y)
              && (y <? Z.to_nat (item0 (padding self)) + rows pxIdx)
              && (Z.to_nat (item2 (padding self)) <=? x)
              && (x <? Z.to_nat (item2 (padding self)) + cols pxIdx)
           then paddedCell self matIn pxIdx blkIdx centerBlk i j y x
           else at3 t y k x).
Proof.
  intros Hmap (Hp0 & Hp1 & Hp2 & Hp3) Hpx Hblk Hi Hj Hd0 Hd1 Hd2.
  unfold placeBlock. rewrite !Nat2Z.id.
  eapply returns_bind; [apply gatherBlock_unitBlock; assumption |].
  intros blk Hagree.
  pose proof (agree2_reflectBlock self centerBlk (Z.of_nat i) (Z.of_nat j) _ _ Hagree)
    as (Hr & Hc & Hat).
  destruct (reflectBlock_shape self centerBlk (Z.of_nat i) (Z.of_nat j)
              (unitBlock matIn pxIdx blkIdx i j)) as [Hur Huc].
  simpl in Hur, Huc. rewrite Hur in Hr. rewrite Huc in Hc.
  unfold blk_h_pad in Hd0. unfold blk_w_pad in Hd2.
  eapply returns_weaken.
  - apply slice_assign3_returns; rewrite ?Hr, ?Hc, ?Hd0, ?Hd1, ?Hd2; lia.
  - simpl. intros t' (H0 & H1 & H2 & Hat').
    repeat (split; [assumption |]).
    intros y k x. rewrite Hat', Hr, Hc.
    destruct ((k =? j)
              && (Z.to_nat (item0 (padding self)) <=? y)
              && (y <? Z.to_nat (item0 (padding self)) + rows pxIdx)
              && (Z.to_nat (item2 (padding self)) <=? x)
              && (x <? Z.to_nat (item2 (padding self)) + cols pxIdx)) eqn:E;
      [| reflexivity].
    apply andb_prop in E. destruct E as [E E4]. apply andb_prop in E. destruct E as [E E3].
    apply andb_prop in E. destruct E as [E E2]. apply andb_prop in E. destruct E as [E0 E1].
    unfold paddedCell. rewrite E1, E2, E3, E4. simpl.
    apply Nat.leb_le in E1, E3. apply Nat.ltb_lt in E2, E4.
    apply Hat; lia.
Qed.
(** One iteration of the loop over [i] (lines 154-178). *)
Lemma buildBlkRow_returns (self : Kaleidoscope V) (matIn : Tensor2 V)
    (pxIdx : TensorArg Z) (blkIdx : Tensor2 Z) (centerBlk : list Z) (i : nat)
    (T : Tensor3 V) :
  flat_long pxIdx ->
  nonneg4 (padding self) ->
  in_range pxIdx (cols matIn) -> in_range blkIdx (rows matIn) ->
  i < rows blkIdx ->
  (0 < blk_h_pad self pxIdx)%Z ->
  dim1 T = rows blkIdx ->
  returns (buildBlkRow self matIn pxIdx blkIdx centerBlk T (Z.of_nat i))
    (fun T' => dim0 T' = dim0 T /\ dim1 T' = dim1 T /\ dim2 T' = dim2 T /\
       (forall c k y, k <> i -> at3 T' c k y = at3 T c k y) /\
       (forall j x y, j < cols blkIdx -> x < Z.to_nat (blk_w_pad self pxIdx) ->
          at3 T' (j * Z.to_nat (blk_w_pad self pxIdx) + x) i y
          = paddedCell self matIn pxIdx blkIdx centerBlk i j y x)).
Proof.
  intros Hmap Hpad Hpx Hblk Hi Hbh Hd1. unfold buildBlkRow.
  pose proof Hpad as (Hp0 & Hp1 & Hp2 & Hp3).
  assert (Hbw : (0 <= blk_w_pad self pxIdx)%Z) by (unfold blk_w_pad; lia).
  eapply returns_bind; [apply torch_zeros3_returns; lia |].
  intros t0 (Ht0 & Ht1 & Ht2 & Hz). rewrite Nat2Z.id in Ht1.
  eapply returns_bind.
  { rewrite py_range_up.
    apply (for_range_returns _
             (fun n t => dim0 t = Z.to_nat (blk_h_pad self pxIdx) /\
                         dim1 t = cols blkIdx /\
                         dim2 t = Z.to_nat (blk_w_pad self pxIdx) /\
                         forall y k x,
                           at3 t y k x
                           = if k <? n
                             then paddedCell self matIn pxIdx blkIdx centerBlk i k y x
                             else izero) (cols blkIdx) 0 t0).
    - repeat (split; [assumption |]). intros y k x. simpl. apply Hz.
    - intros j t Hj (H0 & H1 & H2 & Hat).
      eapply returns_weaken.
      + apply placeBlock_returns; try assumption. lia.
      + simpl. intros t' (H0' & H1' & H2' & Hat').
        rewrite H0', H1', H2'. repeat (split; [assumption |]).
        intros y k x. rewrite Hat', Hat.
        destruct (Nat.eqb_spec k j) as [-> | Hne]; simpl.
        * rewrite (proj2 (Nat.ltb_ge j j)) by lia.
          rewrite (proj2 (Nat.ltb_lt j (S j))) by lia.
          unfold paddedCell.
          destruct ((Z.to_nat (item0 (padding self)) <=? y)
                    && (y <? Z.to_nat (item0 (padding self)) + rows pxIdx)
                    && (Z.to_nat (item2 (padding self)) <=? x)
                    && (x <? Z.to_nat (item2 (padding self)) + cols pxIdx));
            reflexivity.
        * destruct (Nat.ltb_spec k j) as [Hlt | Hge].
          -- rewrite (proj2 (Nat.ltb_lt k (S j))) by lia. reflexivity.
          -- rewrite (proj2 (Nat.ltb_ge k (S j))) by lia. reflexivity. }
  simpl. intros t (H0 & H1 & H2 & Hat).
  eapply returns_bind.
  { replace (blk_h_pad self pxIdx) with (Z.of_nat (Z.to_nat (blk_h_pad self pxIdx))) by lia.
    apply view3_2_returns; [exact H0 | lia]. }
  intros rowImage (Hr & Hc & Hrow). rewrite H1, H2 in Hrow.
  eapply returns_bind; [apply index_dim_returns; lia |].
  intros ii ->. rewrite Nat2Z.id. apply returns_ret. simpl.
  repeat (split; [reflexivity |]). split.
  - intros c k y Hne. destruct (Nat.eqb_spec k i); [contradiction | reflexivity].
  - intros j x y Hj Hx. rewrite Nat.eqb_refl, Hrow, Hat by assumption.
    rewrite (proj2 (Nat.ltb_lt j (cols blkIdx))) by exact Hj. reflexivity.
Qed.

(** The whole function on valid index maps and a grid that is not
    degenerate. *)
Lemma KaleidoTransform_returns (self : Kaleidoscope V) (matIn : Tensor2 V)
    (pxIdx : TensorArg Z) (blkIdx : Tensor2 Z) (centerBlk : list Z) :
  flat_long pxIdx ->
  nonneg4 (padding self) ->
  in_range pxIdx (cols matIn) -> in_range blkIdx (rows matIn) ->
  (0 < Z.of_nat (cols blkIdx) * blk_w_pad self pxIdx)%Z ->
  (rows blkIdx = 0 \/ (0 < blk_h_pad self pxIdx)%Z) ->
  returns (KaleidoTransform self matIn pxIdx blkIdx centerBlk)
    (fun out =>
       rows out = rows blkIdx * Z.to_nat (blk_h_pad self pxIdx) /\
       cols out = cols blkIdx * Z.to_nat (blk_w_pad self pxIdx) /\
       forall i j y x,
         i < rows blkIdx -> j < cols blkIdx ->
         y < Z.to_nat (blk_h_pad self pxIdx) -> x < Z.to_nat (blk_w_pad self pxIdx) ->
         at2 out (i * Z.to_nat (blk_h_pad self pxIdx) + y)
                 (j * Z.to_nat (blk_w_pad self pxIdx) + x)
         = paddedCell self matIn pxIdx blkIdx centerBlk i j y x).
Proof.
  intros Hmap Hpad Hpx Hblk Hw Hh. unfold KaleidoTransform.
  pose proof Hpad as (Hp0 & Hp1 & Hp2 & Hp3).
  assert (Hbh : (0 <= blk_h_pad self pxIdx)%Z) by (unfold blk_h_pad; lia).
  assert (Hbw : (0 <= blk_w_pad self pxIdx)%Z) by (unfold blk_w_pad; lia).
  set (bhp := Z.to_nat (blk_h_pad self pxIdx)) in *.
  set (bwp := Z.to_nat (blk_w_pad self pxIdx)) in *.
  eapply returns_bind; [apply torch_zeros3_returns; lia |].
  intros T0 (HT0 & HT1 & HT2 & _). rewrite Nat2Z.id in HT1.
  assert (HT0' : dim0 T0 = cols blkIdx * bwp) by (rewrite HT0; unfold bwp; lia).
  eapply returns_bind.
  { rewrite py_range_up.
    apply (for_range_returns _
             (fun n T => dim0 T = cols blkIdx * bwp /\ dim1 T = rows blkIdx /\
                         dim2 T = bhp /\
                         forall i j x y, i < n -> j < cols blkIdx -> x < bwp ->
                           at3 T (j * bwp + x) i y
                           = paddedCell self matIn pxIdx blkIdx centerBlk i j y x)
             (rows blkIdx) 0 T0).
    - repeat (split; [assumption |]). intros i j x y Hi. lia.
    - intros i T Hi (H0 & H1 & H2 & Hat).
      eapply returns_weaken.
      + apply buildBlkRow_returns; try assumption; [lia | ].
        destruct Hh as [Hh | Hh]; [lia | exact Hh].
      + simpl. intros T' (H0' & H1' & H2' & Hother & Hthis).
        rewrite H0', H1', H2'. repeat (split; [assumption |]).
        intros i' j x y Hi' Hj Hx.
        destruct (Nat.eq_dec i' i) as [-> | Hne].
        * apply Hthis; assumption.
        * rewrite Hother by exact Hne. apply Hat; [lia | assumption ..]. }
  simpl. intros T (H0 & H1 & H2 & Hat).
  eapply returns_bind.
  { replace (Z.of_nat (cols blkIdx) * blk_w_pad self pxIdx)%Z
      with (Z.of_nat (cols blkIdx * bwp)) by (unfold bwp; lia).
    apply view3_2_returns; [exact H0 | unfold bwp; lia]. }
  intros out2 (Hr & Hc & Hout). rewrite H1, H2 in Hc, Hout.
  apply returns_ret. simpl.
  split; [exact Hc | split; [exact Hr |]].
  intros i j y x Hi Hj Hy Hx. rewrite Hout by assumption. apply Hat; [lia | assumption ..].
Qed.
(** *** A row index outside [matIn] *)

Lemma elem_of_py_range_up (n : nat) (b : Z) :
  b ∈ py_range 0 (Z.of_nat n) 1 <-> exists j, b = Z.of_nat j /\ j < n.
Proof.
  rewrite py_range_up, list_elem_of_In, in_map_iff. split.
  - intros (j & <- & Hj). apply in_seq in Hj. exists j. split; [reflexivity | lia].
  - intros (j & -> & Hj). exists j. split; [reflexivity | apply in_seq; lia].
Qed.

Lemma torch_zeros3_run (a b c : Z) (log : list event) :
  (0 <= a)%Z -> (0 <= b)%Z -> (0 <= c)%Z ->
  torch_zeros3 a b c log
  = (inr (mkT3 (Z.to_nat a) (Z.to_nat b) (Z.to_nat c) (fun _ _ _ => izero)),
     log ++ [Alloc [Z.to_nat a; Z.to_nat b; Z.to_nat c]]).
Proof.
  intros Ha Hb Hc. unfold torch_zeros3.
  destruct (a <? 0)%Z eqn:Ea; [apply Z.ltb_lt in Ea; lia |].
  destruct (b <? 0)%Z eqn:Eb; [apply Z.ltb_lt in Eb; lia |].
  destruct (c <? 0)%Z eqn:Ec; [apply Z.ltb_lt in Ec; lia |].
  reflexivity.
Qed.

Lemma placeBlock_returns_or_raises (self : Kaleidoscope V) (matIn : Tensor2 V)
    (pxIdx : TensorArg Z) (blkIdx : Tensor2 Z) (centerBlk : list Z) (i : Z) (j : nat)
    (t : Tensor3 V) :
  flat_long pxIdx ->
  nonneg4 (padding self) ->
  j < cols blkIdx ->
  dim0 t = Z.to_nat (blk_h_pad self pxIdx) /\ dim1 t = cols blkIdx /\
    dim2 t = Z.to_nat (blk_w_pad self pxIdx) ->
  returns_or_raises (placeBlock self matIn pxIdx blkIdx centerBlk i t (Z.of_nat j))
    IndexError
    (fun t' => dim0 t' = Z.to_nat (blk_h_pad self pxIdx) /\ dim1 t' = cols blkIdx /\
               dim2 t' = Z.to_nat (blk_w_pad self pxIdx)).
Proof.
  intros Hmap (Hp0 & Hp1 & Hp2 & Hp3) Hj (Hd0 & Hd1 & Hd2). unfold placeBlock.
  eapply returns_or_raises_bind; [apply gatherBlock_returns_or_raises, Hmap |].
  intros blk [Hr Hc].
  destruct (reflectBlock_shape self centerBlk i (Z.of_nat j) blk) as [Hr' Hc'].
  unfold blk_h_pad in Hd0. unfold blk_w_pad in Hd2.
  apply returns_returns_or_raises. eapply returns_weaken.
  - apply slice_assign3_returns; rewrite ?Hr', ?Hc', ?Hr, ?Hc, ?Hd0, ?Hd1, ?Hd2; lia.
  - simpl. intros t' (H0 & H1 & H2 & _). unfold blk_h_pad, blk_w_pad.
    rewrite H0, H1, H2. repeat split; assumption.
Qed.

Lemma placeBlock_raises (self : Kaleidoscope V) (matIn : Tensor2 V)
    (pxIdx : TensorArg Z) (blkIdx : Tensor2 Z) (centerBlk : list Z) (i j : nat)
    (t : Tensor3 V) :
  flat_long pxIdx ->
  (Z.of_nat (rows matIn) <= at2 blkIdx i j)%Z ->
  raises (placeBlock self matIn pxIdx blkIdx centerBlk (Z.of_nat i) t (Z.of_nat j))
    IndexError.
Proof.
  intros [Hflat _] Hbad. unfold placeBlock. rewrite !Nat2Z.id.
  apply raises_bind_l, gatherBlock_raises; [exact Hflat | exact Hbad].
Qed.

Lemma buildBlkRow_returns_or_raises (self : Kaleidoscope V) (matIn : Tensor2 V)
    (pxIdx : TensorArg Z) (blkIdx : Tensor2 Z) (centerBlk : list Z) (i : nat)
    (T : Tensor3 V) :
  flat_long pxIdx ->
  nonneg4 (padding self) ->
  (0 < blk_h_pad self pxIdx)%Z ->
  i < rows blkIdx ->
  dim1 T = rows blkIdx ->
  returns_or_raises (buildBlkRow self matIn pxIdx blkIdx centerBlk T (Z.of_nat i))
    IndexError (fun T' => dim1 T' = rows blkIdx).
Proof.
  intros Hmap Hpad Hbh Hi Hd1. unfold buildBlkRow.
  pose proof Hpad as (Hp0 & Hp1 & Hp2 & Hp3).
  assert (Hbw : (0 <= blk_w_pad self pxIdx)%Z) by (unfold blk_w_pad; lia).
  eapply returns_or_raises_bind.
  { apply returns_returns_or_raises, torch_zeros3_returns; lia. }
  intros t0 (Ht0 & Ht1 & Ht2 & _). rewrite Nat2Z.id in Ht1.
  eapply returns_or_raises_bind.
  { apply (foldM_returns_or_raises _
             (fun t => dim0 t = Z.to_nat (blk_h_pad self pxIdx) /\
                       dim1 t = cols blkIdx /\
                       dim2 t = Z.to_nat (blk_w_pad self pxIdx))).
    - repeat split; assumption.
    - intros t b Hb Ht. apply elem_of_py_range_up in Hb. destruct Hb as (j & -> & Hj).
      apply placeBlock_returns_or_raises; assumption. }
  simpl. intros t (H0 & H1 & H2).
  eapply returns_or_raises_bind.
  { apply returns_returns_or_raises.
    replace (blk_h_pad self pxIdx) with (Z.of_nat (Z.to_nat (blk_h_pad self pxIdx))) by lia.
    apply view3_2_returns; [exact H0 | lia]. }
  intros rowImage _.
  eapply returns_or_raises_bind.
  { apply returns_returns_or_raises, index_dim_returns. lia. }
  intros ii _. apply returns_returns_or_raises, returns_ret. simpl. exact Hd1.
Qed.

Lemma buildBlkRow_raises (self : Kaleidoscope V) (matIn : Tensor2 V)
    (pxIdx : TensorArg Z) (blkIdx : Tensor2 Z) (centerBlk : list Z) (i j : nat)
    (T : Tensor3 V) :
  flat_long pxIdx ->
  nonneg4 (padding self) ->
  j < cols blkIdx ->
  (Z.of_nat (rows matIn) <= at2 blkIdx i j)%Z ->
  raises (buildBlkRow self matIn pxIdx blkIdx centerBlk T (Z.of_nat i)) IndexError.
Proof.
  intros Hmap Hpad Hj Hbad. unfold buildBlkRow.
  pose proof Hpad as (Hp0 & Hp1 & Hp2 & Hp3).
  assert (Hbh : (0 <= blk_h_pad self pxIdx)%Z) by (unfold blk_h_pad; lia).
  assert (Hbw : (0 <= blk_w_pad self pxIdx)%Z) by (unfold blk_w_pad; lia).
  eapply raises_bind_r.
  { apply returns_returns_or_raises, torch_zeros3_returns; lia. }
  intros t0 (Ht0 & Ht1 & Ht2 & _). rewrite Nat2Z.id in Ht1.
  apply raises_bind_l.
  apply (foldM_raises _
           (fun t => dim0 t = Z.to_nat (blk_h_pad self pxIdx) /\
                     dim1 t = cols blkIdx /\
                     dim2 t = Z.to_nat (blk_w_pad self pxIdx))
           IndexError (Z.of_nat j)).
  - apply elem_of_py_range_up. exists j. split; [reflexivity | exact Hj].
  - repeat split; assumption.
  - intros t b Hb Ht. apply elem_of_py_range_up in Hb. destruct Hb as (j' & -> & Hj').
    apply placeBlock_returns_or_raises; assumption.
  - intros t _. apply placeBlock_raises; [exact Hmap | exact Hbad].
Qed.

(** The loop over [i] raises as soon as one entry of [blkIdx] is not a
    row of [matIn]. *)
Lemma KaleidoTransform_rows_raise (self : Kaleidoscope V) (matIn : Tensor2 V)
    (pxIdx : TensorArg Z) (blkIdx : Tensor2 Z) (centerBlk : list Z) (i j : nat)
    (T : Tensor3 V) :
  flat_long pxIdx ->
  nonneg4 (padding self) ->
  (0 < blk_h_pad self pxIdx)%Z ->
  i < rows blkIdx -> j < cols blkIdx ->
  (Z.of_nat (rows matIn) <= at2 blkIdx i j)%Z ->
  dim1 T = rows blkIdx ->
  raises (foldM (buildBlkRow self matIn pxIdx blkIdx centerBlk)
            (py_range 0 (Z.of_nat (rows blkIdx)) 1) T) IndexError.
Proof.
  intros Hmap Hpad Hbh Hi Hj Hbad Hd1.
  apply (foldM_raises _ (fun T' => dim1 T' = rows blkIdx) IndexError (Z.of_nat i)).
  - apply elem_of_py_range_up. exists i. split; [reflexivity | exact Hi].
  - exact Hd1.
  - intros T' b Hb HT'. apply elem_of_py_range_up in Hb. destruct Hb as (i' & -> & Hi').
    apply buildBlkRow_returns_or_raises; assumption.
  - intros T' _. apply (buildBlkRow_raises _ _ _ _ _ i j); assumption.
Qed.
End KaleidoTransformProofs.

Lemma in_rangeb_correct (idx : Tensor2 Z) (n : nat) :
  in_rangeb idx n = true -> in_range idx n.
Proof.
  unfold in_rangeb, in_range. intros Hb y x Hy Hx.
  rewrite forallb_forall in Hb.
  assert (Hrow := Hb y (proj2 (in_seq _ _ _) (conj (Nat.le_0_l y) Hy))).
  rewrite forallb_forall in Hrow.
  assert (Hcell := Hrow x (proj2 (in_seq _ _ _) (conj (Nat.le_0_l x) Hx))).
  apply andb_prop in Hcell. destruct Hcell as [H1 H2].
  apply Z.leb_le in H1. apply Z.ltb_lt in H2. lia.
Qed.

(** ** The properties of the mirror cavity and of the expansion *)

Section CavityClaims.
Context {V : Type} `{Intensity V}.

(** C1, for an image of dtype [float32].  In [ParaMirrorCavity] with
    repetition counts [before, after >= 0], position [p] of the row of
    images is listed in [flipIdx] exactly when [|p - before|] is odd and
    in [keepIdx] exactly when it is even; lines 97-103 write the
    column-reversed image there in the first case and the image itself in
    the second, and the tile at position [p] of the array that
    [ParaMirrorCavity] returns is that copy, attenuated.  With [(2, 2)],
    whose centre is position 2, the tiles at positions 1 and 3 are
    reversed and those at positions 0 and 4 are not. *)
Theorem C1_flip_parity (self : Kaleidoscope V) (im : TensorArg V) (before after : Z)
    (p y x : nat) (imageRow0 : Tensor3 V) :
  arg_dtype im = float32 ->
  (0 <= before)%Z -> (0 <= after)%Z -> (Z.of_nat p <= before + after)%Z ->
  y < rows im -> x < cols im ->
  dim1 imageRow0 = Z.to_nat (before + after + 1) ->
  (In (Z.of_nat p) (flipIdx (before, after))
   <-> Z.odd (Z.abs (Z.of_nat p - before)) = true) /\
  (In (Z.of_nat p) (keepIdx (before, after))
   <-> Z.odd (Z.abs (Z.of_nat p - before)) = false) /\
  returns (placeTiles im (before, after) imageRow0)
    (fun imageRow => forall y' x',
       at3 imageRow y' p x'
       = if Z.odd (Z.abs (Z.of_nat p - before))
         then at2 im y' (cols im - 1 - x')
         else at2 im y' x') /\
  returns (ParaMirrorCavity self im (before, after))
    (fun out =>
       at2 out y (p * cols im + x)
       = imul (if Z.odd (Z.abs (Z.of_nat p - before))
               then at2 im y (cols im - 1 - x)
               else at2 im y x)
           (ipow (reflectivity self) (Z.abs (Z.of_nat p - before)))) /\
  returns (ParaMirrorCavity self im (2, 2)%Z)
    (fun out =>
       at2 out y (1 * cols im + x)
       = imul (at2 im y (cols im - 1 - x)) (ipow (reflectivity self) 1) /\
       at2 out y (3 * cols im + x)
       = imul (at2 im y (cols im - 1 - x)) (ipow (reflectivity self) 1) /\
       at2 out y (0 * cols im + x)
       = imul (at2 im y x) (ipow (reflectivity self) 2) /\
       at2 out y (4 * cols im + x)
       = imul (at2 im y x) (ipow (reflectivity self) 2)).
Proof.
  intros Hdt Ha Hb Hp Hy Hx Hd. rewrite Z_odd_abs.
  split; [| split; [| split; [| split]]].
  - split.
    + intros Hin. apply In_flipIdx in Hin; [| assumption ..]. apply Hin.
    + intros Hodd. apply In_flipIdx; [assumption .. |]. split; [lia | exact Hodd].
  - split.
    + intros Hin. apply In_keepIdx in Hin; [| assumption ..]. apply Hin.
    + intros Hodd. apply In_keepIdx; [assumption .. |]. split; [lia | exact Hodd].
  - eapply returns_weaken; [apply placeTiles_returns; assumption |].
    intros t (_ & _ & _ & Hat) y' x'. apply Hat. lia.
  - eapply returns_weaken.
    + apply ParaMirrorCavity_returns; [assumption .. | lia].
    + intros out (_ & _ & Hat). apply Hat; [lia | exact Hx].
  - eapply returns_weaken.
    + apply (ParaMirrorCavity_returns self im 2 2); [exact Hdt | lia | lia | lia].
    + intros out (_ & _ & Hat).
      repeat split; rewrite Hat by (simpl; lia || exact Hx); reflexivity.
Qed.

(** C2, for an image of dtype [float32].  In [ParaMirrorCavity] with
    [before, after >= 0], the pixels of
    the tile at position [p] of the returned array are those of the
    (flipped or original) image multiplied by
    [reflectivity ** |p - before|]; the tensor of exponents [attenIdx]
    holds [|p - before|] at position [p], and holds 0 at the position
    [before] and nowhere else. *)
Theorem C2_attenuation (self : Kaleidoscope V) (im : TensorArg V) (before after : Z)
    (p y x : nat) :
  arg_dtype im = float32 ->
  (0 <= before)%Z -> (0 <= after)%Z -> (Z.of_nat p <= before + after)%Z ->
  y < rows im -> x < cols im ->
  returns (ParaMirrorCavity self im (before, after))
    (fun out =>
       at2 out y (p * cols im + x)
       = imul (if Z.odd (Z.abs (Z.of_nat p - before))
               then at2 im y (cols im - 1 - x)
               else at2 im y x)
           (ipow (reflectivity self) (Z.abs (Z.of_nat p - before)))) /\
  returns (attenIdx (before, after))
    (fun exponents =>
       exponents !! p = Some (Z.abs (Z.of_nat p - before)) /\
       forall q : nat, exponents !! q = Some 0%Z <-> Z.of_nat q = before).
Proof.
  intros Hdt Ha Hb Hp Hy Hx. split.
  - eapply returns_weaken.
    + apply ParaMirrorCavity_returns; [assumption .. | lia].
    + intros out (_ & _ & Hat). rewrite Z_odd_abs. apply Hat; [lia | exact Hx].
  - eapply returns_weaken; [apply attenIdx_returns; assumption |].
    intros l [Hlen Hl]. split; [apply Hl; lia |].
    intros q. split.
    + intros Hq. pose proof (lookup_lt_Some _ _ _ Hq) as Hlt.
      rewrite Hlen in Hlt. rewrite Hl in Hq by exact Hlt.
      injection Hq as Hq. lia.
    + intros Hq. rewrite Hl by lia. f_equal. lia.
Qed.

(** C8, for an image of dtype [float32] with at least one row.
    [ParaMirrorCavity] with the repetition counts [(0, 0)] returns the
    image unchanged: same shape and the same value at every position. *)
Theorem C8_identity_tiling (self : Kaleidoscope V) (im : TensorArg V) :
  arg_dtype im = float32 ->
  0 < rows im ->
  returns (ParaMirrorCavity self im (0, 0)%Z)
    (fun out =>
       rows out = rows im /\ cols out = cols im /\
       forall y x, y < rows im -> x < cols im -> at2 out y x = at2 im y x).
Proof.
  intros Hdt Hh. eapply returns_weaken.
  - apply ParaMirrorCavity_returns; [exact Hdt | lia | lia | exact Hh].
  - simpl. intros out (Hr & Hc & Hat).
    split; [exact Hr | split; [lia |]].
    intros y x Hy Hx. specialize (Hat y 0 x). simpl in Hat.
    rewrite Hat by (try exact Hx; lia).
    rewrite ipow_0, imul_1_r. reflexivity.
Qed.

(** C9. [KaleidoExpan] raises, at the unpacking of the shape, on every
    input that does not have exactly two dimensions left once its
    dimensions of size 1 are squeezed out. *)
Theorem C9_rejects_non_2d (self : Kaleidoscope V) (original_image : TensorN V) :
  length (shape (squeeze original_image)) <> 2 ->
  raises (KaleidoExpan self original_image) ValueError.
Proof.
  intros Hlen. unfold KaleidoExpan. apply raises_bind_l, unpack2_raises, Hlen.
Qed.

(** C5, for a padded image that is not empty.  For an input whose shape after squeezing is [(h, w)],
    non-negative padding and repetition counts, and a padded image with
    at least one row and one column, [KaleidoExpan] returns an array of
    shape [((h + top + bottom) * (up + down + 1),
    (w + left + right) * (left' + right' + 1))]; with the shape (28, 28),
    padding (2, 2, 2, 2) and repetition counts (1, 2, 1, 1) this is
    (128, 96). *)
Theorem C5_expansion_shape (self : Kaleidoscope V) (original_image : TensorN V)
    (h w : nat) :
  shape (squeeze original_image) = [h; w] ->
  nonneg4 (padding self) -> nonneg4 (repNums self) ->
  (0 < Z.of_nat h + item0 (padding self) + item1 (padding self))%Z ->
  (0 < Z.of_nat w + item2 (padding self) + item3 (padding self))%Z ->
  returns (KaleidoExpan self original_image)
    (fun out =>
       Z.of_nat (rows out)
       = ((Z.of_nat h + item0 (padding self) + item1 (padding self))
          * (item0 (repNums self) + item1 (repNums self) + 1))%Z /\
       Z.of_nat (cols out)
       = ((Z.of_nat w + item2 (padding self) + item3 (padding self))
          * (item2 (repNums self) + item3 (repNums self) + 1))%Z) /\
  (h = 28 -> w = 28 -> padding self = (2, 2, 2, 2)%Z -> repNums self = (1, 2, 1, 1)%Z ->
   returns (KaleidoExpan self original_image) (fun out => shape2 out = (128, 96))).
Proof.
  intros Hs (Hp0 & Hp1 & Hp2 & Hp3) (Hr0 & Hr1 & Hr2 & Hr3) Hh Hw.
  assert (Hshape := KaleidoExpan_shape self original_image h w Hs
                      Hp0 Hp1 Hp2 Hp3 Hr0 Hr1 Hr2 Hr3 Hh Hw).
  split; [exact Hshape |].
  intros -> -> Hpad Hrep. eapply returns_weaken; [exact Hshape |].
  rewrite Hpad, Hrep. simpl. intros out [Hr Hc]. unfold shape2. f_equal; lia.
Qed.
End CavityClaims.

Lemma C1_flip_parity_witness :
  (arg_dtype img_1x2 = float32 /\
   (0 <= 2)%Z /\ (0 <= 2)%Z /\ (Z.of_nat 1 <= 2 + 2)%Z /\
   0 < rows img_1x2 /\ 1 < cols img_1x2 /\
   dim1 row_of_5 = Z.to_nat (2 + 2 + 1)) /\
  returns (ParaMirrorCavity cavity_half img_1x2 (2, 2)%Z)
    (fun out => at2 out 0 3 = (1 * (1 # 2))%Q).
Proof.
  split; [split; [reflexivity | simpl; lia] |].
  eapply returns_weaken.
  - refine (proj1 (proj2 (proj2 (proj2
              (C1_flip_parity cavity_half img_1x2 2 2 1 0 1 row_of_5 _ _ _ _ _ _ _)))));
      [reflexivity | simpl; lia ..].
  - intros out Hout. exact Hout.
Defined.

(** A [float64] image is not tiled: line 100 raises, after the buffer of
    line 84 has been allocated. *)
Lemma C1_counterexample :
  arg_dtype img_f64 = float64 /\
  shape2 img_f64 = (1, 2) /\
  run (ParaMirrorCavity cavity_half img_f64 (2, 2)%Z)
  = (inl RuntimeError, [Alloc [1; 5; 2]]).
Proof. vm_compute. repeat split; reflexivity. Qed.

Lemma C2_attenuation_witness :
  (arg_dtype img_1x2 = float32 /\
   (0 <= 2)%Z /\ (0 <= 2)%Z /\ (Z.of_nat 1 <= 2 + 2)%Z /\
   0 < rows img_1x2 /\ 1 < cols img_1x2) /\
  returns (ParaMirrorCavity cavity_half img_1x2 (2, 2)%Z)
    (fun out => at2 out 0 3 = (1 * (1 # 2))%Q).
Proof.
  split; [split; [reflexivity | simpl; lia] |].
  eapply returns_weaken.
  - apply (C2_attenuation cavity_half img_1x2 2 2 1 0 1);
      [reflexivity | simpl; lia ..].
  - intros out Hout. exact Hout.
Defined.

(** A [float64] image has no attenuated tiles either. *)
Lemma C2_counterexample :
  arg_dtype img_f64 = float64 /\
  shape2 img_f64 = (1, 2) /\
  run (ParaMirrorCavity cavity_half img_f64 (1, 0)%Z)
  = (inl RuntimeError, [Alloc [1; 2; 2]]).
Proof. vm_compute. repeat split; reflexivity. Qed.

Lemma C8_identity_tiling_witness :
  (arg_dtype img_1x2 = float32 /\ 0 < rows img_1x2) /\
  returns (ParaMirrorCavity cavity_half img_1x2 (0, 0)%Z)
    (fun out =>
       rows out = rows img_1x2 /\ cols out = cols img_1x2 /\
       forall y x, y < rows img_1x2 -> x < cols img_1x2 ->
         at2 out y x = at2 img_1x2 y x).
Proof.
  split; [split; [reflexivity | simpl; lia] |].
  apply (C8_identity_tiling cavity_half img_1x2); [reflexivity | simpl; lia].
Defined.

(** An image without rows is not returned: line 110 raises.  Neither is a
    [float64] image: line 100 raises. *)
Lemma C8_counterexample :
  shape2 img_0x2 = (0, 2) /\
  run (ParaMirrorCavity cavity_half img_0x2 (0, 0)%Z)
  = (inl RuntimeError, [Alloc [0; 1; 2]]) /\
  arg_dtype img_f64 = float64 /\
  shape2 img_f64 = (1, 2) /\
  run (ParaMirrorCavity cavity_half img_f64 (0, 0)%Z)
  = (inl RuntimeError, [Alloc [1; 1; 2]]).
Proof. vm_compute. repeat split; reflexivity. Qed.

Lemma C9_rejects_non_2d_witness :
  length (shape (squeeze tensor_3)) <> 2 /\
  raises (KaleidoExpan kale_main tensor_3) ValueError.
Proof.
  split; [vm_compute; lia |].
  apply (C9_rejects_non_2d kale_main tensor_3). vm_compute. lia.
Defined.

Lemma C5_expansion_shape_witness :
  shape (squeeze mnist_like) = [28; 28] /\
  returns (KaleidoExpan kale_main mnist_like) (fun out => shape2 out = (128, 96)).
Proof.
  split; [reflexivity |].
  apply (C5_expansion_shape kale_main mnist_like 28 28);
    try reflexivity; try (repeat split; simpl; lia); simpl; lia.
Defined.

(** A 2-D image with a single row loses that dimension in [squeeze], and an
    image without rows reaches the ambiguous [view]: neither is expanded. *)
Lemma C5_counterexample :
  shape tensor_1x2 = [1; 2] /\
  run (KaleidoExpan kale_plain tensor_1x2) = (inl ValueError, []) /\
  shape tensor_0x2 = [0; 2] /\
  fst (run (KaleidoExpan kale_plain tensor_0x2)) = inl RuntimeError.
Proof. vm_compute. repeat split; reflexivity. Qed.

(** ** The properties of the block transform *)

Section TransformClaims.
Context {V : Type} `{Intensity V}.

(** The pixel [(y, x)] of block [(i, j)] in the returned array. *)
Lemma KaleidoTransform_block (self : Kaleidoscope V) (matIn : Tensor2 V)
    (pxIdx : TensorArg Z) (blkIdx : Tensor2 Z) (centerBlk : list Z) (i j y x : nat) :
  flat_long pxIdx ->
  nonneg4 (padding self) ->
  in_range pxIdx (cols matIn) -> in_range blkIdx (rows matIn) ->
  i < rows blkIdx -> j < cols blkIdx -> y < rows pxIdx -> x < cols pxIdx ->
  returns (KaleidoTransform self matIn pxIdx blkIdx centerBlk)
    (fun out =>
       at2 out
         (i * Z.to_nat (blk_h_pad self pxIdx) + (Z.to_nat (item0 (padding self)) + y))
         (j * Z.to_nat (blk_w_pad self pxIdx) + (Z.to_nat (item2 (padding self)) + x))
       = at2 (reflectBlock self centerBlk (Z.of_nat i) (Z.of_nat j)
                (unitBlock matIn pxIdx blkIdx i j)) y x).
Proof.
  intros Hmap Hpad Hpx Hblk Hi Hj Hy Hx.
  pose proof Hpad as (Hp0 & Hp1 & Hp2 & Hp3).
  eapply returns_weaken.
  - apply KaleidoTransform_returns; try assumption.
    + unfold blk_w_pad. nia.
    + right. unfold blk_h_pad. lia.
  - simpl. intros out (_ & _ & Hat).
    rewrite Hat; try assumption; try (unfold blk_h_pad, blk_w_pad; lia).
    unfold paddedCell.
    rewrite (proj2 (Nat.leb_le _ _)) by lia.
    rewrite (proj2 (Nat.ltb_lt _ _)) by lia.
    rewrite (proj2 (Nat.leb_le _ _)) by lia.
    rewrite (proj2 (Nat.ltb_lt _ _)) by lia.
    simpl. f_equal; lia.
Qed.

(** C3, for a pixel map of dtype [int64] that [view] can flatten.  In
    [KaleidoTransform] with [centerBlk = (ci, cj)], the block at
    grid position [(i, j)] has its rows reversed exactly when
    [(i - ci) % 2 == 1] and its columns reversed exactly when
    [(j - cj) % 2 == 1], and every pixel of the (possibly flipped) block
    is multiplied by [reflectivity ** (|i - ci| + |j - cj|)]. *)
Theorem C3_block_reflection (self : Kaleidoscope V) (matIn : Tensor2 V)
    (pxIdx : TensorArg Z) (blkIdx : Tensor2 Z) (ci cj : Z) (i j y x : nat) :
  flat_long pxIdx ->
  nonneg4 (padding self) ->
  in_range pxIdx (cols matIn) -> in_range blkIdx (rows matIn) ->
  i < rows blkIdx -> j < cols blkIdx -> y < rows pxIdx -> x < cols pxIdx ->
  returns (KaleidoTransform self matIn pxIdx blkIdx [ci; cj])
    (fun out =>
       at2 out
         (i * Z.to_nat (blk_h_pad self pxIdx) + (Z.to_nat (item0 (padding self)) + y))
         (j * Z.to_nat (blk_w_pad self pxIdx) + (Z.to_nat (item2 (padding self)) + x))
       = imul
           (at2 matIn (Z.to_nat (at2 blkIdx i j))
              (Z.to_nat
                 (at2 pxIdx
                    (if ((Z.of_nat i - ci) mod 2 =? 1)%Z then rows pxIdx - 1 - y else y)
                    (if ((Z.of_nat j - cj) mod 2 =? 1)%Z then cols pxIdx - 1 - x else x))))
           (ipow (reflectivity self)
              (Z.abs (Z.of_nat i - ci) + Z.abs (Z.of_nat j - cj)))).
Proof.
  intros Hmap Hpad Hpx Hblk Hi Hj Hy Hx.
  eapply returns_weaken; [apply KaleidoTransform_block; eassumption |].
  simpl. intros out ->. unfold reflectBlock.
  destruct ((Z.of_nat i - ci) mod 2 =? 1)%Z, ((Z.of_nat j - cj) mod 2 =? 1)%Z;
    reflexivity.
Qed.

(** C7, for a pixel map of dtype [int64] that [view] can flatten.
    [KaleidoTransform] with the empty [centerBlk] places every block
    as gathered, neither flipped nor attenuated; when [blkIdx] names one
    row [k] everywhere, every cell holds the block folded from row [k]. *)
Theorem C7_plain_tiling (self : Kaleidoscope V) (matIn : Tensor2 V)
    (pxIdx : TensorArg Z) (blkIdx : Tensor2 Z) (i j y x : nat) :
  flat_long pxIdx ->
  nonneg4 (padding self) ->
  in_range pxIdx (cols matIn) -> in_range blkIdx (rows matIn) ->
  i < rows blkIdx -> j < cols blkIdx -> y < rows pxIdx -> x < cols pxIdx ->
  returns (KaleidoTransform self matIn pxIdx blkIdx [])
    (fun out =>
       at2 out
         (i * Z.to_nat (blk_h_pad self pxIdx) + (Z.to_nat (item0 (padding self)) + y))
         (j * Z.to_nat (blk_w_pad self pxIdx) + (Z.to_nat (item2 (padding self)) + x))
       = at2 matIn (Z.to_nat (at2 blkIdx i j)) (Z.to_nat (at2 pxIdx y x))) /\
  (forall k : Z,
     (forall i' j', i' < rows blkIdx -> j' < cols blkIdx -> at2 blkIdx i' j' = k) ->
     returns (KaleidoTransform self matIn pxIdx blkIdx [])
       (fun out =>
          at2 out
            (i * Z.to_nat (blk_h_pad self pxIdx) + (Z.to_nat (item0 (padding self)) + y))
            (j * Z.to_nat (blk_w_pad self pxIdx) + (Z.to_nat (item2 (padding self)) + x))
          = at2 matIn (Z.to_nat k) (Z.to_nat (at2 pxIdx y x)))).
Proof.
  intros Hmap Hpad Hpx Hblk Hi Hj Hy Hx.
  assert (Hgen : returns (KaleidoTransform self matIn pxIdx blkIdx [])
    (fun out =>
       at2 out
         (i * Z.to_nat (blk_h_pad self pxIdx) + (Z.to_nat (item0 (padding self)) + y))
         (j * Z.to_nat (blk_w_pad self pxIdx) + (Z.to_nat (item2 (padding self)) + x))
       = at2 matIn (Z.to_nat (at2 blkIdx i j)) (Z.to_nat (at2 pxIdx y x)))).
  { eapply returns_weaken; [apply KaleidoTransform_block; eassumption |].
    simpl. intros out ->. reflexivity. }
  split; [exact Hgen |].
  intros k Hk. rewrite <- (Hk i j Hi Hj). exact Hgen.
Qed.

(** C10. A non-empty [centerBlk] whose length is not 2 changes nothing:
    [KaleidoTransform] is the same computation as with the empty
    [centerBlk], so it raises in no further case and flips and attenuates
    no block. *)
Theorem C10_other_lengths (self : Kaleidoscope V) (matIn : Tensor2 V)
    (pxIdx : TensorArg Z) (blkIdx : Tensor2 Z) (centerBlk : list Z) :
  centerBlk <> [] -> length centerBlk <> 2 ->
  KaleidoTransform self matIn pxIdx blkIdx centerBlk
  = KaleidoTransform self matIn pxIdx blkIdx [].
Proof.
  intros Hne Hlen.
  destruct centerBlk as [| c0 [| c1 [| c2 l]]];
    [contradiction | reflexivity | simpl in Hlen; lia | reflexivity].
Qed.

(** C6, for a grid that is not degenerate.  For index maps within range,
    a pixel map of dtype [int64] that [view] can flatten, non-negative
    padding, a grid with at least one column of cells of width at least 1,
    and
    cells of height at least 1 unless the grid has no row,
    [KaleidoTransform] returns an array of shape
    [(gh * (bh + pad_v), gw * (bw + pad_h))]; the cell of block [(i, j)]
    starts at row [i * (bh + pad_v)] and column [j * (bw + pad_h)], holds
    the block at the offset [(pad_top, pad_left)] and zero elsewhere. *)
Theorem C6_transform_layout (self : Kaleidoscope V) (matIn : Tensor2 V)
    (pxIdx : TensorArg Z) (blkIdx : Tensor2 Z) (centerBlk : list Z) :
  flat_long pxIdx ->
  nonneg4 (padding self) ->
  in_range pxIdx (cols matIn) -> in_range blkIdx (rows matIn) ->
  (0 < Z.of_nat (cols blkIdx) * blk_w_pad self pxIdx)%Z ->
  (rows blkIdx = 0 \/ (0 < blk_h_pad self pxIdx)%Z) ->
  returns (KaleidoTransform self matIn pxIdx blkIdx centerBlk)
    (fun out =>
       (Z.of_nat (rows out)
        = Z.of_nat (rows blkIdx)
          * (Z.of_nat (rows pxIdx) + (item0 (padding self) + item1 (padding self))))%Z /\
       (Z.of_nat (cols out)
        = Z.of_nat (cols blkIdx)
          * (Z.of_nat (cols pxIdx) + (item2 (padding self) + item3 (padding self))))%Z /\
       (forall i j y x,
          i < rows blkIdx -> j < cols blkIdx -> y < rows pxIdx -> x < cols pxIdx ->
          at2 out
            (i * Z.to_nat (blk_h_pad self pxIdx) + (Z.to_nat (item0 (padding self)) + y))
            (j * Z.to_nat (blk_w_pad self pxIdx) + (Z.to_nat (item2 (padding self)) + x))
          = at2 (reflectBlock self centerBlk (Z.of_nat i) (Z.of_nat j)
                   (unitBlock matIn pxIdx blkIdx i j)) y x) /\
       (forall i j y x,
          i < rows blkIdx -> j < cols blkIdx ->
          y < Z.to_nat (blk_h_pad self pxIdx) -> x < Z.to_nat (blk_w_pad self pxIdx) ->
          at2 out
            (i * Z.to_nat (blk_h_pad self pxIdx) + y)
            (j * Z.to_nat (blk_w_pad self pxIdx) + x)
          = paddedCell self matIn pxIdx blkIdx centerBlk i j y x)).
Proof.
  intros Hmap Hpad Hpx Hblk Hw Hh.
  pose proof Hpad as (Hp0 & Hp1 & Hp2 & Hp3).
  eapply returns_weaken; [apply KaleidoTransform_returns; assumption |].
  simpl. intros out (Hr & Hc & Hat).
  split.
  { rewrite Hr, Nat2Z.inj_mul, Z2Nat.id by (unfold blk_h_pad; lia). reflexivity. }
  split.
  { rewrite Hc, Nat2Z.inj_mul, Z2Nat.id by (unfold blk_w_pad; lia). reflexivity. }
  split; [| exact Hat].
  intros i j y x Hi Hj Hy Hx.
  rewrite Hat; try assumption; try (unfold blk_h_pad, blk_w_pad; lia).
  unfold paddedCell.
  rewrite (proj2 (Nat.leb_le _ _)) by lia.
  rewrite (proj2 (Nat.ltb_lt _ _)) by lia.
  rewrite (proj2 (Nat.leb_le _ _)) by lia.
  rewrite (proj2 (Nat.ltb_lt _ _)) by lia.
  simpl. f_equal; lia.
Qed.

(** C4, as the code orders its steps.  [__init__] stores any repetition
    counts, padding and reflectivity and does not raise.  With a pixel
    map of dtype [int64] that [view] can flatten, non-negative padding
    and cells of height at least 1, an entry of [blkIdx] that is at least
    the row count of [matIn] makes [KaleidoTransform] raise IndexError, so
    no output is returned; the buffer of line 151 is allocated by then. *)
Theorem C4_late_index_error (self : Kaleidoscope V) (matIn : Tensor2 V)
    (pxIdx : TensorArg Z) (blkIdx : Tensor2 Z) (centerBlk : list Z) (i j : nat) :
  flat_long pxIdx ->
  nonneg4 (padding self) ->
  (0 < blk_h_pad self pxIdx)%Z ->
  i < rows blkIdx -> j < cols blkIdx ->
  (Z.of_nat (rows matIn) <= at2 blkIdx i j)%Z ->
  (forall (repNums padding : tuple4) (reflectivity : V),
     run (init repNums padding reflectivity)
     = (inr (mkKaleidoscope repNums padding reflectivity), [])) /\
  exists later,
    run (KaleidoTransform self matIn pxIdx blkIdx centerBlk)
    = (inl IndexError,
       Alloc [Z.to_nat (Z.of_nat (cols blkIdx) * blk_w_pad self pxIdx);
              rows blkIdx;
              Z.to_nat (blk_h_pad self pxIdx)] :: later).
Proof.
  intros Hmap Hpad Hbh Hi Hj Hbad. split; [reflexivity |].
  pose proof Hpad as (Hp0 & Hp1 & Hp2 & Hp3).
  assert (Hbw : (0 <= blk_w_pad self pxIdx)%Z) by (unfold blk_w_pad; lia).
  unfold run, KaleidoTransform. unfold bind at 1.
  rewrite torch_zeros3_run by lia. rewrite Nat2Z.id. simpl app.
  match goal with
  | |- exists later, bind ?m ?k ?log = _ =>
      assert (Hr : raises (bind m k) IndexError)
  end.
  { apply raises_bind_l.
    apply (KaleidoTransform_rows_raise self matIn pxIdx blkIdx centerBlk i j);
      try assumption. reflexivity. }
  match goal with
  | |- exists later, _ ?log = _ => destruct (Hr log) as (r & ext & Hrun & ->)
  end.
  exists ext. rewrite Hrun. reflexivity.
Qed.
End TransformClaims.

Lemma C3_block_reflection_witness :
  (flat_long pxIdx_2x2 /\ nonneg4 (padding kale_pad) /\
   in_range pxIdx_2x2 (cols matIn_2x3) /\ in_range blkIdx_2x2 (rows matIn_2x3) /\
   1 < rows blkIdx_2x2 /\ 0 < cols blkIdx_2x2 /\
   0 < rows pxIdx_2x2 /\ 0 < cols pxIdx_2x2) /\
  returns (KaleidoTransform kale_pad matIn_2x3 pxIdx_2x2 blkIdx_2x2 [0; 1]%Z)
    (fun out => at2 out 4 0 = (6 * (1 # 4))%Q).
Proof.
  assert (Hmap : flat_long pxIdx_2x2) by (split; reflexivity).
  assert (Hpad : nonneg4 (padding kale_pad)) by (repeat split; simpl; lia).
  assert (Hpx : in_range pxIdx_2x2 (cols matIn_2x3))
    by (apply in_rangeb_correct; reflexivity).
  assert (Hblk : in_range blkIdx_2x2 (rows matIn_2x3))
    by (apply in_rangeb_correct; reflexivity).
  split; [split; [exact Hmap | split; [exact Hpad | split; [exact Hpx |
            split; [exact Hblk | simpl; lia]]]] |].
  eapply returns_weaken.
  - apply (C3_block_reflection kale_pad matIn_2x3 pxIdx_2x2 blkIdx_2x2 0 1 1 0 0 0);
      try assumption; simpl; lia.
  - intros out Hout. exact Hout.
Defined.

(** The same pixel map as the transpose of a row-major tensor cannot be
    flattened: line 161 raises at the first block, and no block is
    placed.  As an [int32] tensor it is refused by [torch.take]. *)
Lemma C3_counterexample :
  to_rows pxIdx_t = to_rows pxIdx_2x2 /\
  (stride0 pxIdx_t, stride1 pxIdx_t) = (1, 2) /\
  run (KaleidoTransform kale_pad matIn_2x3 pxIdx_t blkIdx_2x2 [0; 1]%Z)
  = (inl RuntimeError, [Alloc [6; 2; 3]; Alloc [3; 2; 3]]) /\
  to_rows pxIdx_int = to_rows pxIdx_2x2 /\
  arg_dtype pxIdx_int = int32 /\
  run (KaleidoTransform kale_pad matIn_2x3 pxIdx_int blkIdx_2x2 [0; 1]%Z)
  = (inl RuntimeError, [Alloc [6; 2; 3]; Alloc [3; 2; 3]]).
Proof. vm_compute. repeat split; reflexivity. Qed.

Lemma C7_plain_tiling_witness :
  (flat_long pxIdx_2x2 /\ nonneg4 (padding kale_pad) /\
   in_range pxIdx_2x2 (cols matIn_2x3) /\ in_range blkIdx_ones (rows matIn_2x3) /\
   1 < rows blkIdx_ones /\ 0 < cols blkIdx_ones /\
   1 < rows pxIdx_2x2 /\ 1 < cols pxIdx_2x2) /\
  returns (KaleidoTransform kale_pad matIn_2x3 pxIdx_2x2 blkIdx_ones [])
    (fun out => at2 out 5 1 = 6%Q).
Proof.
  assert (Hmap : flat_long pxIdx_2x2) by (split; reflexivity).
  assert (Hpad : nonneg4 (padding kale_pad)) by (repeat split; simpl; lia).
  assert (Hpx : in_range pxIdx_2x2 (cols matIn_2x3))
    by (apply in_rangeb_correct; reflexivity).
  assert (Hblk : in_range blkIdx_ones (rows matIn_2x3))
    by (apply in_rangeb_correct; reflexivity).
  split; [split; [exact Hmap | split; [exact Hpad | split; [exact Hpx |
            split; [exact Hblk | simpl; lia]]]] |].
  eapply returns_weaken.
  - refine (proj2 (C7_plain_tiling kale_pad matIn_2x3 pxIdx_2x2 blkIdx_ones 1 0 1 1
                     Hmap Hpad Hpx Hblk _ _ _ _) 1%Z _); try (simpl; lia).
    intros i' j' Hi Hj. simpl in Hi, Hj.
    destruct i' as [| [| i']]; destruct j' as [| [| j']]; try lia; reflexivity.
  - intros out Hout. exact Hout.
Defined.

(** With the empty [centerBlk] too, the transposed pixel map and the
    [int32] one stop the transform at the first block. *)
Lemma C7_counterexample :
  to_rows pxIdx_t = to_rows pxIdx_2x2 /\
  (stride0 pxIdx_t, stride1 pxIdx_t) = (1, 2) /\
  run (KaleidoTransform kale_pad matIn_2x3 pxIdx_t blkIdx_ones [])
  = (inl RuntimeError, [Alloc [6; 2; 3]; Alloc [3; 2; 3]]) /\
  to_rows pxIdx_int = to_rows pxIdx_2x2 /\
  arg_dtype pxIdx_int = int32 /\
  run (KaleidoTransform kale_pad matIn_2x3 pxIdx_int blkIdx_ones [])
  = (inl RuntimeError, [Alloc [6; 2; 3]; Alloc [3; 2; 3]]).
Proof. vm_compute. repeat split; reflexivity. Qed.

Lemma C10_other_lengths_witness :
  ([5; 7; 9]%Z <> [] /\ length [5; 7; 9]%Z <> 2) /\
  KaleidoTransform kale_pad matIn_2x3 pxIdx_2x2 blkIdx_2x2 [5; 7; 9]%Z
  = KaleidoTransform kale_pad matIn_2x3 pxIdx_2x2 blkIdx_2x2 [].
Proof.
  split; [split; [discriminate | simpl; lia] |].
  apply (C10_other_lengths kale_pad matIn_2x3 pxIdx_2x2 blkIdx_2x2 [5; 7; 9]%Z);
    [discriminate | simpl; lia].
Defined.

Lemma C6_transform_layout_witness :
  (flat_long pxIdx_2x2 /\ nonneg4 (padding kale_pad) /\
   in_range pxIdx_2x2 (cols matIn_2x3) /\ in_range blkIdx_2x2 (rows matIn_2x3) /\
   (0 < Z.of_nat (cols blkIdx_2x2) * blk_w_pad kale_pad pxIdx_2x2)%Z /\
   (0 < blk_h_pad kale_pad pxIdx_2x2)%Z) /\
  returns (KaleidoTransform kale_pad matIn_2x3 pxIdx_2x2 blkIdx_2x2 [0; 1]%Z)
    (fun out => Z.of_nat (rows out) = 6%Z /\ Z.of_nat (cols out) = 6%Z).
Proof.
  assert (Hmap : flat_long pxIdx_2x2) by (split; reflexivity).
  assert (Hpad : nonneg4 (padding kale_pad)) by (repeat split; simpl; lia).
  assert (Hpx : in_range pxIdx_2x2 (cols matIn_2x3))
    by (apply in_rangeb_correct; reflexivity).
  assert (Hblk : in_range blkIdx_2x2 (rows matIn_2x3))
    by (apply in_rangeb_correct; reflexivity).
  split; [split; [exact Hmap | split; [exact Hpad | split; [exact Hpx |
            split; [exact Hblk | split; reflexivity]]]] |].
  eapply returns_weaken.
  - apply (C6_transform_layout kale_pad matIn_2x3 pxIdx_2x2 blkIdx_2x2 [0; 1]%Z);
      try assumption; [reflexivity | right; reflexivity].
  - intros out (Hr & Hc & _). split; [exact Hr | exact Hc].
Defined.

(** A grid without columns, and blocks without pixels or padding, satisfy
    the index preconditions and are not laid out: a [view] raises.  Nor is
    a grid of blocks laid out when the pixel map is the transpose of a
    row-major tensor (line 161) or an [int32] tensor (line 162). *)
Lemma C6_counterexample :
  in_range pxIdx_2x2 (cols matIn_2x3) /\ in_range blkIdx_1x0 (rows matIn_2x3) /\
  shape2 blkIdx_1x0 = (1, 0) /\
  run (KaleidoTransform kale_plain matIn_2x3 pxIdx_2x2 blkIdx_1x0 [])
  = (inl RuntimeError, [Alloc [0; 1; 2]; Alloc [2; 0; 2]]) /\
  in_range pxIdx_0x0 (cols matIn_2x3) /\ in_range blkIdx_2x2 (rows matIn_2x3) /\
  shape2 pxIdx_0x0 = (0, 0) /\
  run (KaleidoTransform kale_plain matIn_2x3 pxIdx_0x0 blkIdx_2x2 [])
  = (inl RuntimeError, [Alloc [0; 2; 0]; Alloc [0; 2; 0]]) /\
  in_range pxIdx_t (cols matIn_2x3) /\
  (stride0 pxIdx_t, stride1 pxIdx_t) = (1, 2) /\
  run (KaleidoTransform kale_plain matIn_2x3 pxIdx_t blkIdx_2x2 [])
  = (inl RuntimeError, [Alloc [4; 2; 2]; Alloc [2; 2; 2]]) /\
  in_range pxIdx_int (cols matIn_2x3) /\
  arg_dtype pxIdx_int = int32 /\
  run (KaleidoTransform kale_plain matIn_2x3 pxIdx_int blkIdx_2x2 [])
  = (inl RuntimeError, [Alloc [4; 2; 2]; Alloc [2; 2; 2]]).
Proof.
  split; [apply in_rangeb_correct; reflexivity |].
  split; [apply in_rangeb_correct; reflexivity |].
  split; [reflexivity |].
  split; [vm_compute; reflexivity |].
  split; [apply in_rangeb_correct; reflexivity |].
  split; [apply in_rangeb_correct; reflexivity |].
  split; [reflexivity |].
  split; [vm_compute; reflexivity |].
  split; [apply in_rangeb_correct; reflexivity |].
  split; [reflexivity |].
  split; [vm_compute; reflexivity |].
  split; [apply in_rangeb_correct; reflexivity |].
  split; [reflexivity |].
  vm_compute. reflexivity.
Qed.

Lemma C4_late_index_error_witness :
  (flat_long pxIdx_2x2 /\
   nonneg4 (padding kale_pad) /\ (0 < blk_h_pad kale_pad pxIdx_2x2)%Z /\
   1 < rows blkIdx_bad /\ 0 < cols blkIdx_bad /\
   (Z.of_nat (rows matIn_2x3) <= at2 blkIdx_bad 1 0)%Z) /\
  exists later,
    run (KaleidoTransform kale_pad matIn_2x3 pxIdx_2x2 blkIdx_bad [0; 1]%Z)
    = (inl IndexError, Alloc [6; 2; 3] :: later).
Proof.
  assert (Hmap : flat_long pxIdx_2x2) by (split; reflexivity).
  assert (Hpad : nonneg4 (padding kale_pad)) by (repeat split; simpl; lia).
  split; [split; [exact Hmap | split; [exact Hpad | split; [reflexivity | simpl; lia]]] |].
  apply (C4_late_index_error kale_pad matIn_2x3 pxIdx_2x2 blkIdx_bad [0; 1]%Z 1 0);
    [exact Hmap | exact Hpad | reflexivity | simpl; lia | simpl; lia | simpl; lia].
Defined.

(** A reflectivity of 2 and a repetition count of -1 are stored and used
    without complaint, and the row index 2 of a matrix of 2 rows is only
    found after three allocations.  With the transposed pixel map the
    same grid fails earlier and otherwise: line 161 raises RuntimeError at
    the first block. *)
Lemma C4_counterexample :
  ~ (0 < reflectivity kale_bright <= 1)%Q /\
  (item3 (repNums kale_bright) < 0)%Z /\
  run (init (0, 0, 2, -1)%Z (0, 0, 0, 0)%Z 2%Q) = (inr kale_bright, []) /\
  rows_of_run (run (KaleidoExpan kale_bright tensor_2x2))
  = inr [[0; 4; 2; 0]; [8; 12; 6; 4]]%Q /\
  (Z.of_nat (rows matIn_2x3) <= at2 blkIdx_bad 1 0)%Z /\
  run (KaleidoTransform kale_pad matIn_2x3 pxIdx_2x2 blkIdx_bad [0; 1]%Z)
  = (inl IndexError, [Alloc [6; 2; 3]; Alloc [3; 2; 3]; Alloc [3; 2; 3]]) /\
  run (KaleidoTransform kale_pad matIn_2x3 pxIdx_t blkIdx_bad [0; 1]%Z)
  = (inl RuntimeError, [Alloc [6; 2; 3]; Alloc [3; 2; 3]]).
Proof.
  split; [intros [_ Hle]; vm_compute in Hle; apply Hle; reflexivity |].
  split; [reflexivity |].
  split; [reflexivity |].
  split; [vm_compute; reflexivity |].
  split; [vm_compute; discriminate |].
  split; vm_compute; reflexivity.
Qed.

(** ** Further properties of the mirror cavity *)

Section CavityProperties.
Context {V : Type} `{Intensity V}.

Lemma torch_zeros3_raises (a b c : Z) :
  (a < 0 \/ b < 0 \/ c < 0)%Z -> raises (torch_zeros3 a b c) RuntimeError.
Proof.
  intros Hneg. unfold torch_zeros3.
  destruct ((a <? 0) || (b <? 0) || (c <? 0))%Z eqn:E.
  - apply raises_raise.
  - exfalso. apply orb_false_elim in E. destruct E as [E Ec].
    apply orb_false_elim in E. destruct E as [Ea Eb].
    rewrite Z.ltb_ge in Ea, Eb, Ec. lia.
Qed.

Lemma torch_arange_raises (start stop step : Z) :
  (0 < step /\ stop < start \/ step < 0 /\ start < stop)%Z ->
  raises (torch_arange start stop step) RuntimeError.
Proof.
  intros Hc. unfold torch_arange.
  destruct ((0 <? step) && (start <=? stop) || (step <? 0) && (stop <=? start))%Z eqn:E.
  - exfalso. apply orb_prop in E. destruct E as [E | E];
      apply andb_prop in E; destruct E as [E1 E2];
      rewrite Z.ltb_lt in E1; rewrite Z.leb_le in E2; lia.
  - apply raises_raise.
Qed.

(** X1. For repetition counts [before, after >= 0] and an image of dtype
    [float32] with at least one row, [ParaMirrorCavity] returns an array with the rows of the
    image and [before + after + 1] times its columns. *)
Theorem cavity_shape (self : Kaleidoscope V) (im : TensorArg V) (before after : Z) :
  arg_dtype im = float32 ->
  (0 <= before)%Z -> (0 <= after)%Z -> 0 < rows im ->
  returns (ParaMirrorCavity self im (before, after))
    (fun out =>
       rows out = rows im /\
       Z.of_nat (cols out) = ((before + after + 1) * Z.of_nat (cols im))%Z).
Proof.
  intros Hdt Ha Hb Hh. eapply returns_weaken.
  - apply ParaMirrorCavity_returns; assumption.
  - simpl. intros out (Hr & Hc & _). split; [exact Hr |]. rewrite Hc. nia.
Qed.

(** X2. For repetition counts [before, after >= 0], [ParaMirrorCavity]
    raises RuntimeError on every image that has no row: the reshape of
    line 110 cannot infer the width (and an image of another dtype than
    [float32] does not get that far). *)
Theorem cavity_rejects_no_rows (self : Kaleidoscope V) (im : TensorArg V)
    (before after : Z) :
  (0 <= before)%Z -> (0 <= after)%Z -> rows im = 0 ->
  raises (ParaMirrorCavity self im (before, after)) RuntimeError.
Proof. intros Ha Hb Hh. apply ParaMirrorCavity_no_rows; assumption. Qed.

(** X3. For an image of dtype [float32], the row of images is symmetric
    about the original: the tiles at the same distance [d] to the left and
    to the right of position [before] hold the same values. *)
Theorem cavity_symmetric (self : Kaleidoscope V) (im : TensorArg V) (before after : Z)
    (d y x : nat) :
  arg_dtype im = float32 ->
  (Z.of_nat d <= before)%Z -> (Z.of_nat d <= after)%Z ->
  y < rows im -> x < cols im ->
  returns (ParaMirrorCavity self im (before, after))
    (fun out =>
       at2 out y (Z.to_nat (before - Z.of_nat d) * cols im + x)
       = at2 out y (Z.to_nat (before + Z.of_nat d) * cols im + x)).
Proof.
  intros Hdt Hda Hdb Hy Hx. eapply returns_weaken.
  - apply ParaMirrorCavity_returns; [exact Hdt | lia ..].
  - simpl. intros out (_ & _ & Hat).
    rewrite !Hat by (try exact Hx; lia).
    replace (Z.of_nat (Z.to_nat (before - Z.of_nat d)) - before)%Z
      with (- Z.of_nat d)%Z by lia.
    replace (Z.of_nat (Z.to_nat (before + Z.of_nat d)) - before)%Z
      with (Z.of_nat d) by lia.
    rewrite Z.odd_opp, Z.abs_opp. reflexivity.
Qed.

(** X4. For an image of dtype [float32], neighbouring tiles are mirror
    images of each other across their common edge: column [x] of tile
    [p + 1] and column [w - 1 - x] of tile [p] carry the same pixel of the
    image, each with the attenuation of its own tile. *)
Theorem cavity_adjacent_mirror (self : Kaleidoscope V) (im : TensorArg V)
    (before after : Z) (p y x : nat) :
  arg_dtype im = float32 ->
  (0 <= before)%Z -> (0 <= after)%Z -> (Z.of_nat p + 1 <= before + after)%Z ->
  y < rows im -> x < cols im ->
  returns (ParaMirrorCavity self im (before, after))
    (fun out =>
       let v := if Z.odd (Z.of_nat p - before)
                then at2 im y x else at2 im y (cols im - 1 - x) in
       at2 out y (p * cols im + (cols im - 1 - x))
       = imul v (ipow (reflectivity self) (Z.abs (Z.of_nat p - before))) /\
       at2 out y (S p * cols im + x)
       = imul v (ipow (reflectivity self) (Z.abs (Z.of_nat p + 1 - before)))).
Proof.
  intros Hdt Ha Hb Hp Hy Hx. eapply returns_weaken.
  - apply ParaMirrorCavity_returns; [assumption .. | lia].
  - intros out (_ & _ & Hat). cbv zeta.
    rewrite (Hat y p (cols im - 1 - x)), (Hat y (S p) x) by lia.
    replace (Z.of_nat (S p) - before)%Z with (Z.succ (Z.of_nat p - before)) by lia.
    rewrite Z.odd_succ, <- Z.negb_odd.
    replace (Z.succ (Z.of_nat p - before)) with (Z.of_nat p + 1 - before)%Z by lia.
    replace (cols im - 1 - (cols im - 1 - x)) with x by lia.
    destruct (Z.odd (Z.of_nat p - before)); split; reflexivity.
Qed.

(** X5. A negative [before], or an [after] below -1, is rejected with
    RuntimeError: by [torch.zeros] when the number of tiles is negative, by
    [torch.arange] (line 93) otherwise. *)
Theorem cavity_negative_counts (self : Kaleidoscope V) (im : TensorArg V)
    (before after : Z) :
  (before < 0 \/ after < -1)%Z ->
  raises (ParaMirrorCavity self im (before, after)) RuntimeError.
Proof.
  intros Hneg. unfold ParaMirrorCavity. simpl.
  destruct (Z_lt_le_dec (before + after + 1) 0) as [HT | HT].
  - apply raises_bind_l, torch_zeros3_raises. lia.
  - eapply raises_bind_r.
    { apply returns_returns_or_raises, torch_zeros3_returns; lia. }
    intros t0 _. apply raises_bind_l. unfold attenFactor. apply raises_bind_l.
    unfold attenIdx. simpl.
    destruct (Z_lt_le_dec before 0) as [Hb | Hb].
    + apply raises_bind_l, torch_arange_raises. lia.
    + eapply raises_bind_r.
      { apply returns_returns_or_raises, torch_arange_returns. lia. }
      intros towards _. apply raises_bind_l, torch_arange_raises. lia.
Qed.

(** X6. For an image of dtype [float32], whatever the repetition counts
    [before, after >= 0] and the reflectivity, the tile at position
    [before] of the returned array is the image itself. *)
Theorem cavity_centre_tile (self : Kaleidoscope V) (im : TensorArg V) (before after : Z)
    (y x : nat) :
  arg_dtype im = float32 ->
  (0 <= before)%Z -> (0 <= after)%Z -> y < rows im -> x < cols im ->
  returns (ParaMirrorCavity self im (before, after))
    (fun out => at2 out y (Z.to_nat before * cols im + x) = at2 im y x).
Proof.
  intros Hdt Ha Hb Hy Hx. eapply returns_weaken.
  - apply ParaMirrorCavity_returns; [assumption .. | lia].
  - simpl. intros out (_ & _ & Hat). rewrite Hat by lia.
    replace (Z.of_nat (Z.to_nat before) - before)%Z with 0%Z by lia.
    simpl. rewrite ipow_0, imul_1_r. reflexivity.
Qed.
End CavityProperties.

(** ** Further properties of the expansion *)

Section ExpansionProperties.
Context {V : Type} `{Intensity V}.

Lemma unpack2_image2 (t : TensorN V) (h w : nat) :
  shape (squeeze t) = [h; w] ->
  returns (unpack2 (squeeze t)) (fun im => im = image2 t h w).
Proof.
  intros Hs. unfold unpack2. rewrite Hs. apply returns_ret. reflexivity.
Qed.

(** Every pixel of the expansion: tile [(i, j)] is the padded image,
    mirrored along each axis by the parity of its distance from the
    original, and attenuated once per axis. *)
Lemma KaleidoExpan_pixels (self : Kaleidoscope V) (t : TensorN V) (h w : nat) :
  shape (squeeze t) = [h; w] ->
  nonneg4 (padding self) -> nonneg4 (repNums self) ->
  0 < rows (paddedImage self (image2 t h w)) ->
  0 < cols (paddedImage self (image2 t h w)) ->
  returns (KaleidoExpan self t)
    (fun out =>
       let P := paddedImage self (image2 t h w) in
       rows out = Z.to_nat (item0 (repNums self) + item1 (repNums self) + 1) * rows P /\
       cols out = Z.to_nat (item2 (repNums self) + item3 (repNums self) + 1) * cols P /\
       forall i j y x,
         i < Z.to_nat (item0 (repNums self) + item1 (repNums self) + 1) ->
         j < Z.to_nat (item2 (repNums self) + item3 (repNums self) + 1) ->
         y < rows P -> x < cols P ->
         at2 out (i * rows P + y) (j * cols P + x)
         = imul
             (imul
                (at2 P
                   (if Z.odd (Z.of_nat i - item0 (repNums self))
                    then rows P - 1 - y else y)
                   (if Z.odd (Z.of_nat j - item2 (repNums self))
                    then cols P - 1 - x else x))
                (ipow (reflectivity self)
                   (Z.abs (Z.of_nat j - item2 (repNums self)))))
             (ipow (reflectivity self)
                (Z.abs (Z.of_nat i - item0 (repNums self))))).
Proof.
  intros Hs (Hp0 & Hp1 & Hp2 & Hp3) (Hr0 & Hr1 & Hr2 & Hr3) Hh Hw.
  simpl in Hh, Hw. unfold KaleidoExpan.
  eapply returns_bind; [apply (unpack2_image2 _ h w Hs) |].
  intros im ->. simpl rows. simpl cols.
  eapply returns_bind; [apply torch_zeros2_returns; lia |].
  intros z (Hzr & Hzc & Hz).
  eapply returns_bind.
  { apply slice_assign2_returns; simpl; rewrite ?Hzr, ?Hzc; lia. }
  intros padded (Hpr & Hpc & Hpad). simpl in Hpad.
  assert (HP : forall y x, at2 padded y x = at2 (paddedImage self (image2 t h w)) y x).
  { intros y x. rewrite Hpad, Hz. reflexivity. }
  rewrite Hzr in Hpr. rewrite Hzc in Hpc.
  eapply returns_bind.
  { apply ParaMirrorCavity_returns; [reflexivity | assumption .. |]. simpl.
    rewrite Hpr. lia. }
  intros rowMirror (Hmr & Hmc & Hrow). simpl in Hmr, Hmc, Hrow.
  eapply returns_bind.
  { apply ParaMirrorCavity_returns; [reflexivity | assumption .. |]. simpl.
    rewrite Hmc, Hpc. nia. }
  intros fullMirror (Hfr & Hfc & Hfull). simpl in Hfr, Hfc, Hfull.
  apply returns_ret. simpl.
  rewrite Hfc, Hfr, Hmr, Hmc, Hpr, Hpc.
  split; [reflexivity | split; [reflexivity |]].
  intros i j y x Hi Hj Hy Hx.
  rewrite Hmr, Hpr in Hfull. rewrite Hpc in Hrow.
  rewrite Hfull by assumption.
  destruct (Z.odd (Z.of_nat i - item0 (repNums self)));
    rewrite Hrow by assumption;
    destruct (Z.odd (Z.of_nat j - item2 (repNums self)));
    rewrite HP; reflexivity.
Qed.
(** X7. For a squeezed input of shape [(h, w)], non-negative padding and
    repetition counts and a padded image that is not empty, pixel [(y, x)]
    of tile [(i, j)] of the array [KaleidoExpan] returns is the pixel of
    the padded image with the row index reversed when [i - up] is odd and
    the column index reversed when [j - left] is odd, multiplied by
    [reflectivity ** |j - left|] and then by [reflectivity ** |i - up|]. *)
Theorem expansion_pixels (self : Kaleidoscope V) (original_image : TensorN V)
    (h w i j y x : nat) :
  shape (squeeze original_image) = [h; w] ->
  nonneg4 (padding self) -> nonneg4 (repNums self) ->
  (Z.of_nat i <= item0 (repNums self) + item1 (repNums self))%Z ->
  (Z.of_nat j <= item2 (repNums self) + item3 (repNums self))%Z ->
  y < rows (paddedImage self (image2 original_image h w)) ->
  x < cols (paddedImage self (image2 original_image h w)) ->
  returns (KaleidoExpan self original_image)
    (fun out =>
       let P := paddedImage self (image2 original_image h w) in
       at2 out (i * rows P + y) (j * cols P + x)
       = imul
           (imul
              (at2 P
                 (if Z.odd (Z.of_nat i - item0 (repNums self))
                  then rows P - 1 - y else y)
                 (if Z.odd (Z.of_nat j - item2 (repNums self))
                  then cols P - 1 - x else x))
              (ipow (reflectivity self)
                 (Z.abs (Z.of_nat j - item2 (repNums self)))))
           (ipow (reflectivity self)
              (Z.abs (Z.of_nat i - item0 (repNums self))))).
Proof.
  intros Hs Hpad Hrep Hi Hj Hy Hx.
  pose proof Hrep as (Hr0 & Hr1 & Hr2 & Hr3).
  eapply returns_weaken.
  - apply (KaleidoExpan_pixels self original_image h w); try assumption; lia.
  - cbv zeta. intros out (_ & _ & Hat). apply Hat; try assumption; lia.
Qed.

(** X8. The original survives in the middle of the expansion: in tile
    [(up, left)], behind the padding offset [(top, left)], the returned
    array holds the pixels of the input unchanged, whatever the
    reflectivity. *)
Theorem expansion_centre (self : Kaleidoscope V) (original_image : TensorN V)
    (h w y x : nat) :
  shape (squeeze original_image) = [h; w] ->
  nonneg4 (padding self) -> nonneg4 (repNums self) ->
  y < h -> x < w ->
  returns (KaleidoExpan self original_image)
    (fun out =>
       let P := paddedImage self (image2 original_image h w) in
       at2 out
         (Z.to_nat (item0 (repNums self)) * rows P
          + (Z.to_nat (item0 (padding self)) + y))
         (Z.to_nat (item2 (repNums self)) * cols P
          + (Z.to_nat (item2 (padding self)) + x))
       = flat original_image (y * w + x)).
Proof.
  intros Hs Hpad Hrep Hy Hx.
  pose proof Hpad as (Hp0 & Hp1 & Hp2 & Hp3).
  pose proof Hrep as (Hr0 & Hr1 & Hr2 & Hr3).
  eapply returns_weaken.
  - apply (KaleidoExpan_pixels self original_image h w); try assumption; simpl; lia.
  - cbv zeta. intros out (_ & _ & Hat).
    rewrite Hat by (simpl; lia).
    replace (Z.of_nat (Z.to_nat (item0 (repNums self))) - item0 (repNums self))%Z
      with 0%Z by lia.
    replace (Z.of_nat (Z.to_nat (item2 (repNums self))) - item2 (repNums self))%Z
      with 0%Z by lia.
    change (Z.odd 0) with false. change (Z.abs 0) with 0%Z. cbv iota.
    rewrite ipow_0, !imul_1_r. simpl.
    rewrite (proj2 (Nat.leb_le _ _)) by lia.
    rewrite (proj2 (Nat.ltb_lt _ _)) by lia.
    rewrite (proj2 (Nat.leb_le _ _)) by lia.
    rewrite (proj2 (Nat.ltb_lt _ _)) by lia.
    simpl. f_equal. f_equal; lia.
Qed.

(** X9. Without repetitions, [KaleidoExpan] only pads: with the
    repetition counts (0, 0, 0, 0), non-negative padding and a padded
    image that has at least one row and one column, it returns the image
    at the offset [(top, left)] of a canvas of zeros of the padded
    size. *)
Theorem expansion_without_copies (self : Kaleidoscope V) (original_image : TensorN V)
    (h w : nat) :
  shape (squeeze original_image) = [h; w] ->
  nonneg4 (padding self) -> repNums self = (0, 0, 0, 0)%Z ->
  0 < rows (paddedImage self (image2 original_image h w)) ->
  0 < cols (paddedImage self (image2 original_image h w)) ->
  returns (KaleidoExpan self original_image)
    (fun out =>
       let P := paddedImage self (image2 original_image h w) in
       rows out = rows P /\ cols out = cols P /\
       forall y x, y < rows P -> x < cols P -> at2 out y x = at2 P y x).
Proof.
  intros Hs Hpad Hrep Hh Hw.
  eapply returns_weaken.
  - apply (KaleidoExpan_pixels self original_image h w); try assumption.
    rewrite Hrep. repeat split; simpl; lia.
  - cbv zeta. rewrite Hrep. simpl. intros out (Hr & Hc & Hat).
    split; [lia | split; [lia |]].
    intros y x Hy Hx. specialize (Hat 0 0 y x). simpl in Hat.
    rewrite Hat by (try assumption; lia).
    rewrite ipow_0, !imul_1_r. reflexivity.
Qed.
(** X17. The expansion is symmetric about the original on both axes: the
    tiles [di] rows above and below and [dj] columns left and right of the
    tile [(up, left)] hold the same values. *)
Theorem expansion_symmetric (self : Kaleidoscope V) (original_image : TensorN V)
    (h w di dj y x : nat) :
  shape (squeeze original_image) = [h; w] ->
  nonneg4 (padding self) ->
  (Z.of_nat di <= item0 (repNums self))%Z -> (Z.of_nat di <= item1 (repNums self))%Z ->
  (Z.of_nat dj <= item2 (repNums self))%Z -> (Z.of_nat dj <= item3 (repNums self))%Z ->
  y < rows (paddedImage self (image2 original_image h w)) ->
  x < cols (paddedImage self (image2 original_image h w)) ->
  returns (KaleidoExpan self original_image)
    (fun out =>
       let P := paddedImage self (image2 original_image h w) in
       at2 out (Z.to_nat (item0 (repNums self) - Z.of_nat di) * rows P + y)
               (Z.to_nat (item2 (repNums self) - Z.of_nat dj) * cols P + x)
       = at2 out (Z.to_nat (item0 (repNums self) + Z.of_nat di) * rows P + y)
                 (Z.to_nat (item2 (repNums self) + Z.of_nat dj) * cols P + x)).
Proof.
  intros Hs Hpad Hu Hd Hl Hr Hy Hx.
  eapply returns_weaken.
  - apply (KaleidoExpan_pixels self original_image h w); try assumption;
      [repeat split; lia | lia | lia].
  - cbv zeta. intros out (_ & _ & Hat).
    rewrite !Hat by (try assumption; lia).
    replace (Z.of_nat (Z.to_nat (item0 (repNums self) - Z.of_nat di))
             - item0 (repNums self))%Z with (- Z.of_nat di)%Z by lia.
    replace (Z.of_nat (Z.to_nat (item0 (repNums self) + Z.of_nat di))
             - item0 (repNums self))%Z with (Z.of_nat di) by lia.
    replace (Z.of_nat (Z.to_nat (item2 (repNums self) - Z.of_nat dj))
             - item2 (repNums self))%Z with (- Z.of_nat dj)%Z by lia.
    replace (Z.of_nat (Z.to_nat (item2 (repNums self) + Z.of_nat dj))
             - item2 (repNums self))%Z with (Z.of_nat dj) by lia.
    rewrite !Z.odd_opp, !Z.abs_opp. reflexivity.
Qed.
End ExpansionProperties.

(** ** Further properties of the block transform *)

Lemma norm_index_none (n : nat) (k : Z) :
  norm_index n k = None <-> (Z.of_nat n <= k \/ k < - Z.of_nat n)%Z.
Proof.
  split; [| apply norm_index_out_of_range].
  unfold norm_index.
  destruct (0 <=? k)%Z eqn:E1, (k <? Z.of_nat n)%Z eqn:E2,
    (- Z.of_nat n <=? k)%Z eqn:E3, (k <? 0)%Z eqn:E4; simpl; try discriminate;
    repeat match goal with
      | E : (_ <=? _)%Z = true |- _ => apply Z.leb_le in E
      | E : (_ <=? _)%Z = false |- _ => apply Z.leb_gt in E
      | E : (_ <? _)%Z = true |- _ => apply Z.ltb_lt in E
      | E : (_ <? _)%Z = false |- _ => apply Z.ltb_ge in E
      end; intros _; lia.
Qed.

(** Inside [-n, n) an index denotes the position [k mod n]. *)
Lemma norm_index_mod (n : nat) (k : Z) :
  (- Z.of_nat n <= k < Z.of_nat n)%Z -> norm_index n k = Some (Z.to_nat (k mod Z.of_nat n)).
Proof.
  intros Hk. unfold norm_index.
  destruct (0 <=? k)%Z eqn:E1.
  - apply Z.leb_le in E1.
    destruct (k <? Z.of_nat n)%Z eqn:E2; [| apply Z.ltb_ge in E2; lia].
    simpl. rewrite Z.mod_small by lia. reflexivity.
  - apply Z.leb_gt in E1. simpl.
    destruct (- Z.of_nat n <=? k)%Z eqn:E3; [| apply Z.leb_gt in E3; lia].
    destruct (k <? 0)%Z eqn:E4; [| apply Z.ltb_ge in E4; lia].
    simpl. f_equal. f_equal.
    rewrite <- (Z.mod_add k 1 (Z.of_nat n)) by lia.
    rewrite Z.mul_1_l, Z.mod_small by lia. reflexivity.
Qed.

Lemma bind_ext {A B} (m : M A) (k1 k2 : A -> M B) (log : list event) :
  (forall a log', k1 a log' = k2 a log') -> bind m k1 log = bind m k2 log.
Proof.
  intros Hk. unfold bind. destruct (m log) as [[e | a] log']; [reflexivity | apply Hk].
Qed.

Lemma bind_cong_l {A B} (m1 m2 : M A) (k : A -> M B) (log : list event) :
  m1 log = m2 log -> bind m1 k log = bind m2 k log.
Proof. intros Hm. unfold bind. rewrite Hm. reflexivity. Qed.

Lemma norm_index_wrap (n : nat) (k : Z) :
  (- Z.of_nat n <= k < 0)%Z -> norm_index n (k + Z.of_nat n) = norm_index n k.
Proof.
  intros Hk. rewrite (norm_index_mod n k), norm_index_mod by lia.
  replace (k + Z.of_nat n)%Z with (k + 1 * Z.of_nat n)%Z by lia.
  rewrite Z.mod_add by lia. reflexivity.
Qed.

Lemma foldM_ext {S B} (f g : S -> B -> M S) (l : list B) :
  (forall s b log, b ∈ l -> f s b log = g s b log) ->
  forall s log, foldM f l s log = foldM g l s log.
Proof.
  induction l as [| b l IH]; intros Hfg s log; simpl; [reflexivity |].
  unfold bind. rewrite Hfg by left.
  destruct (g s b log) as [[e | s'] log']; [reflexivity |].
  apply IH. intros s'' b' log'' Hin. apply Hfg. right. exact Hin.
Qed.

Lemma getrow_returns_or_raises_len {A} (m : Tensor2 A) (k : Z) :
  returns_or_raises (getrow m k) IndexError (fun row => len1 row = cols m).
Proof.
  unfold getrow. eapply returns_or_raises_bind; [apply index_dim_returns_or_raises |].
  intros r _. apply returns_returns_or_raises, returns_ret. reflexivity.
Qed.

Lemma take_raises {A} (src : Tensor1 A) (idx : Tensor2 Z) (y x : nat) :
  y < rows idx -> x < cols idx ->
  norm_index (len1 src) (at2 idx y x) = None ->
  raises (take src int64 (flat_view idx)) IndexError.
Proof.
  intros Hy Hx Hnone. unfold take. rewrite bool_decide_eq_true_2 by reflexivity.
  destruct (forallb _ _) eqn:E; [| apply raises_raise].
  exfalso. rewrite forallb_forall in E.
  assert (Hin : In (y * cols idx + x) (seq 0 (len1 (flat_view idx)))).
  { apply in_seq. simpl. nia. }
  specialize (E _ Hin). apply bool_decide_eq_true in E.
  simpl in E. rewrite flat2_decode in E by exact Hx.
  rewrite Hnone in E. destruct E as [v Hv]. discriminate.
Qed.

Lemma gatherBlock_bad_pixel {A} (matIn : Tensor2 A) (pxIdx : TensorArg Z) (k : Z)
    (y x : nat) :
  flat_long pxIdx ->
  y < rows pxIdx -> x < cols pxIdx ->
  norm_index (cols matIn) (at2 pxIdx y x) = None ->
  raises (gatherBlock matIn pxIdx k) IndexError.
Proof.
  intros [Hflat Hlong] Hy Hx Hnone. unfold gatherBlock. rewrite Hlong.
  eapply raises_bind_r;
    [apply returns_returns_or_raises, view_flat_returns, Hflat |].
  intros linIdx ->.
  eapply raises_bind_r; [apply getrow_returns_or_raises_len |].
  intros row Hlen. apply raises_bind_l.
  apply (take_raises _ _ y x); [assumption .. |]. rewrite Hlen. exact Hnone.
Qed.

Lemma gatherBlock_bad_row {A} (matIn : Tensor2 A) (pxIdx : TensorArg Z) (k : Z) :
  flattens pxIdx = true ->
  norm_index (rows matIn) k = None -> raises (gatherBlock matIn pxIdx k) IndexError.
Proof.
  intros Hflat Hnone. unfold gatherBlock.
  eapply raises_bind_r;
    [apply returns_returns_or_raises, view_flat_returns, Hflat |].
  intros linIdx _. unfold getrow, index_dim. rewrite Hnone.
  apply raises_bind_l, raises_bind_l, raises_raise.
Qed.

(** Line 162 on a pixel map of another dtype than [int64]. *)
Lemma gatherBlock_dtype {A} (matIn : Tensor2 A) (pxIdx : TensorArg Z) (k : Z) :
  flattens pxIdx = true -> arg_dtype pxIdx <> int64 ->
  (0 <= k < Z.of_nat (rows matIn))%Z ->
  raises (gatherBlock matIn pxIdx k) RuntimeError.
Proof.
  intros Hflat Hlong Hk. unfold gatherBlock.
  eapply raises_bind_r;
    [apply returns_returns_or_raises, view_flat_returns, Hflat |].
  intros linIdx _.
  eapply raises_bind_r;
    [apply returns_returns_or_raises, getrow_returns, Hk |].
  intros row _. apply raises_bind_l, take_dtype, Hlong.
Qed.

Lemma gatherBlock_same_row {A} (matIn : Tensor2 A) (pxIdx : TensorArg Z) (k k' : Z)
    (log : list event) :
  norm_index (rows matIn) k = norm_index (rows matIn) k' ->
  gatherBlock matIn pxIdx k log = gatherBlock matIn pxIdx k' log.
Proof.
  intros Hk. unfold gatherBlock, getrow, index_dim. rewrite Hk. reflexivity.
Qed.

Lemma view3_2_returns_or_raises {A} (t : Tensor3 A) (known : Z) :
  returns_or_raises (view3_2 t known) RuntimeError (fun _ => True).
Proof.
  unfold view3_2. destruct (known <? 0)%Z.
  - apply raises_returns_or_raises, raises_raise.
  - destruct (infer_size _ _).
    + apply returns_returns_or_raises, returns_ret. exact I.
    + apply raises_returns_or_raises, raises_raise.
Qed.

Lemma py_range_up_head (n : nat) : 0 < n -> 0%Z ∈ py_range 0 (Z.of_nat n) 1.
Proof.
  intros Hn. rewrite py_range_up, list_elem_of_In, in_map_iff.
  exists 0. split; [reflexivity | apply in_seq; lia].
Qed.

Section TransformProperties.
Context {V : Type} `{Intensity V}.

(** The general form of a block: indices inside [[-n, n)] are taken
    modulo [n]. *)
Lemma gatherBlock_wraps (matIn : Tensor2 V) (pxIdx : TensorArg Z) (k : Z) :
  flat_long pxIdx ->
  (- Z.of_nat (rows matIn) <= k < Z.of_nat (rows matIn))%Z ->
  (forall y x, y < rows pxIdx -> x < cols pxIdx ->
     (- Z.of_nat (cols matIn) <= at2 pxIdx y x < Z.of_nat (cols matIn))%Z) ->
  returns (gatherBlock matIn pxIdx k)
    (fun blk => rows blk = rows pxIdx /\ cols blk = cols pxIdx /\
       forall y x, y < rows pxIdx -> x < cols pxIdx ->
         at2 blk y x
         = at2 matIn (Z.to_nat (k mod Z.of_nat (rows matIn)))
             (Z.to_nat (at2 pxIdx y x mod Z.of_nat (cols matIn)))).
Proof.
  intros [Hflat Hlong] Hk Hpx. unfold gatherBlock. rewrite Hlong.
  eapply returns_bind; [apply view_flat_returns, Hflat |].
  intros linIdx ->.
  eapply returns_bind.
  { unfold getrow. eapply returns_bind.
    - unfold index_dim. rewrite norm_index_mod by exact Hk.
      apply (returns_ret _ (fun i => i = Z.to_nat (k mod Z.of_nat (rows matIn)))).
      reflexivity.
    - intros r ->.
      apply (returns_ret _
               (fun row => len1 row = cols matIn /\
                  forall x, at1 row x
                            = at2 matIn (Z.to_nat (k mod Z.of_nat (rows matIn))) x)).
      split; reflexivity. }
  intros row [Hlen Hrow].
  eapply returns_bind.
  { unfold take. rewrite bool_decide_eq_true_2 by reflexivity.
    assert (Hall : forallb
              (fun L => bool_decide (is_Some (norm_index (len1 row)
                                                (at1 (flat_view pxIdx) L))))
              (seq 0 (len1 (flat_view pxIdx))) = true).
    { apply forallb_forall. intros L HL. apply in_seq in HL. simpl in HL.
      apply bool_decide_eq_true. simpl. unfold flat2.
      assert (Hc : 0 < cols pxIdx) by nia.
      rewrite Hlen, norm_index_mod; [eexists; reflexivity |].
      apply Hpx.
      - apply Nat.Div0.div_lt_upper_bound. lia.
      - apply Nat.mod_upper_bound. lia. }
    rewrite Hall.
    apply (returns_ret _
             (fun l => forall y x, y < rows pxIdx -> x < cols pxIdx ->
                at1 l (y * cols pxIdx + x)
                = at1 row (Z.to_nat (at2 pxIdx y x mod Z.of_nat (cols matIn))))).
    simpl. intros y x Hy Hx. rewrite flat2_decode by exact Hx.
    rewrite Hlen, norm_index_mod by (apply Hpx; assumption). reflexivity. }
  intros l Hl. apply returns_ret. simpl.
  split; [reflexivity | split; [reflexivity |]].
  intros y x Hy Hx. rewrite Hl, Hrow by assumption. reflexivity.
Qed.

(** X10. On a grid with at least one block, an entry outside [[-N, N)],
    [N] the number of columns of [matIn], of a pixel map of dtype [int64]
    that [view] can flatten makes [KaleidoTransform] raise IndexError,
    whatever [blkIdx] holds and whatever [centerBlk] is (the padding not
    negative). *)
Theorem transform_rejects_pixel_index (self : Kaleidoscope V) (matIn : Tensor2 V)
    (pxIdx : TensorArg Z) (blkIdx : Tensor2 Z) (centerBlk : list Z) (y x : nat) :
  flat_long pxIdx ->
  nonneg4 (padding self) ->
  0 < rows blkIdx -> 0 < cols blkIdx ->
  y < rows pxIdx -> x < cols pxIdx ->
  (Z.of_nat (cols matIn) <= at2 pxIdx y x \/ at2 pxIdx y x < - Z.of_nat (cols matIn))%Z ->
  raises (KaleidoTransform self matIn pxIdx blkIdx centerBlk) IndexError.
Proof.
  intros Hmap (Hp0 & Hp1 & Hp2 & Hp3) Hgh Hgw Hy Hx Hbad.
  assert (Hbh : (0 <= blk_h_pad self pxIdx)%Z) by (unfold blk_h_pad; lia).
  assert (Hbw : (0 <= blk_w_pad self pxIdx)%Z) by (unfold blk_w_pad; lia).
  assert (Hblock : forall i t j,
            raises (placeBlock self matIn pxIdx blkIdx centerBlk i t j) IndexError).
  { intros i t j. unfold placeBlock. apply raises_bind_l.
    apply (gatherBlock_bad_pixel _ _ _ y x); [assumption .. |].
    apply norm_index_none, Hbad. }
  assert (Hrow : forall T i,
            raises (buildBlkRow self matIn pxIdx blkIdx centerBlk T i) IndexError).
  { intros T i. unfold buildBlkRow.
    eapply raises_bind_r.
    { apply returns_returns_or_raises, torch_zeros3_returns; lia. }
    intros t0 _. apply raises_bind_l.
    apply (foldM_raises _ (fun _ => True) IndexError 0%Z).
    - apply py_range_up_head, Hgw.
    - exact I.
    - intros t b _ _. apply raises_returns_or_raises, Hblock.
    - intros t _. apply Hblock. }
  unfold KaleidoTransform.
  eapply raises_bind_r.
  { apply returns_returns_or_raises, torch_zeros3_returns; lia. }
  intros T0 _. apply raises_bind_l.
  apply (foldM_raises _ (fun _ => True) IndexError 0%Z).
  - apply py_range_up_head, Hgh.
  - exact I.
  - intros T b _ _. apply raises_returns_or_raises, Hrow.
  - intros T _. apply Hrow.
Qed.

Lemma buildBlkRow_bad_row (self : Kaleidoscope V) (matIn : Tensor2 V)
    (pxIdx : TensorArg Z) (blkIdx : Tensor2 Z) (centerBlk : list Z) (i j : nat)
    (T : Tensor3 V) :
  flat_long pxIdx ->
  nonneg4 (padding self) ->
  j < cols blkIdx ->
  norm_index (rows matIn) (at2 blkIdx i j) = None ->
  raises (buildBlkRow self matIn pxIdx blkIdx centerBlk T (Z.of_nat i)) IndexError.
Proof.
  intros Hmap Hpad Hj Hbad. unfold buildBlkRow.
  pose proof Hpad as (Hp0 & Hp1 & Hp2 & Hp3).
  assert (Hbh : (0 <= blk_h_pad self pxIdx)%Z) by (unfold blk_h_pad; lia).
  assert (Hbw : (0 <= blk_w_pad self pxIdx)%Z) by (unfold blk_w_pad; lia).
  eapply raises_bind_r.
  { apply returns_returns_or_raises, torch_zeros3_returns; lia. }
  intros t0 (Ht0 & Ht1 & Ht2 & _). rewrite Nat2Z.id in Ht1.
  apply raises_bind_l.
  apply (foldM_raises _
           (fun t => dim0 t = Z.to_nat (blk_h_pad self pxIdx) /\
                     dim1 t = cols blkIdx /\
                     dim2 t = Z.to_nat (blk_w_pad self pxIdx))
           IndexError (Z.of_nat j)).
  - apply elem_of_py_range_up. exists j. split; [reflexivity | exact Hj].
  - repeat split; assumption.
  - intros t b Hb Ht. apply elem_of_py_range_up in Hb. destruct Hb as (j' & -> & Hj').
    apply placeBlock_returns_or_raises; assumption.
  - intros t _. unfold placeBlock. rewrite !Nat2Z.id.
    apply raises_bind_l, gatherBlock_bad_row; [apply Hmap | exact Hbad].
Qed.

(** X11. With a pixel map of dtype [int64] that [view] can flatten,
    non-negative padding and padded cells of height at least 1,
    an entry of [blkIdx] outside [[-M, M)], [M] the number of rows of
    [matIn], makes [KaleidoTransform] raise IndexError: indices are
    neither clamped nor wrapped beyond one period. *)
Theorem transform_rejects_row_index (self : Kaleidoscope V) (matIn : Tensor2 V)
    (pxIdx : TensorArg Z) (blkIdx : Tensor2 Z) (centerBlk : list Z) (i j : nat) :
  flat_long pxIdx ->
  nonneg4 (padding self) ->
  (0 < blk_h_pad self pxIdx)%Z ->
  i < rows blkIdx -> j < cols blkIdx ->
  (Z.of_nat (rows matIn) <= at2 blkIdx i j \/ at2 blkIdx i j < - Z.of_nat (rows matIn))%Z ->
  raises (KaleidoTransform self matIn pxIdx blkIdx centerBlk) IndexError.
Proof.
  intros Hmap Hpad Hbh Hi Hj Hbad.
  pose proof Hpad as (Hp0 & Hp1 & Hp2 & Hp3).
  assert (Hbw : (0 <= blk_w_pad self pxIdx)%Z) by (unfold blk_w_pad; lia).
  unfold KaleidoTransform.
  eapply raises_bind_r.
  { apply returns_returns_or_raises, torch_zeros3_returns; lia. }
  intros T0 (_ & HT1 & _). rewrite Nat2Z.id in HT1.
  apply raises_bind_l.
  apply (foldM_raises _ (fun T' => dim1 T' = rows blkIdx) IndexError (Z.of_nat i)).
  - apply elem_of_py_range_up. exists i. split; [reflexivity | exact Hi].
  - exact HT1.
  - intros T' b Hb HT'. apply elem_of_py_range_up in Hb. destruct Hb as (i' & -> & Hi').
    apply buildBlkRow_returns_or_raises; assumption.
  - intros T' _. apply (buildBlkRow_bad_row _ _ _ _ _ i j); try assumption.
    apply norm_index_none, Hbad.
Qed.

(** X12. Negative row indices count from the end: an entry [k] of
    [blkIdx] with [-M <= k < 0] can be replaced by [k + M] without
    changing what [KaleidoTransform] computes. *)
Theorem transform_wraps_row_index (self : Kaleidoscope V) (matIn : Tensor2 V)
    (pxIdx : TensorArg Z) (blkIdx blkIdx' : Tensor2 Z) (centerBlk : list Z)
    (log : list event) :
  rows blkIdx' = rows blkIdx -> cols blkIdx' = cols blkIdx ->
  (forall i j, i < rows blkIdx -> j < cols blkIdx ->
     at2 blkIdx' i j = at2 blkIdx i j \/
     ((- Z.of_nat (rows matIn) <= at2 blkIdx i j < 0)%Z /\
      at2 blkIdx' i j = (at2 blkIdx i j + Z.of_nat (rows matIn))%Z)) ->
  KaleidoTransform self matIn pxIdx blkIdx' centerBlk log
  = KaleidoTransform self matIn pxIdx blkIdx centerBlk log.
Proof.
  intros Hrows Hcols Hwrap.
  assert (Hnorm : forall i j, i < rows blkIdx -> j < cols blkIdx ->
            norm_index (rows matIn) (at2 blkIdx' i j)
            = norm_index (rows matIn) (at2 blkIdx i j)).
  { intros i j Hi Hj. destruct (Hwrap i j Hi Hj) as [-> | [Hk ->]]; [reflexivity |].
    apply norm_index_wrap, Hk. }
  unfold KaleidoTransform. rewrite Hrows, Hcols.
  apply bind_ext. intros T log1. apply bind_cong_l.
  apply foldM_ext. intros T' b log2 Hb.
  apply elem_of_py_range_up in Hb. destruct Hb as (i & -> & Hi).
  unfold buildBlkRow. rewrite Hcols.
  apply bind_ext. intros t log3. apply bind_cong_l.
  apply foldM_ext. intros t' b log4 Hb.
  apply elem_of_py_range_up in Hb. destruct Hb as (j & -> & Hj).
  unfold placeBlock. apply bind_cong_l. rewrite !Nat2Z.id.
  apply gatherBlock_same_row, Hnorm; assumption.
Qed.

(** With index maps in range, a block is placed unless line 161 or 162
    refuses the pixel map. *)
Lemma placeBlock_in_range (self : Kaleidoscope V) (matIn : Tensor2 V)
    (pxIdx : TensorArg Z) (blkIdx : Tensor2 Z) (centerBlk : list Z) (i j : nat)
    (t : Tensor3 V) :
  nonneg4 (padding self) ->
  in_range pxIdx (cols matIn) -> in_range blkIdx (rows matIn) ->
  i < rows blkIdx -> j < cols blkIdx ->
  dim0 t = Z.to_nat (blk_h_pad self pxIdx) ->
  dim1 t = cols blkIdx ->
  dim2 t = Z.to_nat (blk_w_pad self pxIdx) ->
  returns_or_raises
    (placeBlock self matIn pxIdx blkIdx centerBlk (Z.of_nat i) t (Z.of_nat j))
    RuntimeError
    (fun t' => dim0 t' = dim0 t /\ dim1 t' = dim1 t /\ dim2 t' = dim2 t).
Proof.
  intros Hpad Hpx Hblk Hi Hj H0 H1 H2.
  destruct (flattens pxIdx) eqn:Hflat.
  - destruct (decide (arg_dtype pxIdx = int64)) as [Hlong | Hlong].
    + apply returns_returns_or_raises. eapply returns_weaken.
      * apply placeBlock_returns; try assumption. split; assumption.
      * simpl. intros t' (H0' & H1' & H2' & _). repeat split; assumption.
    + apply raises_returns_or_raises. unfold placeBlock. rewrite !Nat2Z.id.
      apply raises_bind_l, gatherBlock_dtype;
        [exact Hflat | exact Hlong | apply Hblk; assumption].
  - apply raises_returns_or_raises. unfold placeBlock.
    apply raises_bind_l, gatherBlock_strides, Hflat.
Qed.

Lemma row_blocks_run (self : Kaleidoscope V) (matIn : Tensor2 V)
    (pxIdx : TensorArg Z) (blkIdx : Tensor2 Z) (centerBlk : list Z) (i : nat)
    (t0 : Tensor3 V) :
  nonneg4 (padding self) ->
  in_range pxIdx (cols matIn) -> in_range blkIdx (rows matIn) ->
  i < rows blkIdx ->
  dim0 t0 = Z.to_nat (blk_h_pad self pxIdx) ->
  dim1 t0 = cols blkIdx ->
  dim2 t0 = Z.to_nat (blk_w_pad self pxIdx) ->
  returns_or_raises
    (foldM (placeBlock self matIn pxIdx blkIdx centerBlk (Z.of_nat i))
       (py_range 0 (Z.of_nat (cols blkIdx)) 1) t0)
    RuntimeError
    (fun t => dim0 t = dim0 t0).
Proof.
  intros Hpad Hpx Hblk Hi H0 H1 H2.
  eapply spec_weaken.
  - apply (foldM_returns_or_raises _
             (fun t => dim0 t = Z.to_nat (blk_h_pad self pxIdx) /\
                       dim1 t = cols blkIdx /\
                       dim2 t = Z.to_nat (blk_w_pad self pxIdx))).
    + repeat split; assumption.
    + intros t b Hb (Ht0 & Ht1 & Ht2).
      apply elem_of_py_range_up in Hb. destruct Hb as (j & -> & Hj).
      eapply spec_weaken.
      * apply placeBlock_in_range; eassumption.
      * intros r [Hr | (t' & Hr & H0' & H1' & H2')]; [left; exact Hr | right].
        exists t'. split; [exact Hr |]. rewrite H0', H1', H2'.
        repeat split; assumption.
  - intros r [Hr | (t & Hr & Ht0 & _)]; [left; exact Hr | right].
    exists t. split; [exact Hr | congruence].
Qed.

(** X13. With index maps in range and non-negative padding,
    [KaleidoTransform] raises RuntimeError on every degenerate grid: when
    the grid has no column or the padded cells have width 0, and when the
    grid has a row but the padded cells have height 0. *)
Theorem transform_rejects_empty_grid (self : Kaleidoscope V) (matIn : Tensor2 V)
    (pxIdx : TensorArg Z) (blkIdx : Tensor2 Z) (centerBlk : list Z) :
  nonneg4 (padding self) ->
  in_range pxIdx (cols matIn) -> in_range blkIdx (rows matIn) ->
  (Z.of_nat (cols blkIdx) * blk_w_pad self pxIdx = 0)%Z
  \/ (0 < rows blkIdx /\ blk_h_pad self pxIdx = 0%Z) ->
  raises (KaleidoTransform self matIn pxIdx blkIdx centerBlk) RuntimeError.
Proof.
  intros Hpad Hpx Hblk Hdeg.
  pose proof Hpad as (Hp0 & Hp1 & Hp2 & Hp3).
  assert (Hbh : (0 <= blk_h_pad self pxIdx)%Z) by (unfold blk_h_pad; lia).
  assert (Hbw : (0 <= blk_w_pad self pxIdx)%Z) by (unfold blk_w_pad; lia).
  assert (Hrow : forall T i,
            i < rows blkIdx -> dim1 T = rows blkIdx ->
            returns_or_raises
              (buildBlkRow self matIn pxIdx blkIdx centerBlk T (Z.of_nat i))
              RuntimeError (fun T' => dim1 T' = rows blkIdx)).
  { intros T i Hi HT. unfold buildBlkRow.
    eapply returns_or_raises_bind.
    { apply returns_returns_or_raises, torch_zeros3_returns; lia. }
    intros t0 (Ht0 & Ht1 & Ht2 & _). rewrite Nat2Z.id in Ht1.
    eapply returns_or_raises_bind.
    { apply row_blocks_run; assumption. }
    intros t _.
    eapply returns_or_raises_bind; [apply view3_2_returns_or_raises |].
    intros rowImage _.
    eapply returns_or_raises_bind.
    { apply returns_returns_or_raises, index_dim_returns. lia. }
    intros ii _. apply returns_returns_or_raises, returns_ret. exact HT. }
  unfold KaleidoTransform.
  eapply raises_bind_r.
  { apply returns_returns_or_raises, torch_zeros3_returns; lia. }
  intros T0 (_ & HT1 & _). rewrite Nat2Z.id in HT1.
  destruct (Z.eq_dec (Z.of_nat (cols blkIdx) * blk_w_pad self pxIdx)%Z 0%Z)
    as [Hw0 | Hw0].
  - eapply raises_bind_r.
    { apply (foldM_returns_or_raises _ (fun T' => dim1 T' = rows blkIdx)).
      - exact HT1.
      - intros T' b Hb HT'. apply elem_of_py_range_up in Hb.
        destruct Hb as (i & -> & Hi). apply Hrow; assumption. }
    intros T _. apply raises_bind_l. rewrite Hw0. apply view3_2_raises.
  - destruct Hdeg as [Hdeg | [Hgh Hh0]]; [contradiction |].
    apply raises_bind_l.
    apply (foldM_raises _ (fun T' => dim1 T' = rows blkIdx) RuntimeError 0%Z).
    + apply py_range_up_head, Hgh.
    + exact HT1.
    + intros T' b Hb HT'. apply elem_of_py_range_up in Hb.
      destruct Hb as (i & -> & Hi). apply Hrow; assumption.
    + intros T' HT'. unfold buildBlkRow.
      eapply raises_bind_r.
      { apply returns_returns_or_raises, torch_zeros3_returns; lia. }
      intros t0 (Ht0 & Ht1 & Ht2 & _). rewrite Nat2Z.id in Ht1.
      eapply raises_bind_r.
      { apply (row_blocks_run self matIn pxIdx blkIdx centerBlk 0); assumption. }
      intros t _. apply raises_bind_l. rewrite Hh0. apply view3_2_raises.
Qed.

(** X14. With [centerBlk = (ci, cj)] inside the grid and a pixel map of
    dtype [int64] that [view] can flatten, the block at the
    centre itself is placed as gathered: not flipped and, whatever the
    reflectivity, not attenuated. *)
Theorem transform_centre_block (self : Kaleidoscope V) (matIn : Tensor2 V)
    (pxIdx : TensorArg Z) (blkIdx : Tensor2 Z) (ci cj y x : nat) :
  flat_long pxIdx ->
  nonneg4 (padding self) ->
  in_range pxIdx (cols matIn) -> in_range blkIdx (rows matIn) ->
  ci < rows blkIdx -> cj < cols blkIdx -> y < rows pxIdx -> x < cols pxIdx ->
  returns (KaleidoTransform self matIn pxIdx blkIdx [Z.of_nat ci; Z.of_nat cj])
    (fun out =>
       at2 out
         (ci * Z.to_nat (blk_h_pad self pxIdx) + (Z.to_nat (item0 (padding self)) + y))
         (cj * Z.to_nat (blk_w_pad self pxIdx) + (Z.to_nat (item2 (padding self)) + x))
       = at2 matIn (Z.to_nat (at2 blkIdx ci cj)) (Z.to_nat (at2 pxIdx y x))).
Proof.
  intros Hmap Hpad Hpx Hblk Hi Hj Hy Hx.
  eapply returns_weaken; [apply KaleidoTransform_block; eassumption |].
  simpl. intros out ->. unfold reflectBlock.
  rewrite !Z.sub_diag. simpl. rewrite ipow_0, imul_1_r. reflexivity.
Qed.

(** X15. The block folded from a row accepts negative indices on both
    maps: for a pixel map of dtype [int64] that [view] can flatten, a row
    index in [[-M, M)] and pixel indices in [[-N, N)],
    lines 161-163 yield the block whose pixel [(y, x)] is
    [matIn[k mod M][pxIdx[y, x] mod N]]. *)
Theorem block_indices_wrap (matIn : Tensor2 V) (pxIdx : TensorArg Z) (k : Z) :
  flat_long pxIdx ->
  (- Z.of_nat (rows matIn) <= k < Z.of_nat (rows matIn))%Z ->
  (forall y x, y < rows pxIdx -> x < cols pxIdx ->
     (- Z.of_nat (cols matIn) <= at2 pxIdx y x < Z.of_nat (cols matIn))%Z) ->
  returns (gatherBlock matIn pxIdx k)
    (fun blk => rows blk = rows pxIdx /\ cols blk = cols pxIdx /\
       forall y x, y < rows pxIdx -> x < cols pxIdx ->
         at2 blk y x
         = at2 matIn (Z.to_nat (k mod Z.of_nat (rows matIn)))
             (Z.to_nat (at2 pxIdx y x mod Z.of_nat (cols matIn)))).
Proof. intros Hmap Hk Hpx. apply gatherBlock_wraps; assumption. Qed.

(** X16. The call of the script: for every image tensor [x] of shape
    (1, 28, 28), [KaleidoTransform] on six copies of [x] with the identity
    pixel map of 28 x 28, a 2 x 3 grid, two pixels of padding on each side
    and the centre (0, 1) returns an array of shape (64, 96); block
    [(i, j)] shows the image upside down in the second grid row, left to
    right reversed in the first and the third grid column, each pixel
    multiplied by [1.0 ** (i + |j - 1|)]. *)
Theorem main_transform (x : TensorN V) (i j y c : nat) :
  shape x = [1; 28; 28] ->
  i < 2 -> j < 3 -> y < 28 -> c < 28 ->
  returns (main_xForm x)
    (fun out =>
       shape2 out = (64, 96) /\
       at2 out (i * 32 + (2 + y)) (j * 32 + (2 + c))
       = imul (flat x ((if i =? 1 then 27 - y else y) * 28
                       + (if j =? 1 then c else 27 - c)))
           (ipow ione (Z.of_nat i + Z.abs (Z.of_nat j - 1)))).
Proof.
  intros _ Hi Hj Hy Hc. unfold main_xForm.
  assert (Hpad : nonneg4 (padding (main_kale (V := V)))) by (repeat split; simpl; lia).
  assert (Hmap : flat_long (contiguous int64 (arange_view 784 28))).
  { split; [apply flattens_contiguous | reflexivity]. }
  assert (Hpx : in_range (contiguous int64 (arange_view 784 28))
                  (cols (repeat_rows (view_row x 784) 6))).
  { intros y' x' Hy' Hx'. simpl in *. lia. }
  assert (Hblk : in_range (arange_view 6 2) (rows (repeat_rows (view_row x 784) 6))).
  { intros y' x' Hy' Hx'. simpl in *. lia. }
  eapply returns_weaken.
  - apply (KaleidoTransform_returns main_kale _ _ _ [0; 1]%Z Hmap Hpad Hpx Hblk).
    + reflexivity.
    + right. reflexivity.
  - intros out (Hr & Hc' & Hat). split.
    + unfold shape2. rewrite Hr, Hc'. reflexivity.
    + specialize (Hat i j (2 + y) (2 + c)).
      change (Z.to_nat (blk_h_pad main_kale (contiguous int64 (arange_view 784 28))))
        with 32 in Hat.
      change (Z.to_nat (blk_w_pad main_kale (contiguous int64 (arange_view 784 28))))
        with 32 in Hat.
      rewrite Hat by (simpl; lia).
      unfold paddedCell.
      change (Z.to_nat (item0 (padding main_kale))) with 2.
      change (Z.to_nat (item2 (padding main_kale))) with 2.
      change (rows (contiguous int64 (arange_view 784 28))) with 28.
      change (cols (contiguous int64 (arange_view 784 28))) with 28.
      rewrite (proj2 (Nat.leb_le 2 (2 + y))) by lia.
      rewrite (proj2 (Nat.ltb_lt (2 + y) (2 + 28))) by lia.
      rewrite (proj2 (Nat.leb_le 2 (2 + c))) by lia.
      rewrite (proj2 (Nat.ltb_lt (2 + c) (2 + 28))) by lia.
      replace (2 + y - 2) with y by lia. replace (2 + c - 2) with c by lia.
      cbv [andb]. unfold reflectBlock.
      destruct i as [| [| i]]; [| | lia]; destruct j as [| [| [| j]]]; try lia;
        simpl; rewrite ?Nat2Z.id; repeat f_equal; lia.
Qed.
End TransformProperties.

(** ** Dtypes and strides of the tensors handed in *)

Section LayoutProperties.
Context {V : Type} `{Intensity V}.

(** X18. For repetition counts [before, after >= 0], [ParaMirrorCavity]
    raises RuntimeError on every image whose dtype is not [float32]: the
    indexed assignment of line 100 refuses a source of another dtype than
    the buffer of line 84. *)
Theorem cavity_rejects_dtype (self : Kaleidoscope V) (im : TensorArg V)
    (before after : Z) :
  (0 <= before)%Z -> (0 <= after)%Z -> arg_dtype im <> float32 ->
  raises (ParaMirrorCavity self im (before, after)) RuntimeError.
Proof. intros Ha Hb Hdt. apply ParaMirrorCavity_dtype; assumption. Qed.

(** X19. On a grid with at least one block and with non-negative padding,
    [KaleidoTransform] raises RuntimeError when [view] cannot flatten the
    pixel map (line 161), and also when the pixel map has another dtype
    than [int64] and [blkIdx[0, 0]] is a row of [matIn] (line 162). *)
Theorem transform_rejects_pixel_map (self : Kaleidoscope V) (matIn : Tensor2 V)
    (pxIdx : TensorArg Z) (blkIdx : Tensor2 Z) (centerBlk : list Z) :
  nonneg4 (padding self) ->
  0 < rows blkIdx -> 0 < cols blkIdx ->
  flattens pxIdx = false \/
  (arg_dtype pxIdx <> int64 /\ (0 <= at2 blkIdx 0 0 < Z.of_nat (rows matIn))%Z) ->
  raises (KaleidoTransform self matIn pxIdx blkIdx centerBlk) RuntimeError.
Proof.
  intros (Hp0 & Hp1 & Hp2 & Hp3) Hgh Hgw Hbad.
  assert (Hbh : (0 <= blk_h_pad self pxIdx)%Z) by (unfold blk_h_pad; lia).
  assert (Hbw : (0 <= blk_w_pad self pxIdx)%Z) by (unfold blk_w_pad; lia).
  assert (Hblock : forall t,
            raises (placeBlock self matIn pxIdx blkIdx centerBlk 0 t 0) RuntimeError).
  { intros t. unfold placeBlock. change (Z.to_nat 0) with 0. apply raises_bind_l.
    destruct (flattens pxIdx) eqn:Hflat; [| apply gatherBlock_strides, Hflat].
    destruct Hbad as [Hno | [Hdt Hk]]; [discriminate |].
    apply gatherBlock_dtype; assumption. }
  unfold KaleidoTransform.
  eapply raises_bind_r.
  { apply returns_returns_or_raises, torch_zeros3_returns; lia. }
  intros T0 _. apply raises_bind_l.
  rewrite py_range_up. destruct (rows blkIdx) as [| gh]; [lia |].
  cbn [seq map foldM]. apply raises_bind_l. unfold buildBlkRow.
  eapply raises_bind_r.
  { apply returns_returns_or_raises, torch_zeros3_returns; lia. }
  intros t0 _. apply raises_bind_l.
  rewrite py_range_up. destruct (cols blkIdx) as [| gw]; [lia |].
  cbn [seq map foldM]. apply raises_bind_l, Hblock.
Qed.
End LayoutProperties.

(** ** Concrete instances of the further properties *)

Lemma cavity_shape_witness :
  (arg_dtype img_1x2 = float32 /\ (0 <= 2)%Z /\ (0 <= 2)%Z /\ 0 < rows img_1x2) /\
  returns (ParaMirrorCavity cavity_half img_1x2 (2, 2)%Z)
    (fun out => rows out = 1 /\ Z.of_nat (cols out) = 10%Z).
Proof.
  split; [split; [reflexivity | simpl; lia] |].
  apply (cavity_shape cavity_half img_1x2 2 2); [reflexivity | simpl; lia ..].
Defined.

Lemma cavity_rejects_no_rows_witness :
  ((0 <= 2)%Z /\ (0 <= 2)%Z /\ rows img_0x2 = 0) /\
  raises (ParaMirrorCavity cavity_half img_0x2 (2, 2)%Z) RuntimeError.
Proof.
  split; [simpl; lia |].
  apply (cavity_rejects_no_rows cavity_half img_0x2 2 2); simpl; lia.
Defined.

Lemma cavity_symmetric_witness :
  (arg_dtype img_1x2 = float32 /\
   (Z.of_nat 1 <= 2)%Z /\ (Z.of_nat 1 <= 2)%Z /\ 0 < rows img_1x2 /\ 0 < cols img_1x2) /\
  returns (ParaMirrorCavity cavity_half img_1x2 (2, 2)%Z)
    (fun out => at2 out 0 2 = at2 out 0 6).
Proof.
  split; [split; [reflexivity | simpl; lia] |].
  eapply returns_weaken.
  - apply (cavity_symmetric cavity_half img_1x2 2 2 1 0 0);
      [reflexivity | simpl; lia ..].
  - intros out Hout. exact Hout.
Defined.

Lemma cavity_adjacent_mirror_witness :
  (arg_dtype img_1x2 = float32 /\
   (0 <= 2)%Z /\ (0 <= 2)%Z /\ (Z.of_nat 1 + 1 <= 2 + 2)%Z /\
   0 < rows img_1x2 /\ 0 < cols img_1x2) /\
  returns (ParaMirrorCavity cavity_half img_1x2 (2, 2)%Z)
    (fun out => at2 out 0 3 = (1 * (1 # 2))%Q /\ at2 out 0 4 = (1 * 1)%Q).
Proof.
  split; [split; [reflexivity | simpl; lia] |].
  eapply returns_weaken.
  - apply (cavity_adjacent_mirror cavity_half img_1x2 2 2 1 0 0);
      [reflexivity | simpl; lia ..].
  - intros out Hout. exact Hout.
Defined.

Lemma cavity_negative_counts_witness :
  (-1 < 0 \/ 3 < -1)%Z /\
  raises (ParaMirrorCavity cavity_half img_1x2 (-1, 3)%Z) RuntimeError.
Proof.
  split; [lia |].
  apply (cavity_negative_counts cavity_half img_1x2 (-1) 3). lia.
Defined.

Lemma cavity_centre_tile_witness :
  (arg_dtype img_1x2 = float32 /\
   (0 <= 2)%Z /\ (0 <= 2)%Z /\ 0 < rows img_1x2 /\ 1 < cols img_1x2) /\
  returns (ParaMirrorCavity cavity_half img_1x2 (2, 2)%Z)
    (fun out => at2 out 0 5 = 3%Q).
Proof.
  split; [split; [reflexivity | simpl; lia] |].
  eapply returns_weaken.
  - apply (cavity_centre_tile cavity_half img_1x2 2 2 0 1);
      [reflexivity | simpl; lia ..].
  - intros out Hout. exact Hout.
Defined.

Lemma expansion_pixels_witness :
  (shape (squeeze tensor_2x2) = [2; 2] /\
   nonneg4 (padding kale_main) /\ nonneg4 (repNums kale_main)) /\
  returns (KaleidoExpan kale_main tensor_2x2)
    (fun out => at2 out (0 * 6 + 2) (1 * 6 + 3) = (3 * 1 * 1)%Q).
Proof.
  assert (Hpad : nonneg4 (padding kale_main)) by (repeat split; simpl; lia).
  assert (Hrep : nonneg4 (repNums kale_main)) by (repeat split; simpl; lia).
  split; [split; [reflexivity | split; assumption] |].
  eapply returns_weaken.
  - apply (expansion_pixels kale_main tensor_2x2 2 2 0 1 2 3);
      try assumption; try reflexivity; simpl; lia.
  - intros out Hout. exact Hout.
Defined.

Lemma expansion_centre_witness :
  (shape (squeeze tensor_2x2) = [2; 2] /\
   nonneg4 (padding kale_main) /\ nonneg4 (repNums kale_main) /\ 1 < 2 /\ 0 < 2) /\
  returns (KaleidoExpan kale_main tensor_2x2)
    (fun out => at2 out (1 * 6 + (2 + 1)) (1 * 6 + (2 + 0)) = 2%Q).
Proof.
  assert (Hpad : nonneg4 (padding kale_main)) by (repeat split; simpl; lia).
  assert (Hrep : nonneg4 (repNums kale_main)) by (repeat split; simpl; lia).
  split; [split; [reflexivity | split; [assumption | split; [assumption | lia]]] |].
  eapply returns_weaken.
  - apply (expansion_centre kale_main tensor_2x2 2 2 1 0);
      try assumption; try reflexivity; lia.
  - intros out Hout. exact Hout.
Defined.

Lemma expansion_without_copies_witness :
  (shape (squeeze tensor_2x2) = [2; 2] /\ nonneg4 (padding kale_pad) /\
   repNums kale_pad = (0, 0, 0, 0)%Z /\
   0 < rows (paddedImage kale_pad (image2 tensor_2x2 2 2)) /\
   0 < cols (paddedImage kale_pad (image2 tensor_2x2 2 2))) /\
  returns (KaleidoExpan kale_pad tensor_2x2)
    (fun out => rows out = 3 /\ cols out = 3).
Proof.
  assert (Hpad : nonneg4 (padding kale_pad)) by (repeat split; simpl; lia).
  split; [split; [reflexivity | split; [assumption | split; [reflexivity | simpl; lia]]] |].
  eapply returns_weaken.
  - apply (expansion_without_copies kale_pad tensor_2x2 2 2);
      try assumption; try reflexivity; simpl; lia.
  - intros out (Hr & Hc & _). split; [exact Hr | exact Hc].
Defined.

Lemma transform_rejects_pixel_index_witness :
  (flat_long pxIdx_bad /\
   nonneg4 (padding kale_pad) /\ 0 < rows blkIdx_2x2 /\ 0 < cols blkIdx_2x2 /\
   1 < rows pxIdx_bad /\ 1 < cols pxIdx_bad /\
   (Z.of_nat (cols matIn_2x3) <= at2 pxIdx_bad 1 1)%Z) /\
  raises (KaleidoTransform kale_pad matIn_2x3 pxIdx_bad blkIdx_2x2 []) IndexError.
Proof.
  assert (Hmap : flat_long pxIdx_bad) by (split; reflexivity).
  assert (Hpad : nonneg4 (padding kale_pad)) by (repeat split; simpl; lia).
  split; [split; [assumption | split; [assumption | simpl; lia]] |].
  apply (transform_rejects_pixel_index kale_pad matIn_2x3 pxIdx_bad blkIdx_2x2 [] 1 1);
    [assumption | assumption | simpl; lia .. ].
Defined.

Lemma transform_rejects_row_index_witness :
  (flat_long pxIdx_2x2 /\
   nonneg4 (padding kale_pad) /\ (0 < blk_h_pad kale_pad pxIdx_2x2)%Z /\
   1 < rows blkIdx_low /\ 0 < cols blkIdx_low /\
   (at2 blkIdx_low 1 0 < - Z.of_nat (rows matIn_2x3))%Z) /\
  raises (KaleidoTransform kale_pad matIn_2x3 pxIdx_2x2 blkIdx_low []) IndexError.
Proof.
  assert (Hmap : flat_long pxIdx_2x2) by (split; reflexivity).
  assert (Hpad : nonneg4 (padding kale_pad)) by (repeat split; simpl; lia).
  split; [split; [assumption | split; [assumption | split; [reflexivity | simpl; lia]]] |].
  apply (transform_rejects_row_index kale_pad matIn_2x3 pxIdx_2x2 blkIdx_low [] 1 0);
    [assumption | assumption | reflexivity | simpl; lia .. ].
Defined.

Lemma blkIdx_neg_wraps (i j : nat) :
  i < rows blkIdx_neg -> j < cols blkIdx_neg ->
  at2 blkIdx_2x2 i j = at2 blkIdx_neg i j \/
  ((- Z.of_nat (rows matIn_2x3) <= at2 blkIdx_neg i j < 0)%Z /\
   at2 blkIdx_2x2 i j = (at2 blkIdx_neg i j + Z.of_nat (rows matIn_2x3))%Z).
Proof.
  simpl. intros Hi Hj.
  destruct i as [| [| i]]; [| | lia]; destruct j as [| [| j]]; try lia;
    simpl; (left; reflexivity) || (right; lia).
Defined.

Lemma transform_wraps_row_index_witness :
  (rows blkIdx_2x2 = rows blkIdx_neg /\ cols blkIdx_2x2 = cols blkIdx_neg) /\
  KaleidoTransform kale_pad matIn_2x3 pxIdx_2x2 blkIdx_2x2 [0; 1]%Z []
  = KaleidoTransform kale_pad matIn_2x3 pxIdx_2x2 blkIdx_neg [0; 1]%Z [].
Proof.
  split; [split; reflexivity |].
  apply (transform_wraps_row_index kale_pad matIn_2x3 pxIdx_2x2 blkIdx_neg blkIdx_2x2);
    [reflexivity | reflexivity | exact blkIdx_neg_wraps].
Defined.

Lemma transform_rejects_empty_grid_witness :
  (nonneg4 (padding kale_plain) /\
   in_range pxIdx_2x2 (cols matIn_2x3) /\ in_range blkIdx_1x0 (rows matIn_2x3) /\
   (Z.of_nat (cols blkIdx_1x0) * blk_w_pad kale_plain pxIdx_2x2 = 0)%Z) /\
  raises (KaleidoTransform kale_plain matIn_2x3 pxIdx_2x2 blkIdx_1x0 []) RuntimeError.
Proof.
  assert (Hpad : nonneg4 (padding kale_plain)) by (repeat split; simpl; lia).
  assert (Hpx : in_range pxIdx_2x2 (cols matIn_2x3))
    by (apply in_rangeb_correct; reflexivity).
  assert (Hblk : in_range blkIdx_1x0 (rows matIn_2x3))
    by (apply in_rangeb_correct; reflexivity).
  split; [split; [assumption | split; [assumption | split; [assumption | reflexivity]]] |].
  apply (transform_rejects_empty_grid kale_plain matIn_2x3 pxIdx_2x2 blkIdx_1x0 []);
    [assumption | assumption | assumption | left; reflexivity].
Defined.

Lemma transform_centre_block_witness :
  (flat_long pxIdx_2x2 /\ nonneg4 (padding kale_pad) /\
   in_range pxIdx_2x2 (cols matIn_2x3) /\ in_range blkIdx_2x2 (rows matIn_2x3) /\
   0 < rows blkIdx_2x2 /\ 1 < cols blkIdx_2x2 /\
   1 < rows pxIdx_2x2 /\ 1 < cols pxIdx_2x2) /\
  returns (KaleidoTransform kale_pad matIn_2x3 pxIdx_2x2 blkIdx_2x2
             [Z.of_nat 0; Z.of_nat 1])
    (fun out => at2 out 2 4 = 6%Q).
Proof.
  assert (Hpad : nonneg4 (padding kale_pad)) by (repeat split; simpl; lia).
  assert (Hpx : in_range pxIdx_2x2 (cols matIn_2x3))
    by (apply in_rangeb_correct; reflexivity).
  assert (Hblk : in_range blkIdx_2x2 (rows matIn_2x3))
    by (apply in_rangeb_correct; reflexivity).
  assert (Hmap : flat_long pxIdx_2x2) by (split; reflexivity).
  split; [split; [assumption | split; [assumption | split; [assumption |
            split; [assumption | simpl; lia]]]] |].
  eapply returns_weaken.
  - apply (transform_centre_block kale_pad matIn_2x3 pxIdx_2x2 blkIdx_2x2 0 1 1 1);
      try assumption; simpl; lia.
  - intros out Hout. exact Hout.
Defined.

Lemma pxIdx_neg_in_period (y x : nat) :
  y < rows pxIdx_neg -> x < cols pxIdx_neg ->
  (- Z.of_nat (cols matIn_2x3) <= at2 pxIdx_neg y x < Z.of_nat (cols matIn_2x3))%Z.
Proof.
  simpl. intros Hy Hx.
  destruct y as [| [| y]]; [| | lia]; destruct x as [| [| x]]; try lia; simpl; lia.
Defined.

Lemma block_indices_wrap_witness :
  (flat_long pxIdx_neg /\
   (- Z.of_nat (rows matIn_2x3) <= -1 < Z.of_nat (rows matIn_2x3))%Z) /\
  returns (gatherBlock matIn_2x3 pxIdx_neg (-1))
    (fun blk => rows blk = 2 /\ cols blk = 2 /\
       forall y x, y < 2 -> x < 2 ->
         at2 blk y x
         = at2 matIn_2x3 (Z.to_nat (-1 mod Z.of_nat (rows matIn_2x3)))
             (Z.to_nat (at2 pxIdx_neg y x mod Z.of_nat (cols matIn_2x3)))).
Proof.
  split; [split; [split; reflexivity | simpl; lia] |].
  apply (block_indices_wrap matIn_2x3 pxIdx_neg (-1));
    [split; reflexivity | simpl; lia | exact pxIdx_neg_in_period].
Defined.

Lemma main_transform_witness :
  (shape mnist_like = [1; 28; 28] /\ 1 < 2 /\ 0 < 3 /\ 0 < 28 /\ 5 < 28) /\
  returns (main_xForm mnist_like)
    (fun out => shape2 out = (64, 96) /\ at2 out 34 7 = (778 * 1)%Q).
Proof.
  split; [split; [reflexivity | lia] |].
  eapply returns_weaken.
  - apply (main_transform mnist_like 1 0 0 5); [reflexivity | lia ..].
  - intros out Hout. exact Hout.
Defined.

Lemma expansion_symmetric_witness :
  (shape (squeeze tensor_2x2) = [2; 2] /\ nonneg4 (padding kale_main) /\
   (Z.of_nat 1 <= item0 (repNums kale_main))%Z /\
   (Z.of_nat 1 <= item1 (repNums kale_main))%Z /\
   (Z.of_nat 1 <= item2 (repNums kale_main))%Z /\
   (Z.of_nat 1 <= item3 (repNums kale_main))%Z) /\
  returns (KaleidoExpan kale_main tensor_2x2)
    (fun out => at2 out (0 * 6 + 2) (0 * 6 + 3) = at2 out (2 * 6 + 2) (2 * 6 + 3)).
Proof.
  assert (Hpad : nonneg4 (padding kale_main)) by (repeat split; simpl; lia).
  split; [split; [reflexivity | split; [assumption | simpl; lia]] |].
  eapply returns_weaken.
  - apply (expansion_symmetric kale_main tensor_2x2 2 2 1 1 2 3);
      try assumption; try reflexivity; simpl; lia.
  - intros out Hout. exact Hout.
Defined.

Lemma cavity_rejects_dtype_witness :
  ((0 <= 2)%Z /\ (0 <= 2)%Z /\ arg_dtype img_f64 <> float32) /\
  raises (ParaMirrorCavity cavity_half img_f64 (2, 2)%Z) RuntimeError.
Proof.
  split; [split; [lia | split; [lia | discriminate]] |].
  apply (cavity_rejects_dtype cavity_half img_f64 2 2); [lia | lia | discriminate].
Defined.

Lemma transform_rejects_pixel_map_witness :
  (nonneg4 (padding kale_pad) /\ 0 < rows blkIdx_2x2 /\ 0 < cols blkIdx_2x2 /\
   flattens pxIdx_t = false) /\
  raises (KaleidoTransform kale_pad matIn_2x3 pxIdx_t blkIdx_2x2 [0; 1]%Z) RuntimeError.
Proof.
  assert (Hpad : nonneg4 (padding kale_pad)) by (repeat split; simpl; lia).
  split; [split; [assumption | split; [simpl; lia | split; [simpl; lia | reflexivity]]] |].
  apply (transform_rejects_pixel_map kale_pad matIn_2x3 pxIdx_t blkIdx_2x2 [0; 1]%Z);
    [assumption | simpl; lia | simpl; lia | left; reflexivity].
Defined.
